(** * backup_tool.py: the archive-and-dispatch pipeline

    A shallow embedding of the non-interactive part of [backup_tool.py]
    (size parsing, splitting, configuration loading, archive building,
    upload with retries, plugin resolution and notification) and the
    properties its specification states about it.

    Conventions.
    - A Python [str] is the [string] of its UTF-8 bytes, read as code
      points where the program looks at characters ([str.strip], [int],
      the pattern of a size); the decimal digits of Unicode outside
      ASCII and the digit limit of [int] come with the interpreter
      ([Py.Interp]).  A Python [int] is a [Z].
    - The module's global variables are one dictionary, as in Python
      ([globals()]): a [gmap string PyVal].
    - Everything the program does to the outside world is recorded, in
      order, in a trace of [Event]s; everything it learns from the outside
      world is answered by an [OS] record of oracles that see the trace so
      far. *)

From Stdlib Require Import ZArith Ascii String List Lia.
From stdpp Require Import base gmap strings list pretty.
From Equations Require Import Equations.

Local Open Scope Z_scope.

(** ** Python string helpers *)

Module Py.

Definition chars (s : string) : list ascii := list_ascii_of_string s.
Definition str (l : list ascii) : string := string_of_list_ascii l.

(** [c.lower()] for an ASCII letter. *)
Definition lower (c : ascii) : ascii :=
  let n := N_of_ascii c in
  if ((65 <=? n) && (n <=? 90))%N then ascii_of_N (n + 32) else c.

(** [s.lower()] on the ASCII letters.  The program only compares the
    result with ASCII words without k or i and passes it to [int]; no
    other letter of Unicode has a lower case in ASCII, so the other
    case mappings change none of these answers. *)
Definition lower_str (s : string) : string :=
  string_of_list_ascii (map lower (list_ascii_of_string s)).

Fixpoint drop_while (p : ascii -> bool) (l : list ascii) : list ascii :=
  match l with
  | [] => []
  | c :: l' => if p c then drop_while p l' else l
  end.

(** [s.strip(c)] for a one-character ASCII [c]. *)
Definition strip_char (c : ascii) (s : string) : string :=
  let p := Ascii.eqb c in
  str (rev (drop_while p (rev (drop_while p (chars s))))).

(** [s.split(sep)] for a one-character separator: never empty. *)
Fixpoint split_l (sep : ascii) (cur : list ascii) (l : list ascii)
  : list (list ascii) :=
  match l with
  | [] => [rev cur]
  | c :: l' =>
      if Ascii.eqb c sep then rev cur :: split_l sep [] l'
      else split_l sep (c :: cur) l'
  end.
Definition split (sep : ascii) (s : string) : list string :=
  map str (split_l sep [] (chars s)).

(** [s.split(sep, 1)] when [sep] occurs in [s]; [None] when it does not. *)
Fixpoint split1_l (sep : ascii) (cur : list ascii) (l : list ascii)
  : option (list ascii * list ascii) :=
  match l with
  | [] => None
  | c :: l' =>
      if Ascii.eqb c sep then Some (rev cur, l')
      else split1_l sep (c :: cur) l'
  end.
Definition split1 (sep : ascii) (s : string) : option (string * string) :=
  match split1_l sep [] (chars s) with
  | Some (a, b) => Some (str a, str b)
  | None => None
  end.

Definition contains_char (c : ascii) (s : string) : bool :=
  existsb (Ascii.eqb c) (chars s).

Definition startswith (p s : string) : bool := String.prefix p s.

Definition endswith (p s : string) : bool :=
  String.prefix (String.rev p) (String.rev s).

(** [sep.join(l)]. *)
Fixpoint join (sep : string) (l : list string) : string :=
  match l with
  | [] => ""
  | [x] => x
  | x :: l' => x +:+ sep +:+ join sep l'
  end.

(** The newline and the double quote, as one-character strings. *)
Definition nl_char : ascii := "010".
Definition dq_char : ascii := ascii_of_nat 34.
Definition nl : string := String nl_char "".
Definition dq : string := String dq_char "".

(** [s[n:]]. *)
Definition drop_prefix (n : nat) (s : string) : string :=
  str (drop n (chars s)).

(** The text before the first line break of bytes split on ASCII
    whitespace: [out.split()[0]], [None] when there is no word. *)
Definition first_word (s : string) : option string :=
  head (String.words s).

(** *** Code points

    The code points of a text: its bytes decoded as UTF-8, a byte that
    starts no well-formed sequence standing for the lone surrogate
    U+DC00 + byte, as the interpreter decodes the command line
    (surrogateescape). *)
Definition byte (c : ascii) : N := N_of_ascii c.
Definition between (lo hi b : N) : bool := ((lo <=? b) && (b <=? hi))%N.
Definition cont (b : N) : bool := between 128 191 b.
Definition lead3 (b0 b1 : N) : bool :=
  ((b0 =? 224)%N && between 160 191 b1) || (between 225 236 b0 && cont b1)
  || ((b0 =? 237)%N && between 128 159 b1) || (between 238 239 b0 && cont b1).
Definition lead4 (b0 b1 : N) : bool :=
  ((b0 =? 240)%N && between 144 191 b1) || (between 241 243 b0 && cont b1)
  || ((b0 =? 244)%N && between 128 143 b1).
Definition escape (b : N) : N := (56320 + b)%N.

Fixpoint codepoints_l (l : list ascii) : list N :=
  match l with
  | [] => []
  | c0 :: r0 =>
      let b0 := byte c0 in
      if (b0 <? 128)%N then b0 :: codepoints_l r0 else
      match r0 with
      | [] => [escape b0]
      | c1 :: r1 =>
          let b1 := byte c1 in
          if between 194 223 b0 && cont b1
          then ((b0 - 192) * 64 + (b1 - 128))%N :: codepoints_l r1
          else
            match r1 with
            | [] => escape b0 :: codepoints_l r0
            | c2 :: r2 =>
                let b2 := byte c2 in
                if lead3 b0 b1 && cont b2
                then ((b0 - 224) * 4096 + (b1 - 128) * 64 + (b2 - 128))%N
                       :: codepoints_l r2
                else
                  match r2 with
                  | [] => escape b0 :: codepoints_l r0
                  | c3 :: r3 =>
                      let b3 := byte c3 in
                      if lead4 b0 b1 && cont b2 && cont b3
                      then ((b0 - 240) * 262144 + (b1 - 128) * 4096
                            + (b2 - 128) * 64 + (b3 - 128))%N
                             :: codepoints_l r3
                      else escape b0 :: codepoints_l r0
                  end
            end
      end
  end.
Definition codepoints (s : string) : list N := codepoints_l (chars s).

(** [str.isspace] for one character, as [str.strip()] tests it. *)
Definition is_uspace (c : N) : bool :=
  between 9 13 c || between 28 32 c || (c =? 133)%N || (c =? 160)%N
  || (c =? 5760)%N || between 8192 8202 c || between 8232 8233 c
  || (c =? 8239)%N || (c =? 8287)%N || (c =? 12288)%N.

(** [Py_ISSPACE]: the white space [int()] skips around a numeral. *)
Definition is_cspace (c : N) : bool := between 9 13 c || (c =? 32)%N.

(** [l] without the elements satisfying [p] at its two ends. *)
Fixpoint skip {A} (p : A -> bool) (l : list A) : list A :=
  match l with
  | [] => []
  | c :: l' => if p c then skip p l' else l
  end.
Definition trim {A} (p : A -> bool) (l : list A) : list A :=
  rev (skip p (rev (skip p l))).

(** The UTF-8 bytes of a code point, a lone surrogate U+DC80..U+DCFF
    giving back the byte it stands for. *)
Definition utf8 (c : N) : list N :=
  if (c <? 128)%N then [c]
  else if (c <? 2048)%N then [192 + c / 64; 128 + c mod 64]%N
  else if between 56448 56575 c then [c - 56320]%N
  else if (c <? 65536)%N
       then [224 + c / 4096; 128 + (c / 64) mod 64; 128 + c mod 64]%N
  else [240 + c / 262144; 128 + (c / 4096) mod 64;
        128 + (c / 64) mod 64; 128 + c mod 64]%N.
Definition encode (l : list N) : string :=
  str (map ascii_of_N (flat_map utf8 l)).

(** [s.lstrip()] and [s.strip()]. *)
Definition lstrip (s : string) : string :=
  encode (skip is_uspace (codepoints s)).
Definition strip (s : string) : string :=
  encode (trim is_uspace (codepoints s)).

(** What the interpreter brings with it: the decimal digits of its
    Unicode database outside ASCII, each with its value, and
    [sys.int_max_str_digits] (4300 by default, 0 for no limit). *)
Record Interp := {
  py_decimal : N -> option Z;
  py_int_max_str_digits : Z
}.

(** The value of a decimal digit ([\d], [Py_UNICODE_TODECIMAL]). *)
Definition decimal (py : Interp) (c : N) : option Z :=
  if (c <? 128)%N
  then if between 48 57 c then Some (Z.of_N c - 48) else None
  else py_decimal py c.

(** A numeral of [digits] digits is more than [int()] converts. *)
Definition too_long (py : Interp) (digits : nat) : bool :=
  (0 <? py_int_max_str_digits py)
  && (Z.max (py_int_max_str_digits py) 640 <? Z.of_nat digits).

(** The ASCII text [int()] parses: an ASCII text as it is; in any other
    text a character from 127 on is a blank when it is white space, the
    ASCII digit of its value when it is a decimal digit, and makes the
    text invalid ([None]) otherwise. *)
Fixpoint to_ascii (py : Interp) (l : list N) : option (list N) :=
  match l with
  | [] => Some []
  | c :: l' =>
      match (if (c <? 127)%N then Some c
             else if is_uspace c then Some 32%N
             else (fun d => Z.to_N (48 + d)) <$> decimal py c) with
      | None => None
      | Some a => cons a <$> to_ascii py l'
      end
  end.

(** The digits of an ASCII numeral: single underscores may stand between
    two digits. *)
Fixpoint int_digits (prev_digit : bool) (l : list N) : option (list N) :=
  match l with
  | [] => if prev_digit then Some [] else None
  | c :: l' =>
      if between 48 57 c then cons c <$> int_digits true l'
      else if (c =? 95)%N && prev_digit then int_digits false l'
      else None
  end.

Definition digits_val (l : list N) : Z :=
  fold_left (fun acc c => 10 * acc + (Z.of_N c - 48)) l 0.

(** [int(s)] in base 10 for the text of code points [l].  [None] is
    ValueError. *)
Definition int_cps (py : Interp) (l : list N) : option Z :=
  match (if forallb (fun c => (c <? 128)%N) l then Some l
         else to_ascii py l) with
  | None => None
  | Some a =>
      let t := trim is_cspace a in
      let '(sign, body) :=
        match t with
        | c :: r => if (c =? 45)%N then (-1, r)
                    else if (c =? 43)%N then (1, r) else (1, t)
        | [] => (1, t)
        end in
      match int_digits false body with
      | None => None
      | Some ds =>
          if too_long py (length ds) then None
          else Some (sign * digits_val ds)
      end
  end.
Definition int (py : Interp) (s : string) : option Z :=
  int_cps py (codepoints s).

(** Truthiness of a [str]. *)
Definition nonempty (s : string) : bool :=
  match s with "" => false | _ => true end.

End Py.

(** ** [parse_split_size] *)

(** A value, or the text of the exception a pure function raises. *)
Inductive Try (A : Type) :=
| Val (a : A)
| Err (msg : string).
Arguments Val {A} a.
Arguments Err {A} msg.

(** The characters [kKmMgG]. *)
Definition is_unit (c : N) : bool :=
  existsb (N.eqb c) (map Py.byte (Py.chars "kKmMgG")).

(** [c.lower()] for an ASCII letter. *)
Definition lower_cp (c : N) : N :=
  if Py.between 65 90 c then (c + 32)%N else c.

Definition is_decimal (py : Py.Interp) (c : N) : bool :=
  match Py.decimal py c with Some _ => true | None => false end.

(** [_size_re.match(t)] for [_size_re = ^(\d+)([kKmMgG])$]: the two groups.
    [\d] is any decimal digit of Unicode; [$] matches at the end of the
    text and also just before one final newline. *)
Definition size_re_match (py : Py.Interp) (l : list N)
  : option (list N * N) :=
  let l := match rev l with
           | c :: r => if (c =? 10)%N then rev r else l
           | [] => l
           end in
  match rev l with
  | u :: rds =>
      if is_unit u && (0 <? length rds)%nat && forallb (is_decimal py) rds
      then Some (rev rds, u) else None
  | [] => None
  end.

(** [int(m.group(1))] raises ValueError for a numeral longer than
    [sys.int_max_str_digits]; nothing in the program catches it. *)
Definition parse_split_size (py : Py.Interp) (s : string)
  : Try (option Z) :=
  if negb (Py.nonempty s) then Val None else
  match size_re_match py (Py.trim Py.is_uspace (Py.codepoints s)) with
  | None => Val None
  | Some (ds, u) =>
      match Py.int_cps py ds with
      | None => Err "ValueError"
      | Some n =>
          let unit := lower_cp u in
          if (unit =? 107)%N then Val (Some (n * 1024))
          else if (unit =? 109)%N then Val (Some (n * 1024 * 1024))
          else if (unit =? 103)%N then Val (Some (n * 1024 * 1024 * 1024))
          else Val None
      end
  end.

(** ** Values and module globals *)

Inductive PyVal :=
| VInt (n : Z)
| VStr (s : string)
| VList (l : list string).

Global Instance PyVal_eq_dec : EqDecision PyVal.
Proof. solve_decision. Defined.

(** Python truthiness. *)
Definition truthy (v : PyVal) : bool :=
  match v with
  | VInt n => negb (n =? 0)
  | VStr s => Py.nonempty s
  | VList l => match l with [] => false | _ => true end
  end.

(** The module's globals.  Every name the program reads is bound when the
    module is loaded ([defaults] below), so the fall-back value of a reader
    is never used on a state reached from there. *)
Abbreviation Globals := (gmap string PyVal).

Definition g_truthy (g : Globals) (k : string) : bool :=
  match g !! k with Some v => truthy v | None => false end.
Definition g_str (g : Globals) (k : string) : string :=
  match g !! k with Some (VStr s) => s | _ => "" end.
Definition g_list (g : Globals) (k : string) : list string :=
  match g !! k with Some (VList l) => l | _ => [] end.
(** [NAME == n] and [NAME == 'text']. *)
Definition g_is_int (g : Globals) (k : string) (n : Z) : bool :=
  bool_decide (g !! k = Some (VInt n)).
Definition g_is_str (g : Globals) (k : string) (s : string) : bool :=
  bool_decide (g !! k = Some (VStr s)).

(** ** The outside world *)

Abbreviation bytes := (list Byte.byte).
Abbreviation Environ := (gmap string string).

(** What a subprocess call gives back: an exit status, or an exception
    (class [Exception]) with its text. *)
Inductive CallResult :=
| Returned (rc : Z)
| Failed (err : string).

(** The program's actions on the outside world, in the order performed. *)
Inductive Event :=
| EvStdout (text : string)                      (* sys.stdout.write, print *)
| EvAppend (path text : string)                 (* open(path, "a"): the log *)
| EvShell (cmd : string) (res : CallResult)     (* subprocess.call(cmd, shell=True) *)
| EvSpawn (argv : list string) (env : option Environ) (res : CallResult)
                                                (* subprocess.call/check_call/check_output(argv) *)
| EvMkdir (path : string)                       (* Path(path).mkdir(parents=True, exist_ok=True) *)
| EvWriteBytes (path : string) (data : bytes)   (* open(path, "wb").write(data) *)
| EvWriteText (path text : string)              (* open(path, "w").write(text) *)
| EvRemove (path : string)                      (* os.remove(path) *)
| EvSleep (secs : Z)                            (* time.sleep(secs) *)
| EvInput (prompt : string)                     (* input(prompt) *)
| EvDispatch (event status : string).           (* marker: run_plugins is entered *)

Abbreviation Trace := (list Event).

(** The answers of the outside world.  Each oracle sees the trace so far,
    so an answer may depend on everything the program (and the commands it
    ran) did before. *)
Record OS := {
  os_which : Trace -> string -> bool;            (* shutil.which(cmd) is not None *)
  os_shell : Trace -> string -> CallResult;
  os_spawn : Trace -> list string -> option Environ -> CallResult;
  os_output : Trace -> list string -> string;    (* stdout of check_output *)
  os_exists : Trace -> string -> bool;           (* Path(p).exists() *)
  os_is_file : Trace -> string -> bool;          (* Path(p).is_file(), os.path.isfile *)
  os_is_dir : Trace -> string -> bool;
  os_access_x : Trace -> string -> bool;         (* os.access(p, os.X_OK) *)
  os_read_bytes : Trace -> string -> option bytes;       (* None: the open or read raises *)
  os_read_lines : Trace -> string -> option (list string);
  os_st_size : Trace -> string -> option Z;      (* Path(p).stat().st_size *)
  os_mkdir_ok : Trace -> string -> option string;  (* Some text: mkdir raises *)
  os_write_ok : Trace -> string -> option string;  (* Some text: open/write raises *)
  os_remove_ok : Trace -> string -> bool;
  os_input : Trace -> string -> string;
  os_now : Trace -> string -> string;            (* datetime.now().strftime(fmt) *)
  os_environ : Environ;                          (* os.environ *)
  os_cwd : string;                               (* os.getcwd() *)
  os_home : string;                              (* str(Path.home()) *)
  os_executable : string;                        (* sys.executable *)
  os_sha256 : bytes -> string;                   (* hashlib.sha256(data).hexdigest() *)
  os_json_str : string -> string;                (* json.dumps(s, ensure_ascii=False) *)
  os_path_join : string -> string -> string;     (* str(Path(a) / b) *)
  os_path_name : string -> string;               (* Path(p).name *)
  os_basename : string -> string;                (* os.path.basename(p) *)
  os_repr_list : list string -> string;          (* repr() of a list of str *)
  os_py : Py.Interp;                             (* the interpreter itself *)
  os_read_fail : Trace -> Z -> option string
    (* Some text: the buffer of a read(n) cannot be allocated *)
}.

(** ** State, results and the monad of the program *)

Record St := mkSt { globals : Globals; trace : Trace }.

(** [SystemExit] is what the program raises on purpose; [Exception] stands
    for the others (ValueError, OSError, ...), which [except Exception]
    catches. *)
Inductive Exn :=
| SystemExit (msg : string)
| Exception (msg : string).

Inductive Res (A : Type) :=
| Ok (a : A) (s : St)
| Raise (e : Exn) (s : St).
Arguments Ok {A} a s.
Arguments Raise {A} e s.

Definition M (A : Type) : Type := St -> Res A.

Definition ret {A} (a : A) : M A := fun s => Ok a s.
Definition bind {A B} (m : M A) (k : A -> M B) : M B :=
  fun s => match m s with
           | Ok a s' => k a s'
           | Raise e s' => Raise e s'
           end.
Definition raise {A} (e : Exn) : M A := fun s => Raise e s.
(** [try: m except Exception as e: h e]. *)
Definition catch {A} (m : M A) (h : string -> M A) : M A :=
  fun s => match m s with
           | Raise (Exception msg) s' => h msg s'
           | r => r
           end.

Declare Scope prog_scope.
Delimit Scope prog_scope with prog.
Notation "x <- m ;; k" := (bind m (fun x => k))
  (at level 100, m at next level, k at level 200) : prog_scope.
Notation "m ;; k" := (bind m (fun _ => k))
  (at level 100, k at level 200) : prog_scope.
Local Open Scope prog_scope.

Definition get_globals : M Globals := fun s => Ok (globals s) s.
Definition get_trace : M Trace := fun s => Ok (trace s) s.
Definition set_global (k : string) (v : PyVal) : M unit :=
  fun s => Ok tt (mkSt (<[k := v]> (globals s)) (trace s)).
Definition emit (e : Event) : M unit :=
  fun s => Ok tt (mkSt (globals s) (trace s ++ [e])).

Definition final {A} (r : Res A) : St :=
  match r with Ok _ s => s | Raise _ s => s end.

(** ** Logging and command execution *)

(** [shlex_quote]: text made only of [A-Za-z0-9_@%+=:,./-] is left as it
    is; anything else (the empty text too) is wrapped in single quotes. *)
Definition is_shell_safe (c : ascii) : bool :=
  let n := N_of_ascii c in
  ((65 <=? n) && (n <=? 90) || (97 <=? n) && (n <=? 122)
   || (48 <=? n) && (n <=? 57))%N
  || existsb (Ascii.eqb c) (Py.chars "_@%+=:,./-").

Definition shlex_quote (s : string) : string :=
  let l := Py.chars s in
  if (0 <? length l)%nat && forallb is_shell_safe l then s
  else "'" +:+ Py.str (flat_map (fun c => if Ascii.eqb c "'"
                                          then Py.chars "'\''" else [c]) l)
       +:+ "'".

Section Program.
Context (os : OS).

Definition log (msg : string) : M unit :=
  g <- get_globals;;
  let line := if Py.endswith Py.nl msg then msg else msg +:+ Py.nl in
  (if g_truthy g "LOG_FILE"
   then emit (EvAppend (g_str g "LOG_FILE") line) else ret tt);;
  emit (EvStdout line).

(** [print(text)]. *)
Definition print (text : string) : M unit :=
  emit (EvStdout (text +:+ Py.nl)).

Definition command_exists (cmd : string) : M bool :=
  t <- get_trace;; ret (os_which os t cmd).

(** [subprocess.call(cmd, shell=True)], recorded with its result. *)
Definition shell (cmd : string) : M CallResult :=
  t <- get_trace;;
  let r := os_shell os t cmd in
  emit (EvShell cmd r);; ret r.

(** [subprocess.call(argv, env=env)], recorded with its result. *)
Definition spawn (argv : list string) (env : option Environ)
  : M CallResult :=
  t <- get_trace;;
  let r := os_spawn os t argv env in
  emit (EvSpawn argv env r);; ret r.

Definition run_or_echo (cmd : string) : M Z :=
  g <- get_globals;;
  if g_truthy g "DRY_RUN" then
    log ("DRY-RUN: " +:+ cmd);; ret 0
  else
    r <- shell cmd;;
    match r with
    | Returned rc => ret rc
    | Failed e => log ("❌ Exec error: " +:+ e);; ret 1
    end.

(** *** Splitting *)

(** [src.read(n)] on a regular file with [rest] still unread: the next
    [n] bytes (fewer at the end of the file), everything for a negative
    [n]. *)
Definition read_chunk (n : Z) (rest : bytes) : bytes * bytes :=
  if n <? 0 then (rest, [])
  else (take (Z.to_nat n) rest, drop (Z.to_nat n) rest).

(** [f"{idx:03d}"]: decimal, padded with zeros to at least three
    characters. *)
Definition fmt03d (idx : nat) : string :=
  let s := pretty idx in
  match String.length s with
  | 1%nat => "00" +:+ s
  | 2%nat => "0" +:+ s
  | _ => s
  end.

Definition inspect {A} (a : A) : {b | a = b} := exist _ a eq_refl.

(** The loop of [do_python_split]: the files it writes, in order, each
    with its content. *)
Equations? split_chunks (chunk_bytes : Z) (prefix : string) (idx : nat)
  (rest : bytes) : list (string * bytes) by wf (length rest) lt :=
  split_chunks chunk_bytes prefix idx rest
    with inspect (read_chunk chunk_bytes rest) => {
    | exist _ ([], _) _ := []
    | exist _ (b :: chunk, rest') e :=
        (prefix +:+ fmt03d idx, b :: chunk)
          :: split_chunks chunk_bytes prefix (S idx) rest' }.
Proof.
  unfold read_chunk in e. destruct (chunk_bytes <? 0).
  - inversion e; subst. simpl. lia.
  - inversion e as [[H1 H2]]. rewrite length_drop.
    destruct (Z.to_nat chunk_bytes), rest; simpl in *; try discriminate; lia.
Qed.

(** [lift r]: the value of [r], or its exception. *)
Definition lift {A} (r : Try A) : M A :=
  match r with Val a => ret a | Err msg => raise (Exception msg) end.

(** What [src.read(n)] raises before it reads anything.  The buffer of
    [n] bytes is allocated first, whatever is left of the file: from
    [2^63 - 1] on that is an OverflowError, below it a MemoryError when
    the memory is short. *)
Definition read_error (t : Trace) (n : Z) : option string :=
  if n <? 0 then None
  else if 2 ^ 63 - 1 <=? n then Some "OverflowError"
  else os_read_fail os t n.

Definition read_check (n : Z) : M unit :=
  t <- get_trace;;
  match read_error t n with
  | Some err => raise (Exception err)
  | None => ret tt
  end.

(** The turns of the loop: each begins with a [read], the last one being
    the [read] that finds the end of the file. *)
Fixpoint write_chunks (chunk_bytes : Z) (chunks : list (string * bytes))
  : M (list string) :=
  match chunks with
  | [] => read_check chunk_bytes;; ret []
  | (out, chunk) :: rest =>
      read_check chunk_bytes;;
      t <- get_trace;;
      emit (EvWriteBytes out chunk);;
      match os_write_ok os t out with
      | Some err => raise (Exception err)
      | None => parts <- write_chunks chunk_bytes rest;; ret (out :: parts)
      end
  end.

(** The source file is read as it is when it is opened. *)
Definition do_python_split (path prefix : string) (chunk_bytes : Z)
  : M (list string) :=
  t <- get_trace;;
  match os_read_bytes os t path with
  | None => raise (Exception "OSError")
  | Some data =>
      write_chunks chunk_bytes (split_chunks chunk_bytes prefix 0 data)
  end.

(** *** Sizes *)

(** [f"{x:.1f}"] for the exact non-negative quotient [x = num / den]:
    one decimal, ties to even.  ([total] and its quotients by 1024 are
    exact floats below 2^53.) *)
Definition fmt_1f (num den : Z) : string :=
  let q := (10 * num) / den in
  let r := (10 * num) mod den in
  let t := if 2 * r <? den then q
           else if den <? 2 * r then q + 1
           else if Z.even q then q else q + 1 in
  pretty (t / 10) +:+ "." +:+ pretty (t mod 10).

Fixpoint size_ladder (units : list string) (num den : Z) : string :=
  match units with
  | [] => ""
  | u :: rest =>
      if (num <? 1024 * den) || String.eqb u "TB"
      then fmt_1f num den +:+ " " +:+ u
      else size_ladder rest num (den * 1024)
  end.

Definition total_size (t : Trace) (files : list string) : Z :=
  foldr Z.add 0 (omap (os_st_size os t) files).

Definition human_total_size (files : list string) : M string :=
  t <- get_trace;;
  ret (size_ladder ["B"; "KB"; "MB"; "GB"; "TB"] (total_size t files) 1).

(** *** Exclude patterns *)

Definition pattern_lines (lines : list string) : list string :=
  List.filter (fun s => Py.nonempty s && negb (Py.startswith "#" s))
              (map Py.strip lines).

Definition collect_exclude_patterns : M (list string) :=
  g <- get_globals;;
  t <- get_trace;;
  let excludes := g_list g "EXCLUDES" in
  if g_truthy g "EXCLUDE_FILE" && os_is_file os t (g_str g "EXCLUDE_FILE")
  then match os_read_lines os t (g_str g "EXCLUDE_FILE") with
       | None => raise (Exception "OSError")
       | Some lines => ret (excludes ++ pattern_lines lines)
       end
  else ret excludes.

Definition _build_zip_exclude_args (patterns : list string) : list string :=
  match patterns with [] => [] | _ => "-x" :: patterns end.

Definition _build_tar_exclude_args (patterns : list string) : list string :=
  map (fun p => "--exclude=" +:+ p) patterns.

(** *** Archiving *)

Definition sys_exit {A} (msg : string) : M A := raise (SystemExit msg).

Definition mkdir (p : string) : M unit :=
  t <- get_trace;;
  emit (EvMkdir p);;
  match os_mkdir_ok os t p with
  | Some err => raise (Exception err)
  | None => ret tt
  end.

Definition write_text (p text : string) : M unit :=
  t <- get_trace;;
  emit (EvWriteText p text);;
  match os_write_ok os t p with
  | Some err => raise (Exception err)
  | None => ret tt
  end.

Definition input (prompt : string) : M string :=
  t <- get_trace;;
  emit (EvInput prompt);;
  ret (os_input os t prompt).

(** [f"{NAME}"] for a global holding an int or a string. *)
Definition g_fmt (g : Globals) (k : string) : string :=
  match g !! k with
  | Some (VInt n) => pretty n
  | Some (VStr s) => s
  | _ => ""
  end.
(** [NAME or '-']. *)
Definition g_or_dash (g : Globals) (k : string) : string :=
  if g_truthy g k then g_fmt g k else "-".

(** The [du -sh] listing of the dry-run banner. *)
Fixpoint dry_run_sizes (paths : list string) : M unit :=
  match paths with
  | [] => ret tt
  | p :: rest =>
      t <- get_trace;;
      let argv := ["du"; "-sh"; p] in
      r <- spawn argv None;;
      let size := match r with
                  | Returned 0 =>
                      default "?" (Py.first_word (os_output os t argv))
                  | _ => "?"
                  end in
      log ("   - " +:+ os_basename os p +:+ "  [" +:+ size +:+ "]");;
      dry_run_sizes rest
  end.

Definition dry_run_banner (paths patterns : list string) : M unit :=
  g <- get_globals;;
  log "🧪 DRY-RUN MODE — tidak ada perubahan nyata.";;
  log ("• Format: " +:+ g_fmt g "ARCHIVE_FORMAT" +:+ "  • ZIP_AES: "
       +:+ g_fmt g "ZIP_AES" +:+ "  • GPG: " +:+ g_fmt g "USE_GPG");;
  log ("• Output dir: " +:+ g_fmt g "OUT_DIR" +:+ "  • Base: "
       +:+ g_fmt g "BASE");;
  log ("• Split: " +:+ g_or_dash g "SPLIT_SIZE" +:+ "  • Upload: "
       +:+ g_or_dash g "UPLOAD_TARGET" +:+ " (" +:+ g_fmt g "UPLOAD_TOOL"
       +:+ ")");;
  log ("• Excludes: " +:+ pretty (length patterns) +:+ " pola");;
  dry_run_sizes paths.

Definition shell_line (args : list string) : string :=
  Py.join " " (map shlex_quote args).

(** The password arguments of the two 7z invocations. *)
Definition seven_password_args (prompt : string) : M (list string) :=
  g <- get_globals;;
  if g_truthy g "ZIP_PASSWORD" then
    ret ["-p" +:+ g_str g "ZIP_PASSWORD"; "-mhe=on"]
  else if g_is_int g "ZIP_ENCRYPT" 1 then
    pw <- input prompt;;
    ret ["-p" +:+ pw; "-mhe=on"]
  else ret [].

Definition out_file (g : Globals) (ext : string) : string :=
  os_path_join os (g_str g "OUT_DIR") (g_str g "BASE" +:+ ext).

Definition archive_zip_aes (paths patterns : list string) : M string :=
  g <- get_globals;;
  has <- command_exists "7z";;
  if negb has then sys_exit "❌ butuh '7z' untuk ZIP AES-256" else
  let tmpfile := out_file g ".zip" in
  pw <- seven_password_args "🔑 Password ZIP AES: ";;
  let seven_args :=
    ["7z"; "a"; "-tzip"; "-mem=AES256"; tmpfile] ++ pw
    ++ map (fun p => "-x!" +:+ p) patterns ++ paths in
  rc <- run_or_echo (shell_line seven_args);;
  if negb (rc =? 0) then sys_exit "❌ Gagal membuat ZIP AES"
  else ret tmpfile.

Definition archive_zip (paths patterns : list string) : M string :=
  g <- get_globals;;
  has <- command_exists "zip";;
  if negb has then sys_exit "❌ butuh 'zip'" else
  let tmpfile := out_file g ".zip" in
  let pass_args :=
    if g_truthy g "ZIP_PASSWORD" then ["-P"; g_str g "ZIP_PASSWORD"]
    else if g_is_int g "ZIP_ENCRYPT" 1 then ["-e"] else [] in
  let ex_args := _build_zip_exclude_args patterns in
  let cmd := shell_line (["zip"; "-r"] ++ pass_args ++ [tmpfile]
                         ++ paths ++ ex_args) in
  if g_truthy g "DRY_RUN" then run_or_echo cmd;; ret tmpfile
  else
    r <- shell cmd;;
    match r with
    | Failed e => raise (Exception e)
    | Returned rc =>
        if negb (rc =? 0) then sys_exit "❌ Gagal membuat ZIP" else
        t <- spawn ["zip"; "-T"; tmpfile] None;;
        (match t with
         | Returned 0 => log "🧪 Verifikasi zip OK."
         | _ => log "❗ ZIP corrupt!"
         end);;
        ret tmpfile
    end.

Definition archive_tgz (paths patterns : list string) : M string :=
  g <- get_globals;;
  has <- command_exists "tar";;
  if negb has then sys_exit "❌ butuh 'tar'" else
  let tmpfile := out_file g ".tar.gz" in
  let ex_args := _build_tar_exclude_args patterns in
  pigz <- command_exists "pigz";;
  let compressor := if pigz then "pigz" else "gzip" in
  let tar_cmd := Py.join " " (["tar"] ++ ex_args ++ ["-cf"; "-"; "--"]
                              ++ map shlex_quote paths) in
  let cmd := tar_cmd +:+ " | " +:+ compressor +:+ " > "
             +:+ shlex_quote tmpfile in
  rc <- run_or_echo cmd;;
  if negb (rc =? 0) then sys_exit "❌ Gagal membuat TGZ" else
  gz <- (if g_truthy g "DRY_RUN" then ret false
         else command_exists "gzip");;
  if gz then
    r <- spawn ["gzip"; "-t"; tmpfile] None;;
    match r with
    | Failed e => raise (Exception e)
    | Returned rc =>
        (if negb (rc =? 0) then log "❗ Gzip corrupt!" else ret tt);;
        ret tmpfile
    end
  else ret tmpfile.

Definition archive_tar (paths patterns : list string) : M string :=
  g <- get_globals;;
  has <- command_exists "tar";;
  if negb has then sys_exit "❌ butuh 'tar'" else
  let tmpfile := out_file g ".tar" in
  let ex_args := _build_tar_exclude_args patterns in
  let cmd := shell_line (["tar"] ++ ex_args ++ ["-cf"; tmpfile; "--"]
                         ++ paths) in
  rc <- run_or_echo cmd;;
  if negb (rc =? 0) then sys_exit "❌ Gagal membuat TAR" else ret tmpfile.

Definition archive_7z (paths patterns : list string) : M string :=
  g <- get_globals;;
  has <- command_exists "7z";;
  if negb has then sys_exit "❌ butuh '7z'" else
  let tmpfile := out_file g ".7z" in
  pw <- seven_password_args "🔑 Password 7z: ";;
  let seven_args :=
    ["7z"; "a"; "-t7z"; tmpfile] ++ pw
    ++ map (fun p => "-x!" +:+ p) patterns ++ paths in
  rc <- run_or_echo (shell_line seven_args);;
  if negb (rc =? 0) then sys_exit "❌ Gagal membuat 7z" else ret tmpfile.

Definition is_tar_format (g : Globals) : bool :=
  g_is_str g "ARCHIVE_FORMAT" "tgz" || g_is_str g "ARCHIVE_FORMAT" "tar.gz"
  || g_is_str g "ARCHIVE_FORMAT" "tar".

(** The "Create archive" block: the path of the archive. *)
Definition archive_stage (paths patterns : list string) : M string :=
  g <- get_globals;;
  if g_is_str g "ARCHIVE_FORMAT" "zip" then
    if g_is_int g "ZIP_AES" 1 then archive_zip_aes paths patterns
    else archive_zip paths patterns
  else if g_is_str g "ARCHIVE_FORMAT" "tgz"
          || g_is_str g "ARCHIVE_FORMAT" "tar.gz" then
    archive_tgz paths patterns
  else if g_is_str g "ARCHIVE_FORMAT" "tar" then archive_tar paths patterns
  else if g_is_str g "ARCHIVE_FORMAT" "7z" then archive_7z paths patterns
  else sys_exit ("❌ format tidak didukung: " +:+ g_fmt g "ARCHIVE_FORMAT").

(** The "GPG Encrypt" block: the path of the encrypted file, [""] when
    the block does not apply. *)
Definition gpg_stage (tmpfile : string) : M string :=
  g <- get_globals;;
  if g_is_int g "USE_GPG" 1 && is_tar_format g then
    has <- command_exists "gpg";;
    if negb has then sys_exit "❌ butuh 'gpg' untuk --gpg-encrypt" else
    let encrypted_file := tmpfile +:+ ".gpg" in
    rc <- run_or_echo ("gpg --symmetric --cipher-algo AES256 --output "
                       +:+ shlex_quote encrypted_file +:+ " "
                       +:+ shlex_quote tmpfile);;
    if negb (rc =? 0) then sys_exit "❌ Gagal enkripsi GPG"
    else ret encrypted_file
  else ret "".

(** The "Split" block: the files to upload. *)
Definition split_stage (primary_out : string) : M (list string) :=
  g <- get_globals;;
  if g_truthy g "SPLIT_SIZE" then
    b <- lift (parse_split_size (os_py os) (g_str g "SPLIT_SIZE"));;
    match b with
    | None | Some 0 =>
        log "⚠️  Nilai --split tidak valid, melewati split";;
        ret [primary_out]
    | Some b =>
        log ("✂️  Split per " +:+ g_fmt g "SPLIT_SIZE" +:+ "...");;
        let prefix := primary_out +:+ ".part." in
        if g_truthy g "DRY_RUN" then
          run_or_echo ("(split " +:+ g_fmt g "SPLIT_SIZE" +:+ " "
                       +:+ shlex_quote primary_out +:+ " "
                       +:+ shlex_quote prefix +:+ "NNN)");;
          ret [primary_out]
        else
          parts <- do_python_split primary_out prefix b;;
          files <-
            (if g_truthy g "KEEP_AFTER_SPLIT" then
               log "✅ Split sukses. Arsip utuh tetap disimpan.";;
               ret (parts ++ [primary_out])
             else if g_truthy g "RM_AFTER_SPLIT" then
               t <- get_trace;;
               emit (EvRemove primary_out);;
               (if os_remove_ok os t primary_out
                then log "🧹 Arsip utuh dihapus setelah split."
                else ret tt);;
               ret parts
             else ret (parts ++ [primary_out]));;
          log ("📦 Output parts: " +:+ prefix +:+ "000, " +:+ prefix
               +:+ "001, ...");;
          ret files
    end
  else
    log ("✅ Arsip siap: 📦 " +:+ primary_out);;
    ret [primary_out].

Definition sha256_file (path : string) : M string :=
  t <- get_trace;;
  match os_read_bytes os t path with
  | None => raise (Exception "OSError")
  | Some data => ret (os_sha256 os data)
  end.

Definition g_or (g : Globals) (k1 k2 : string) : string :=
  if g_truthy g k1 then g_str g k1 else g_str g k2.

(** One turn of the checksum loop, outside dry-run. *)
Definition checksum_one (f : string) : M unit :=
  g <- get_globals;;
  catch
    (digest <- sha256_file f;;
     let chk_dir := g_or g "CHECKSUM_DIR" "OUT_DIR" in
     mkdir chk_dir;;
     let chk_path :=
       os_path_join os chk_dir (os_path_name os f +:+ ".sha256") in
     write_text chk_path
       (digest +:+ "  " +:+ os_path_name os f +:+ Py.nl);;
     log ("🔎 Membuat SHA256: " +:+ chk_path))
    (fun e => log ("ℹ️  Lewati checksum: " +:+ e)).

(** One turn of the checksum loop in dry-run. *)
Definition checksum_echo (f : string) : M unit :=
  g <- get_globals;;
  let chk_dir := g_or g "CHECKSUM_DIR" "OUT_DIR" in
  let chk_path :=
    os_path_join os chk_dir (os_path_name os f +:+ ".sha256") in
  log ("DRY-RUN: sha256('" +:+ f +:+ "') > '" +:+ chk_path +:+ "'").

Fixpoint for_each (body : string -> M unit) (l : list string) : M unit :=
  match l with
  | [] => ret tt
  | x :: rest => body x;; for_each body rest
  end.

(** The "Checksum" block. *)
Definition checksum_stage (files_to_upload : list string) : M unit :=
  g <- get_globals;;
  if g_truthy g "MAKE_CHECKSUM" then
    if negb (g_truthy g "DRY_RUN")
    then for_each checksum_one files_to_upload
    else for_each checksum_echo files_to_upload
  else ret tt.

(** [json.dumps] of the summary dictionary, with the default
    separators. *)
Definition summary_json (timestamp output archive size : string)
  (files : list string) : string :=
  let q := os_json_str os in
  let key k := Py.dq +:+ k +:+ Py.dq +:+ ": " in
  "{" +:+ key "timestamp" +:+ q timestamp +:+ ", "
  +:+ key "output" +:+ q output +:+ ", "
  +:+ key "archive" +:+ q archive +:+ ", "
  +:+ key "size" +:+ q size +:+ ", "
  +:+ key "files" +:+ "[" +:+ Py.join ", " (map q files) +:+ "]}".

(** [s[:-1]]. *)
Definition drop_last (s : string) : string :=
  Py.str (rev (drop 1 (rev (Py.chars s)))).

(** The path of the summary file; a trailing doubled brace loses its last
    character. *)
Definition summary_path (g : Globals) : string :=
  let sum_dir := g_or g "SUMMARY_DIR" "OUT_DIR" in
  let path := os_path_join os sum_dir (g_str g "BASE" +:+ ".summary.json") in
  if Py.endswith "}.json}" path then drop_last path else path.

(** The "Summary JSON" block. *)
Definition summary_stage (primary_out : string)
  (files_to_upload : list string) : M unit :=
  set_global "SUMMARY_JSON" (VStr "");;
  g <- get_globals;;
  if g_truthy g "MAKE_SUMMARY" then
    mkdir (g_or g "SUMMARY_DIR" "OUT_DIR");;
    set_global "SUMMARY_JSON" (VStr (summary_path g));;
    size_str <- (if g_truthy g "DRY_RUN" then ret "(estimasi)"
                 else human_total_size files_to_upload);;
    t <- get_trace;;
    write_text (summary_path g)
      (summary_json (os_now os t "%Y-%m-%d %H:%M:%S")
         (g_str g "OUT_DIR") primary_out size_str files_to_upload);;
    log ("📝 Ringkasan: " +:+ summary_path g)
  else ret tt.

Definition make_archive (paths : list string)
  : M (string * list string) :=
  match paths with
  | [] => sys_exit "❌ Tidak ada item terpilih."
  | _ =>
      g <- get_globals;;
      mkdir (g_str g "OUT_DIR");;
      let log_file := out_file g ".log" in
      set_global "LOG_FILE" (VStr log_file);;
      log ("🗒️  Log: " +:+ log_file);;
      patterns <- collect_exclude_patterns;;
      (if g_truthy g "DRY_RUN" then dry_run_banner paths patterns
       else ret tt);;
      tmpfile <- archive_stage paths patterns;;
      encrypted_file <- gpg_stage tmpfile;;
      let primary_out := if Py.nonempty encrypted_file
                         then encrypted_file else tmpfile in
      files_to_upload <- split_stage primary_out;;
      checksum_stage files_to_upload;;
      summary_stage primary_out files_to_upload;;
      ret (primary_out, files_to_upload)
  end.

(** *** Upload *)

(** [int(UPLOAD_RETRY or 3)]: the default is the int 3, the config file
    and the command line store a string.  [None]: the conversion
    raises. *)
Definition upload_retry (g : Globals) : option Z :=
  match g !! "UPLOAD_RETRY" with
  | Some (VInt n) => Some (if n =? 0 then 3 else n)
  | Some (VStr s) => if Py.nonempty s then Py.int (os_py os) s else Some 3
  | Some (VList l) => match l with [] => Some 3 | _ => None end
  | None => None
  end.

(** The tool chosen for [UPLOAD_TOOL = auto]. *)
Definition auto_tool (target : string) : M string :=
  rclone <- command_exists "rclone";;
  if rclone then ret "rclone" else
  aws <- (if Py.startswith "s3://" target
         then command_exists "aws" else ret false);;
  if aws then ret "aws" else
  lftp <- command_exists "lftp";;
  if lftp then ret "lftp"
  else if Py.startswith "sftp://" target then ret "scp"
  else ret "rclone".

(** The command line of one transfer; [None] for a tool the dispatcher
    does not know. *)
Definition upload_cmd (tool file target : string) : option string :=
  if String.eqb tool "rclone" then
    Some ("rclone copy " +:+ shlex_quote file +:+ " "
          +:+ shlex_quote target +:+ " --progress")
  else if String.eqb tool "aws" then
    Some ("aws s3 cp " +:+ shlex_quote file +:+ " " +:+ shlex_quote target)
  else if String.eqb tool "lftp" then
    Some ("lftp -c " +:+ Py.dq +:+ "open '" +:+ target +:+ "'; put -O . '"
          +:+ file +:+ "'; bye" +:+ Py.dq)
  else if String.eqb tool "scp" then
    Some ("scp " +:+ shlex_quote file +:+ " "
          +:+ shlex_quote (Py.drop_prefix 7 target))
  else None.

(** One pass through the tool dispatch of the loop body: the exit status
    of the transfer, [None] for an unsupported tool. *)
Definition transfer (tool file target : string) : M (option Z) :=
  match upload_cmd tool file target with
  | None => ret None
  | Some cmd =>
      rc <- run_or_echo cmd;;
      g <- get_globals;;
      (if String.eqb tool "rclone" && (rc =? 0)
          && negb (g_truthy g "DRY_RUN")
       then
         r <- spawn ["rclone"; "check"; file; target; "--size-only"] None;;
         match r with
         | Returned _ => log "✅ Verifikasi rclone (size-only) selesai."
         | Failed _ => ret tt
         end
       else ret tt);;
      ret (Some rc)
  end.

(** The places where [do_upload_one] returns, each with the value of
    [attempt] there. *)
Inductive UploadExit :=
| NoTarget                      (* return 0: nothing to do *)
| Unsupported (attempt : Z)     (* return 1: unknown UPLOAD_TOOL *)
| Uploaded (attempt : Z)        (* return 0: this attempt succeeded *)
| GaveUp (attempt : Z).         (* return 1: the while condition failed *)

Definition rc_of (x : UploadExit) : Z :=
  match x with
  | NoTarget | Uploaded _ => 0
  | Unsupported _ | GaveUp _ => 1
  end.

(** [while attempt <= tries: ...]. *)
Equations? upload_loop (file target tool : string) (tries attempt delay : Z)
  : M UploadExit by wf (Z.to_nat (tries + 1 - attempt)) lt :=
  upload_loop file target tool tries attempt delay
    with decide (attempt ≤ tries) => {
    | right _ :=
        log ("❌ Upload gagal setelah " +:+ pretty tries +:+ " percobaan.");;
        ret (GaveUp attempt)
    | left _ :=
        log ("   • Attempt " +:+ pretty attempt +:+ "/" +:+ pretty tries
             +:+ " ...");;
        r <- transfer tool file target;;
        match r with
        | None =>
            log ("❌ UPLOAD_TOOL tidak didukung: " +:+ tool);;
            ret (Unsupported attempt)
        | Some rc =>
            if rc =? 0 then
              log ("✅ Upload sukses: " +:+ file +:+ " → " +:+ target);;
              g <- get_globals;;
              (if g_truthy g "AFTER_UPLOAD_RM" then
                 run_or_echo ("rm -f -- " +:+ shlex_quote file);;
                 log ("🧹 Hapus lokal: " +:+ file)
               else ret tt);;
              ret (Uploaded attempt)
            else
              log ("❌ Upload gagal (" +:+ tool +:+ ").");;
              emit (EvSleep delay);;
              upload_loop file target tool tries (attempt + 1) (delay * 2)
        end }.
Proof. lia. Qed.

(** The body of [do_upload_one], returning where it left. *)
Definition upload_one (file : string) : M UploadExit :=
  g <- get_globals;;
  let target := g_str g "UPLOAD_TARGET" in
  let tool := if g_truthy g "UPLOAD_TOOL"
              then g_str g "UPLOAD_TOOL" else "auto" in
  match upload_retry g with
  | None => raise (Exception "ValueError: invalid literal for int()")
  | Some tries =>
      if negb (Py.nonempty target) then ret NoTarget else
      tool <- (if String.eqb tool "auto" then auto_tool target
              else ret tool);;
      log ("☁️  Upload menggunakan: " +:+ tool +:+ " → " +:+ target);;
      upload_loop file target tool tries 1 2
  end.

Definition do_upload_one (file : string) : M Z :=
  x <- upload_one file;; ret (rc_of x).

(** *** Notifications and plugins *)

Definition env_get (k : string) : string :=
  default "" (os_environ os !! k).

Definition notify_telegram (status base archive_path : string) : M unit :=
  let bot := env_get "TELEGRAM_BOT_TOKEN" in
  let chat_id := env_get "TELEGRAM_CHAT_ID" in
  if negb (Py.nonempty bot) || negb (Py.nonempty chat_id) then
    log "ℹ️  Telegram ENV tidak lengkap."
  else
    let text := "*" +:+ base +:+ "*" +:+ Py.nl +:+ "Status: " +:+ status
                +:+ Py.nl +:+ "Arsip: " +:+ archive_path in
    has <- command_exists "curl";;
    if negb has then log "ℹ️  curl tidak ada, skip telegram" else
    run_or_echo
      ("curl -s -X POST https://api.telegram.org/bot" +:+ shlex_quote bot
       +:+ "/sendMessage -d chat_id=" +:+ shlex_quote chat_id
       +:+ " -d parse_mode=Markdown -d text=" +:+ shlex_quote text
       +:+ " > /dev/null");;
    ret tt.

Definition notify_email (status base archive_path target : string)
  : M unit :=
  let email_to := env_get "EMAIL_TO" in
  let subject := default ("Backup " +:+ base +:+ ": " +:+ status)
                         (os_environ os !! "EMAIL_SUBJECT") in
  if negb (Py.nonempty email_to) then
    log "ℹ️  EMAIL_TO tidak diset, skip email"
  else
    let body := "Status: " +:+ status +:+ Py.nl +:+ "Arsip: "
                +:+ archive_path +:+ Py.nl +:+ "Target: " +:+ target in
    let send mailer :=
      run_or_echo ("printf %b " +:+ shlex_quote body +:+ " | " +:+ mailer
                   +:+ " -s " +:+ shlex_quote subject +:+ " "
                   +:+ shlex_quote email_to);; ret tt in
    mail <- command_exists "mail";;
    if mail then send "mail" else
    mailx <- command_exists "mailx";;
    if mailx then send "mailx"
    else log "ℹ️  mail/mailx tidak ditemukan, skip email".

(** [os.path.join(a, b)] (POSIX). *)
Definition path_join2 (a b : string) : string :=
  if Py.startswith "/" b then b
  else if negb (Py.nonempty a) || Py.endswith "/" a then a +:+ b
  else a +:+ "/" +:+ b.

(** The candidate paths of [_resolve_plugin], in the order tried.
    ([os.path.isabs(tgt)] implies that [tgt] contains a slash.) *)
Definition plugin_candidates (tgt plugins_dir : string) : list string :=
  let exts := [""; ".py"; ".sh"] in
  if Py.startswith "/" tgt || Py.contains_char "/" tgt
  then map (fun ext => tgt +:+ ext) exts
  else map (fun ext => path_join2 plugins_dir (tgt +:+ ext)) exts.

(** The scan of the candidates: the command list and the resolved path,
    or [None] for [(None, None)]. *)
Fixpoint scan_candidates (t : Trace) (candidates : list string)
  : option (list string * string) :=
  match candidates with
  | [] => None
  | p :: rest =>
      if os_is_file os t p then
        if os_access_x os t p then Some ([p], p)
        else if Py.endswith ".py" p then Some ([os_executable os; p], p)
        else scan_candidates t rest
      else scan_candidates t rest
  end.

Definition _resolve_plugin (t : Trace) (tgt plugins_dir : string)
  : option (list string * string) :=
  scan_candidates t (plugin_candidates tgt plugins_dir).

(** The variables [run_plugins] adds to the environment of a plugin. *)
Definition plugin_env (g : Globals) (event final_status primary_out : string)
  (files_to_upload : list string) (total_size_str : string) : Environ :=
  <["TOTAL_SIZE" := total_size_str]>
  (<["DRY_RUN" := g_fmt g "DRY_RUN"]>
  (<["UPLOAD_TARGET" := g_str g "UPLOAD_TARGET"]>
  (<["NOTIFY_CONFIG" := g_str g "NOTIFY_CONFIG"]>
  (<["LOG_FILE" := g_str g "LOG_FILE"]>
  (<["STATUS" := final_status]>
  (<["BASE_NAME" := g_str g "BASE"]>
  (<["OUTPUT_DIR" := g_str g "OUT_DIR"]>
  (<["FILES" := Py.join Py.nl files_to_upload]>
  (<["ARCHIVE_PATH" := primary_out]>
  (<["SUMMARY_FILE" := g_str g "SUMMARY_JSON"]>
  (<["EVENT" := event]> (os_environ os)))))))))))).

(** One turn of the loop over [NOTIFY_TARGETS]. *)
Definition notify_one (event final_status primary_out : string)
  (env : Environ) (tgt : string) : M unit :=
  g <- get_globals;;
  let tgt := Py.strip tgt in
  if String.eqb tgt "telegram" then
    notify_telegram final_status (g_str g "BASE") primary_out
  else if String.eqb tgt "email" then
    notify_email final_status (g_str g "BASE") primary_out
                 (g_str g "UPLOAD_TARGET")
  else
    t <- get_trace;;
    match _resolve_plugin t tgt (g_str g "PLUGINS_DIR") with
    | Some (cmd, resolved) =>
        if g_truthy g "DRY_RUN" then
          log ("DRY-RUN: plugin " +:+ resolved +:+ " (EVENT=" +:+ event
               +:+ ") CMD=" +:+ os_repr_list os cmd)
        else
          r <- spawn cmd (Some env);;
          match r with
          | Returned _ => ret tt
          | Failed e => log ("ℹ️  Plugin error: " +:+ e)
          end
    | None =>
        log ("ℹ️  Plugin tidak executable atau tidak ditemukan: " +:+ tgt
             +:+ " (cari di " +:+ g_str g "PLUGINS_DIR" +:+ " .py/.sh)")
    end.

Definition run_plugins (event final_status primary_out : string)
  (files_to_upload : list string) : M unit :=
  emit (EvDispatch event final_status);;
  g <- get_globals;;
  total_size_str <- (if g_truthy g "DRY_RUN" then ret "(estimasi)"
                     else human_total_size files_to_upload);;
  let env := plugin_env g event final_status primary_out files_to_upload
               total_size_str in
  for_each (notify_one event final_status primary_out env)
           (g_list g "NOTIFY_TARGETS").

(** *** The headless runner *)

Definition ts_name : M string :=
  t <- get_trace;; ret (os_now os t "backup-%Y%m%d-%H%M%S").

Definition append_global (k : string) (items : list string) : M unit :=
  g <- get_globals;; set_global k (VList (g_list g k ++ items)).

Definition apply_sources_if_any : M unit :=
  g <- get_globals;;
  if negb (g_truthy g "SELECTED_PATHS") && g_truthy g "SOURCES" then
    for_each (fun s =>
                t <- get_trace;;
                if os_exists os t s then append_global "SELECTED_PATHS" [s]
                else log ("⚠️  --source tidak ditemukan: " +:+ s))
             (g_list g "SOURCES")
  else ret tt.

(** One turn of the loop over [files_to_upload] of
    [headless_make_archive].  For the proofs it returns the file with the
    place where [do_upload_one] returned, when it dispatched the file; the
    source keeps no such record, and [rc = do_upload_one(f)] is [rc_of] of
    that place. *)
Definition upload_turn (f : string) : M (list (string * UploadExit)) :=
  g <- get_globals;;
  t <- get_trace;;
  if os_exists os t f || g_truthy g "DRY_RUN" then
    x <- upload_one f;;
    (if negb (rc_of x =? 0)
     then set_global "FINAL_STATUS" (VStr "failure") else ret tt);;
    ret [(f, x)]
  else ret [].

Fixpoint upload_all (files : list string)
  : M (list (string * UploadExit)) :=
  match files with
  | [] => ret []
  | f :: rest =>
      here <- upload_turn f;;
      later <- upload_all rest;;
      ret (here ++ later)
  end.

(** [FINAL_STATUS = "success"] and the upload block. *)
Definition upload_stage (files_to_upload : list string)
  : M (list (string * UploadExit)) :=
  set_global "FINAL_STATUS" (VStr "success");;
  g <- get_globals;;
  if g_truthy g "UPLOAD_TARGET" then upload_all files_to_upload
  else ret [].

(** The notification block. *)
Definition notify_stage (primary : string) (files_to_upload : list string)
  : M unit :=
  g <- get_globals;;
  if g_is_str g "FINAL_STATUS" "success"
  then run_plugins "on_success" (g_str g "FINAL_STATUS") primary
                   files_to_upload
  else run_plugins "on_failure" (g_str g "FINAL_STATUS") primary
                   files_to_upload.

(** [headless_make_archive] from the call of [make_archive] on, up to
    the notification. *)
Definition archive_and_dispatch : M unit :=
  g <- get_globals;;
  r <- make_archive (g_list g "SELECTED_PATHS");;
  let '(primary, files_to_upload) := r in
  upload_stage files_to_upload;;
  notify_stage primary files_to_upload.

Definition dest_or_home (g : Globals) : string :=
  if g_truthy g "DEST_DIR" then g_str g "DEST_DIR" else os_home os.

Definition out_name_or_ts (g : Globals) : M string :=
  if g_truthy g "OUT_NAME" then ret (g_str g "OUT_NAME") else ts_name.

(** The prompts for the output directory and the archive name. *)
Definition ask_destination : M unit :=
  g <- get_globals;;
  print "📁 Simpan arsip di mana?";;
  print ("   1. Gunakan direktori sekarang (" +:+ os_cwd os +:+ ")");;
  print ("   2. Gunakan direktori default (" +:+ dest_or_home g +:+ ")");;
  print "   3. Masukkan path kustom";;
  answer <- input "🔢 Pilih opsi [1/2/3] (default: 2): ";;
  let dchoice := if Py.nonempty (Py.strip answer)
                 then Py.strip answer else "2" in
  out_dir <-
    (if String.eqb dchoice "1" then ret (os_cwd os)
     else if String.eqb dchoice "3" then
       custom <- input "📂 Masukkan path tujuan: ";;
       ret (if Py.nonempty (Py.strip custom) then Py.strip custom
            else dest_or_home g)
     else ret (dest_or_home g));;
  set_global "OUT_DIR" (VStr out_dir);;
  mkdir out_dir;;
  iname <- input "📦 Masukkan nama arsip (tanpa ekstensi). Kosong = auto: ";;
  base <- (if Py.nonempty (Py.strip iname) then ret (Py.strip iname)
           else out_name_or_ts g);;
  set_global "BASE" (VStr base).

Definition headless_make_archive : M unit :=
  apply_sources_if_any;;
  g <- get_globals;;
  if negb (g_truthy g "SELECTED_PATHS") then
    if g_truthy g "NO_UI" then sys_exit "❌ Tidak ada item terpilih."
    else print "❌ Tidak ada item terpilih.";; input "Kembali...";; ret tt
  else
    (if g_truthy g "NO_UI" then
       set_global "OUT_DIR" (VStr (dest_or_home g));;
       base <- out_name_or_ts g;;
       set_global "BASE" (VStr base)
     else ask_destination);;
    archive_and_dispatch;;
    if negb (g_truthy g "NO_UI")
    then input "Selesai. Kembali...";; ret tt
    else ret tt.

(** *** Configuration *)

Definition _parse_bool (v : string) : Z :=
  let s := Py.lower_str (Py.strip v) in
  if existsb (String.eqb s) ["1"; "true"; "yes"; "on"; "y"; "t"] then 1
  else if existsb (String.eqb s) ["0"; "false"; "no"; "off"; "n"; "f"; ""]
  then 0
  else match Py.int (os_py os) s with
       | Some n => if n =? 0 then 0 else 1
       | None => 0
       end.

Definition CFG_BOOL_KEYS : list string :=
  ["ZIP_AES"; "USE_GPG"; "ZIP_ENCRYPT"; "KEEP_AFTER_SPLIT";
   "RM_AFTER_SPLIT"; "NO_UI"; "AFTER_UPLOAD_RM"; "DRY_RUN";
   "MAKE_CHECKSUM"; "MAKE_SUMMARY"].

Definition CFG_STR_KEYS : list string :=
  ["START_DIR"; "DEST_DIR"; "ARCHIVE_FORMAT"; "SPLIT_SIZE"; "OUT_NAME";
   "ZIP_PASSWORD"; "EXCLUDE_FILE"; "UPLOAD_TARGET"; "UPLOAD_TOOL";
   "UPLOAD_RETRY"; "PLUGINS_DIR"; "NOTIFY_CONFIG"; "EMAIL_TO";
   "EMAIL_SUBJECT"; "TELEGRAM_BOT_TOKEN"; "TELEGRAM_CHAT_ID";
   "SUMMARY_DIR"; "CHECKSUM_DIR"].

(** [[p.strip() for p in raw.split(',') if p.strip()]]. *)
Definition comma_items (raw : string) : list string :=
  List.filter Py.nonempty (map Py.strip (Py.split "," raw)).

Definition add_excludes_from_arg (raw : string) : M unit :=
  if negb (Py.nonempty raw) then ret tt
  else append_global "EXCLUDES" (comma_items raw).

(** The key and the value of a line of the config file; [None] for a
    line the loop skips (blank, comment, or without [=]). *)
Definition parse_config_line (line : string) : option (string * string) :=
  if negb (Py.nonempty (Py.strip line))
     || Py.startswith "#" (Py.lstrip line) then None
  else match Py.split1 "=" line with
       | None => None
       | Some (k, v) =>
           Some (Py.strip k,
                 Py.strip_char "'" (Py.strip_char Py.dq_char (Py.strip v)))
       end.

(** One turn of the loop over the lines of the config file. *)
Definition config_line (line : string) : M unit :=
  match parse_config_line line with
  | None => ret tt
  | Some (k, v) =>
      if existsb (String.eqb k) CFG_STR_KEYS then set_global k (VStr v)
      else if existsb (String.eqb k) CFG_BOOL_KEYS then
        set_global k (VInt (_parse_bool v))
      else if String.eqb k "EXCLUDES" then add_excludes_from_arg v
      else if String.eqb k "SOURCES" then
        append_global "SOURCES" (comma_items v)
      else if String.eqb k "NOTIFY" then
        append_global "NOTIFY_TARGETS" (comma_items v)
      else ret tt
  end.

Definition load_config_file (file : string) : M unit :=
  t <- get_trace;;
  if negb (Py.nonempty file) || negb (os_is_file os t file) then
    log ("⚠️  Config tidak ditemukan: " +:+ file)
  else match os_read_lines os t file with
       | None => raise (Exception "OSError")
       | Some lines => for_each config_line lines
       end.

(** The namespace argparse hands to [apply_args].  An option that was
    not given is [""] for a text, [[]] for a repeatable one and [false]
    for a switch; [--summary]/[--no-summary] and
    [--checksum]/[--no-checksum] give [Some true]/[Some false], and
    [None] stands for their default, the int 0. *)
Record Args := {
  a_CONFIG_FILE : string; a_START_DIR : string; a_DEST_DIR : string;
  a_ARCHIVE_FORMAT : string; a_ZIP_AES : bool; a_USE_GPG : bool;
  a_SPLIT_SIZE : string; a_OUT_NAME : string; a_ZIP_ENCRYPT : bool;
  a_ZIP_PASSWORD : string; a_KEEP_AFTER_SPLIT : bool;
  a_RM_AFTER_SPLIT : bool; a_EXCLUDE_FILE : string; a_NO_UI : bool;
  a_SOURCES : list string; a_UPLOAD_TARGET : string;
  a_UPLOAD_TOOL : string; a_AFTER_UPLOAD_RM : bool;
  a_UPLOAD_RETRY : string; a_DRY_RUN : bool; a_PLUGINS_DIR : string;
  a_NOTIFY_CONFIG : string; a_NOTIFY_TARGETS : list string;
  a_EXCLUDES : list string; a_SUMMARY_DIR : string;
  a_CHECKSUM_DIR : string; a_MAKE_CHECKSUM : option bool;
  a_MAKE_SUMMARY : option bool
}.

(** [if value: NAME = value]. *)
Definition set_if_str (k value : string) : M unit :=
  if Py.nonempty value then set_global k (VStr value) else ret tt.
(** [if flag: NAME = 1]. *)
Definition set_if_flag (k : string) (flag : bool) : M unit :=
  if flag then set_global k (VInt 1) else ret tt.

(** The assignments of [apply_args] that follow the loading of the config
    file. *)
Definition apply_cli (args : Args) : M unit :=
  set_if_str "START_DIR" (a_START_DIR args);;
  set_if_str "DEST_DIR" (a_DEST_DIR args);;
  set_if_str "ARCHIVE_FORMAT"
    (if String.eqb (a_ARCHIVE_FORMAT args) "tar.gz" then "tgz"
     else a_ARCHIVE_FORMAT args);;
  set_if_flag "ZIP_AES" (a_ZIP_AES args);;
  set_if_flag "USE_GPG" (a_USE_GPG args);;
  set_if_str "SPLIT_SIZE" (a_SPLIT_SIZE args);;
  set_if_str "OUT_NAME" (a_OUT_NAME args);;
  set_if_flag "ZIP_ENCRYPT" (a_ZIP_ENCRYPT args);;
  set_if_str "ZIP_PASSWORD" (a_ZIP_PASSWORD args);;
  set_if_flag "KEEP_AFTER_SPLIT" (a_KEEP_AFTER_SPLIT args);;
  set_if_flag "RM_AFTER_SPLIT" (a_RM_AFTER_SPLIT args);;
  set_if_str "EXCLUDE_FILE" (a_EXCLUDE_FILE args);;
  set_if_flag "NO_UI" (a_NO_UI args);;
  append_global "SOURCES" (List.filter Py.nonempty (a_SOURCES args));;
  set_if_str "UPLOAD_TARGET" (a_UPLOAD_TARGET args);;
  set_if_str "UPLOAD_TOOL" (a_UPLOAD_TOOL args);;
  set_if_flag "AFTER_UPLOAD_RM" (a_AFTER_UPLOAD_RM args);;
  set_if_str "UPLOAD_RETRY" (a_UPLOAD_RETRY args);;
  set_if_flag "DRY_RUN" (a_DRY_RUN args);;
  set_if_str "PLUGINS_DIR" (a_PLUGINS_DIR args);;
  set_if_str "NOTIFY_CONFIG" (a_NOTIFY_CONFIG args);;
  append_global "NOTIFY_TARGETS"
    (flat_map comma_items (a_NOTIFY_TARGETS args));;
  for_each add_excludes_from_arg (a_EXCLUDES args);;
  set_if_str "SUMMARY_DIR" (a_SUMMARY_DIR args);;
  set_if_str "CHECKSUM_DIR" (a_CHECKSUM_DIR args);;
  (if bool_decide (a_MAKE_CHECKSUM args = Some false)
   then set_global "MAKE_CHECKSUM" (VInt 0) else ret tt);;
  (if bool_decide (a_MAKE_SUMMARY args = Some false)
   then set_global "MAKE_SUMMARY" (VInt 0) else ret tt);;
  g <- get_globals;;
  if g_truthy g "KEEP_AFTER_SPLIT" && g_truthy g "RM_AFTER_SPLIT"
  then set_global "RM_AFTER_SPLIT" (VInt 0) else ret tt.

Definition apply_args (args : Args) : M unit :=
  (if Py.nonempty (a_CONFIG_FILE args) then
     set_global "CONFIG_FILE" (VStr (a_CONFIG_FILE args));;
     load_config_file (a_CONFIG_FILE args)
   else ret tt);;
  apply_cli args.

(** The values the module binds when it is loaded. *)
Definition defaults : Globals :=
  list_to_map
    [("PAGE_SIZE", VInt 10); ("START_DIR", VStr (os_cwd os));
     ("DEST_DIR", VStr (os_home os)); ("ARCHIVE_FORMAT", VStr "zip");
     ("ZIP_AES", VInt 0); ("USE_GPG", VInt 0); ("SPLIT_SIZE", VStr "");
     ("OUT_NAME", VStr ""); ("ZIP_ENCRYPT", VInt 0);
     ("ZIP_PASSWORD", VStr ""); ("KEEP_AFTER_SPLIT", VInt 1);
     ("RM_AFTER_SPLIT", VInt 0); ("EXCLUDES", VList []);
     ("EXCLUDE_FILE", VStr ""); ("NO_UI", VInt 0); ("SOURCES", VList []);
     ("UPLOAD_TARGET", VStr ""); ("UPLOAD_TOOL", VStr "auto");
     ("AFTER_UPLOAD_RM", VInt 0); ("UPLOAD_RETRY", VInt 3);
     ("DRY_RUN", VInt 0); ("CONFIG_FILE", VStr "");
     ("PLUGINS_DIR", VStr "./plugins.d"); ("NOTIFY_TARGETS", VList []);
     ("NOTIFY_CONFIG", VStr ""); ("LOG_FILE", VStr "");
     ("SUMMARY_DIR", VStr ""); ("CHECKSUM_DIR", VStr "");
     ("MAKE_CHECKSUM", VInt 0); ("MAKE_SUMMARY", VInt 0);
     ("SELECTED_PATHS", VList []); ("OUT_DIR", VStr ""); ("BASE", VStr "");
     ("SUMMARY_JSON", VStr ""); ("FINAL_STATUS", VStr "success")].

(** The interactive file browser is not part of the model. *)
Context (pilih_file_ui : string -> M unit).

(** The first two steps of [main]: the config file named on the command
    line is loaded here, and once more by [apply_args]. *)
Definition resolve_config (args : Args) : M unit :=
  (if Py.nonempty (a_CONFIG_FILE args)
   then load_config_file (a_CONFIG_FILE args) else ret tt);;
  apply_args args.

Definition main (args : Args) : M unit :=
  resolve_config args;;
  g <- get_globals;;
  t <- get_trace;;
  if negb (os_is_dir os t (g_str g "START_DIR")) then
    print ("❌ START_DIR tidak valid: " +:+ g_str g "START_DIR");;
    raise (SystemExit "1")
  else if g_truthy g "NO_UI" then
    (if g_truthy g "KEEP_AFTER_SPLIT" then ret tt
     else set_global "KEEP_AFTER_SPLIT" (VInt 1));;
    headless_make_archive
  else pilih_file_ui (g_str g "START_DIR").

End Program.

(** * Vocabulary of the properties *)

(** The power of 1024 a unit letter stands for. *)
Definition unit_exp (u : N) : Z :=
  let c := lower_cp u in
  if (c =? 107)%N then 1 else if (c =? 109)%N then 2 else 3.

(** A text (of code points) of the form N{k|m|g}: one or more decimal
    digits, then one unit letter of either case. *)
Definition size_form (py : Py.Interp) (l : list N) : Prop :=
  exists ds u, ds <> [] /\ forallb (is_decimal py) ds = true
               /\ is_unit u = true /\ l = ds ++ [u].

(** The number a run of decimal digits writes, most significant first. *)
Definition decimal_val (py : Py.Interp) (ds : list N) : Z :=
  fold_left (fun acc c => 10 * acc + default 0 (Py.decimal py c)) ds 0.

(** As in every version of the Unicode database: the value of a decimal
    digit is 0 to 9, and no decimal digit is white space. *)
Definition decimal_digits_ok (py : Py.Interp) : Prop :=
  forall c d, Py.py_decimal py c = Some d ->
              0 <= d <= 9 /\ Py.is_uspace c = false.

(** An interpreter for the examples: of the decimal digits outside
    ASCII it knows the full-width ones, U+FF10 to U+FF19; numerals have
    at most 4300 digits. *)
Definition sample_py : Py.Interp :=
  {| Py.py_decimal := fun c => if Py.between 65296 65305 c
                               then Some (Z.of_N c - 65296) else None;
     Py.py_int_max_str_digits := 4300 |}.

(** ceil(S / C) for a positive C. *)
Definition ceil_div (S C : Z) : Z := (S + C - 1) / C.

(** The size of the last chunk of a file of S bytes. *)
Definition last_chunk_size (S C : Z) : Z :=
  if S mod C =? 0 then C else S mod C.

Definition ev_write (nc : string * bytes) : Event :=
  EvWriteBytes (fst nc) (snd nc).

(** The decimal digit of value [d]. *)
Definition digit_char (d : nat) : ascii := ascii_of_nat (48 + d).

(** [i] written with exactly three decimal digits. *)
Definition three_digits (i : nat) : string :=
  Py.str [digit_char (i / 100); digit_char (i / 10 mod 10);
          digit_char (i mod 10)].

(** A small outside world for the examples: [which], [shell], [exists],
    [is_file], [access_x], [content] and [lines] answer the matching
    questions; directories and writes never fail, subprocesses started
    from a list of arguments return 0 and print nothing. *)
Definition sample_os (which : string -> bool)
  (shell : Trace -> string -> CallResult) (exists_ : Trace -> string -> bool)
  (is_file access_x : string -> bool) (content : string -> option bytes)
  (lines : string -> option (list string)) : OS :=
  {| os_which := fun _ => which;
     os_shell := shell;
     os_spawn := fun _ _ _ => Returned 0;
     os_output := fun _ _ => "";
     os_exists := exists_;
     os_is_file := fun _ => is_file;
     os_is_dir := fun _ _ => true;
     os_access_x := fun _ => access_x;
     os_read_bytes := fun _ => content;
     os_read_lines := fun _ => lines;
     os_st_size := fun _ p => (fun d => Z.of_nat (length d)) <$> content p;
     os_mkdir_ok := fun _ _ => None;
     os_write_ok := fun _ _ => None;
     os_remove_ok := fun _ _ => true;
     os_input := fun _ _ => "";
     os_now := fun _ _ => "20240101-000000";
     os_environ := ∅;
     os_cwd := "/work";
     os_home := "/home/user";
     os_executable := "/usr/bin/python3";
     os_sha256 := fun _ => "";
     os_json_str := fun s => Py.dq +:+ s +:+ Py.dq;
     os_path_join := fun a b => a +:+ "/" +:+ b;
     os_path_name := fun p => p;
     os_basename := fun p => p;
     os_repr_list := fun l => "[" +:+ Py.join ", " l +:+ "]";
     os_py := sample_py;
     os_read_fail := fun _ _ => None |}.

(** The world in which nothing exists and every command fails. *)
Definition bare_os : OS :=
  sample_os (fun _ => false) (fun _ _ => Returned 1) (fun _ _ => false)
            (fun _ => false) (fun _ => false) (fun _ => None)
            (fun _ => None).

(** A state with the given globals and nothing done yet. *)
Definition fresh (g : Globals) : St := mkSt g [].

(** The events of one [log(msg)] under the globals [g]. *)
Definition log_events (g : Globals) (msg : string) : Trace :=
  let line := if Py.endswith Py.nl msg then msg else msg +:+ Py.nl in
  (if g_truthy g "LOG_FILE" then [EvAppend (g_str g "LOG_FILE") line]
   else []) ++ [EvStdout line].

(** [m], started with globals satisfying [I], only adds events satisfying
    [P] to the trace and ends (normally or not) with globals satisfying
    [I]. *)
Definition triple {A} (I : Globals -> Prop) (P : Event -> Prop) (m : M A)
  : Prop :=
  forall st, I (globals st) ->
    exists evs, trace (final (m st)) = trace st ++ evs
                /\ Forall P evs /\ I (globals (final (m st))).

(** Writing to the console or to the log file. *)
Definition is_log (e : Event) : Prop :=
  match e with EvStdout _ | EvAppend _ _ => True | _ => False end.

(** The delays of the [time.sleep] calls of a trace, in order. *)
Definition sleeps (t : Trace) : list Z :=
  omap (fun e => match e with EvSleep d => Some d | _ => None end) t.

(** The command lines [do_upload_one] builds for a transfer. *)
Definition is_transfer_cmd (cmd : string) : bool :=
  String.prefix "rclone copy " cmd || String.prefix "aws s3 cp " cmd
  || String.prefix "lftp -c " cmd || String.prefix "scp " cmd.

(** The upload attempts of a trace: the transfer commands really run. *)
Definition is_transfer (e : Event) : bool :=
  match e with EvShell cmd _ => is_transfer_cmd cmd | _ => false end.
Definition transfers (t : Trace) : Trace := List.filter is_transfer t.

(** The attempts among them that failed. *)
Definition is_failed_transfer (e : Event) : bool :=
  match e with
  | EvShell cmd (Returned rc) => is_transfer_cmd cmd && negb (rc =? 0)
  | EvShell cmd (Failed _) => is_transfer_cmd cmd
  | _ => false
  end.

(** The backoff schedule: [k] delays starting at [d], each twice the one
    before. *)
Definition backoff (d : Z) (k : nat) : list Z :=
  map (fun i => d * 2 ^ Z.of_nat i) (seq 0 k).

(** Events that are neither a transfer nor a sleep. *)
Definition is_aside (e : Event) : Prop :=
  is_transfer e = false /\ match e with EvSleep _ => False | _ => True end.

(** The value of [attempt] where [do_upload_one] returned. *)
Definition exit_attempt (x : UploadExit) : Z :=
  match x with
  | NoTarget => 0
  | Unsupported a | Uploaded a | GaveUp a => a
  end.

Definition failed_transfers (t : Trace) : Trace :=
  List.filter is_failed_transfer t.

(** [do_upload_one] returned a failure. *)
Definition failed (o : string * UploadExit) : bool :=
  negb (rc_of (snd o) =? 0).

(** The file used up its retry budget: the loop ran out of attempts. *)
Definition exhausted (x : UploadExit) : Prop :=
  match x with GaveUp _ => True | _ => False end.

(** The upload tool was not one the dispatcher knows. *)
Definition unsupported (x : UploadExit) : Prop :=
  match x with Unsupported _ => True | _ => False end.

(** The globals [g] and [g'] differ at most on the names in [keys]. *)
Definition same_but (keys : list string) (g g' : Globals) : Prop :=
  forall k, k ∉ keys -> g' !! k = g !! k.

(** The global [k] holds a text, as every assignment to the text
    settings makes it. *)
Definition holds_text (g : Globals) (k : string) : Prop :=
  exists s, g !! k = Some (VStr s).

(** The retry budget of [tries] attempts was used up by the events [evs]
    of one call: [tries] transfers were run (none when [tries] is not
    positive) and every one of them failed. *)
Definition budget_spent (tries : Z) (evs : Trace) : Prop :=
  length (transfers evs) = Z.to_nat tries
  /\ length (failed_transfers evs) = Z.to_nat tries.

(** [UPLOAD_TOOL or "auto"], and the names the dispatcher of
    [do_upload_one] has a branch for. *)
Definition chosen_tool (g : Globals) : string :=
  if g_truthy g "UPLOAD_TOOL" then g_str g "UPLOAD_TOOL" else "auto".
Definition known_tool (tool : string) : bool :=
  existsb (String.eqb tool) ["auto"; "rclone"; "aws"; "lftp"; "scp"].

(** The call met a tool the dispatcher does not know: it entered the
    loop and ran no transfer. *)
Definition tool_refused (g : Globals) (tries : Z) (evs : Trace) : Prop :=
  known_tool (chosen_tool g) = false /\ 1 <= tries /\ transfers evs = [].

(** One call [do_upload_one(f)] of the upload block: the file, the state
    it started in, the place where it returned and the events it added. *)
Record Call := mkCall {
  call_file : string;
  call_state : St;
  call_exit : UploadExit;
  call_events : Trace
}.

Definition call_out (c : Call) : string * UploadExit :=
  (call_file c, call_exit c).

(** The calls follow one another: each starts on the trace the one
    before left, from [t] to [t']. *)
Fixpoint calls_from (t : Trace) (calls : list Call) (t' : Trace) : Prop :=
  match calls with
  | [] => t' = t
  | c :: rest =>
      trace (call_state c) = t /\ calls_from (t ++ call_events c) rest t'
  end.

(** What holds of a call made by the upload block over [files], started
    with the globals [g] and the retry count [tries]: the file is one of
    [files] and was there or the run is a dry run; the globals are those
    of the start but for the status; [do_upload_one] returned the status
    of the recorded place and left the recorded events; it gave up
    exactly when the events spend the budget, and met an unknown tool
    exactly when the tool is unknown and one attempt at least was
    allowed, no transfer being run. *)
Definition call_ok (os : OS) (files : list string) (g : Globals)
  (tries : Z) (c : Call) : Prop :=
  call_file c ∈ files
  /\ (os_exists os (trace (call_state c)) (call_file c)
      || g_truthy g "DRY_RUN") = true
  /\ same_but ["FINAL_STATUS"] g (globals (call_state c))
  /\ do_upload_one os (call_file c) (call_state c)
     = Ok (rc_of (call_exit c))
          (mkSt (globals (call_state c))
                (trace (call_state c) ++ call_events c))
  /\ (rc_of (call_exit c) <> 0
      <-> exhausted (call_exit c) \/ unsupported (call_exit c))
  /\ (exhausted (call_exit c) <-> budget_spent tries (call_events c))
  /\ (unsupported (call_exit c)
      <-> tool_refused g tries (call_events c)).

(** C1 as the specification words it: after the upload stage the status
    is "failure" exactly when some dispatched file used up its retries. *)
Definition failure_iff_exhausted (os : OS) (files : list string) (st : St)
  : Prop :=
  forall outs st',
    upload_stage os files st = Ok outs st' ->
    (g_str (globals st') "FINAL_STATUS" = "failure"
     <-> exists o, o ∈ outs /\ exhausted (snd o)).

(** A world where every file exists, every tool is installed and every
    command succeeds. *)
Definition kind_os : OS :=
  sample_os (fun _ => true) (fun _ _ => Returned 0) (fun _ _ => true)
            (fun _ => true) (fun _ => true) (fun _ => Some [])
            (fun _ => Some []).

(** The same world, except that every shell command fails. *)
Definition failing_os : OS :=
  sample_os (fun _ => true) (fun _ _ => Returned 1) (fun _ _ => true)
            (fun _ => true) (fun _ => true) (fun _ => Some [])
            (fun _ => Some []).

(** The defaults with some names rebound, nothing done yet. *)
Definition configured (os : OS) (l : list (string * PyVal)) : St :=
  fresh (list_to_map l ∪ defaults os).

(** A candidate path the scan of [_resolve_plugin] stops at: a file that
    is executable or whose name ends in [.py]. *)
Definition usable (os : OS) (t : Trace) (p : string) : bool :=
  os_is_file os t p && (os_access_x os t p || Py.endswith ".py" p).

(** C7 as the specification words it, in its first consequence: the
    literal path is tried first, so a target that is itself an existing
    executable file resolves to that file. *)
Definition literal_path_first (os : OS) : Prop :=
  forall t tgt plugins_dir,
    os_is_file os t tgt = true -> os_access_x os t tgt = true ->
    _resolve_plugin os t tgt plugins_dir = Some ([tgt], tgt).

(** A world whose only file is the executable [notify-hook] of the
    working directory. *)
Definition hook_os : OS :=
  sample_os (fun _ => false) (fun _ _ => Returned 0) (fun _ _ => true)
            (String.eqb "notify-hook") (String.eqb "notify-hook")
            (fun _ => None) (fun _ => None).

(** The names the pipeline rebinds while it runs. *)
Definition run_keys : list string :=
  ["LOG_FILE"; "SUMMARY_JSON"; "FINAL_STATUS"].

(** Any event but the marker of a notification dispatch. *)
Definition not_dispatch (e : Event) : Prop :=
  match e with EvDispatch _ _ => False | _ => True end.

(** An event that starts no process from an argument list. *)
Definition no_spawn (e : Event) : Prop :=
  match e with EvSpawn _ _ _ => False | _ => True end.

(** The names of the notification payload. *)
Definition payload_keys : list string :=
  ["EVENT"; "SUMMARY_FILE"; "ARCHIVE_PATH"; "FILES"; "OUTPUT_DIR";
   "BASE_NAME"; "STATUS"; "LOG_FILE"; "NOTIFY_CONFIG"; "UPLOAD_TARGET";
   "DRY_RUN"; "TOTAL_SIZE"].

(** The environment [env] holds the whole payload of a notification,
    each value under its name, and the environment of the tool
    everywhere else. *)
Definition carries_payload (os : OS) (g : Globals)
  (event status primary : string) (files : list string) (size : string)
  (env : Environ) : Prop :=
  env !! "EVENT" = Some event
  /\ env !! "STATUS" = Some status
  /\ env !! "SUMMARY_FILE" = Some (g_str g "SUMMARY_JSON")
  /\ env !! "ARCHIVE_PATH" = Some primary
  /\ env !! "FILES" = Some (Py.join Py.nl files)
  /\ env !! "OUTPUT_DIR" = Some (g_str g "OUT_DIR")
  /\ env !! "BASE_NAME" = Some (g_str g "BASE")
  /\ env !! "LOG_FILE" = Some (g_str g "LOG_FILE")
  /\ env !! "NOTIFY_CONFIG" = Some (g_str g "NOTIFY_CONFIG")
  /\ env !! "UPLOAD_TARGET" = Some (g_str g "UPLOAD_TARGET")
  /\ env !! "DRY_RUN" = Some (g_fmt g "DRY_RUN")
  /\ env !! "TOTAL_SIZE" = Some size
  /\ forall k, k ∉ payload_keys -> env !! k = os_environ os !! k.

(** The events [evs] of the turn of [run_plugins] for the target [tgt],
    started on the trace [t]: a built-in notifier starts no process from
    an argument list; a plugin that resolves to the command [cmd] is
    started once, by that command alone and with the environment [env],
    unless the run is a dry run; every other turn only logs. *)
Definition plugin_turn (os : OS) (g : Globals) (env : Environ)
  (t : Trace) (tgt : string) (evs : Trace) : Prop :=
  let name := Py.strip tgt in
  if String.eqb name "telegram" || String.eqb name "email"
  then Forall no_spawn evs
  else
    match _resolve_plugin os t name (g_str g "PLUGINS_DIR") with
    | Some (cmd, _) =>
        if g_truthy g "DRY_RUN" then Forall is_log evs
        else exists r logs,
            evs = EvSpawn cmd (Some env) r :: logs /\ Forall is_log logs
    | None => Forall is_log evs
    end.

(** The turns for [targets] follow one another from the trace [t] to the
    trace [t']. *)
Fixpoint notified (os : OS) (g : Globals) (env : Environ) (t : Trace)
  (targets : list string) (t' : Trace) : Prop :=
  match targets with
  | [] => t' = t
  | tgt :: rest =>
      exists evs, plugin_turn os g env t tgt evs
                  /\ notified os g env (t ++ evs) rest t'
  end.

(** [DRY_RUN] holds an int, as every assignment to it makes it. *)
Definition dry_run_is_int (g : Globals) : Prop :=
  exists d, g !! "DRY_RUN" = Some (VInt d).

(** The list globals that accumulate. *)
Definition list_keys : list string := ["EXCLUDES"; "SOURCES"; "NOTIFY_TARGETS"].

(** The config-file key that feeds a list global. *)
Definition config_key (L : string) : string :=
  if String.eqb L "NOTIFY_TARGETS" then "NOTIFY" else L.

(** The entries one line of the config file adds to the list global [L]. *)
Definition line_items (L : string) (line : string) : list string :=
  match parse_config_line line with
  | Some (k, v) =>
      if existsb (String.eqb k) CFG_STR_KEYS
         || existsb (String.eqb k) CFG_BOOL_KEYS then []
      else if String.eqb k (config_key L) then comma_items v else []
  | None => []
  end.

(** The entries a config file adds to the list global [L], in order. *)
Definition file_items (L : string) (lines : list string) : list string :=
  flat_map (line_items L) lines.

(** The globals after one turn of the config loop, as a function. *)
Definition cfg_upd (os : OS) (line : string) (g : Globals) : Globals :=
  match parse_config_line line with
  | None => g
  | Some (k, v) =>
      if existsb (String.eqb k) CFG_STR_KEYS then <[k := VStr v]> g
      else if existsb (String.eqb k) CFG_BOOL_KEYS
      then <[k := VInt (_parse_bool os v)]> g
      else if String.eqb k "EXCLUDES" then
        if negb (Py.nonempty v) then g
        else <["EXCLUDES" := VList (g_list g "EXCLUDES" ++ comma_items v)]> g
      else if String.eqb k "SOURCES" then
        <["SOURCES" := VList (g_list g "SOURCES" ++ comma_items v)]> g
      else if String.eqb k "NOTIFY" then
        <["NOTIFY_TARGETS"
          := VList (g_list g "NOTIFY_TARGETS" ++ comma_items v)]> g
      else g
  end.

(** The globals after the whole config loop. *)
Definition cfg_load (os : OS) (lines : list string) (g : Globals)
  : Globals :=
  fold_left (fun g line => cfg_upd os line g) lines g.

(** [m] only changes the globals, by [f]. *)
Definition is_upd (m : M unit) (f : Globals -> Globals) : Prop :=
  forall st, m st = Ok tt (mkSt (f (globals st)) (trace st)).

(** Two globals that agree outside the list globals, and whose list
    globals are [P1 L] and [P2 L] followed by the same entries. *)
Definition lists_after (P1 P2 : string -> list string) (g1 g2 : Globals)
  : Prop :=
  (forall k, k ∉ list_keys -> g1 !! k = g2 !! k)
  /\ (forall L, L ∈ list_keys ->
        exists X, g_list g1 L = P1 L ++ X /\ g_list g2 L = P2 L ++ X).

(** [m] only changes the globals, and the same way on two globals related
    by [lists_after]. *)
Definition lockstep (m : M unit) : Prop :=
  exists f, is_upd m f
            /\ forall P1 P2 g1 g2, lists_after P1 P2 g1 g2 ->
                                   lists_after P1 P2 (f g1) (f g2).

(** The command line [--config file] and nothing else. *)
Definition only_config (file : string) : Args :=
  {| a_CONFIG_FILE := file; a_START_DIR := ""; a_DEST_DIR := "";
     a_ARCHIVE_FORMAT := ""; a_ZIP_AES := false; a_USE_GPG := false;
     a_SPLIT_SIZE := ""; a_OUT_NAME := ""; a_ZIP_ENCRYPT := false;
     a_ZIP_PASSWORD := ""; a_KEEP_AFTER_SPLIT := false;
     a_RM_AFTER_SPLIT := false; a_EXCLUDE_FILE := ""; a_NO_UI := false;
     a_SOURCES := []; a_UPLOAD_TARGET := ""; a_UPLOAD_TOOL := "";
     a_AFTER_UPLOAD_RM := false; a_UPLOAD_RETRY := ""; a_DRY_RUN := false;
     a_PLUGINS_DIR := ""; a_NOTIFY_CONFIG := ""; a_NOTIFY_TARGETS := [];
     a_EXCLUDES := []; a_SUMMARY_DIR := ""; a_CHECKSUM_DIR := "";
     a_MAKE_CHECKSUM := None; a_MAKE_SUMMARY := None |}.

(** A world whose readable files all hold the three lines
    [EXCLUDES=*.log,.git/*], [DRY_RUN=yes] and [NOTIFY=telegram]. *)
Definition config_os : OS :=
  sample_os (fun _ => true) (fun _ _ => Returned 0) (fun _ _ => true)
            (fun _ => true) (fun _ => true) (fun _ => Some [])
            (fun _ => Some ["EXCLUDES=*.log,.git/*" +:+ Py.nl;
                            "DRY_RUN=yes" +:+ Py.nl;
                            "NOTIFY=telegram" +:+ Py.nl]).

(** What a dry run of [make_archive] does besides logging, under the
    configuration [g]: it prompts for a password, sizes a selected path
    with [du -sh], creates the output directory and, when a summary is
    asked for, creates the directory of the summary and writes it. *)
Definition dry_run_event (os : OS) (g : Globals) (e : Event) : Prop :=
  match e with
  | EvStdout _ | EvAppend _ _ | EvInput _ => True
  | EvSpawn ["du"; "-sh"; _] None _ => True
  | EvMkdir d =>
      d = g_str g "OUT_DIR"
      \/ (g_truthy g "MAKE_SUMMARY" = true
          /\ d = g_or g "SUMMARY_DIR" "OUT_DIR")
  | EvWriteText p _ =>
      g_truthy g "MAKE_SUMMARY" = true /\ p = summary_path os g
  | _ => False
  end.

(** A dry run that asks for the summary. *)
Definition dry_summary_run : St :=
  configured kind_os [("DRY_RUN", VInt 1); ("MAKE_SUMMARY", VInt 1);
                      ("OUT_DIR", VStr "/out"); ("BASE", VStr "b")].

(** The notification dispatches of a trace, in order: the event and the
    status each was called with. *)
Definition dispatches (t : Trace) : list (string * string) :=
  omap (fun e => match e with
                 | EvDispatch event status => Some (event, status)
                 | _ => None
                 end) t.

(** A headless run of [/data] to [remote:bk] whose configuration file
    held the line [UPLOAD_RETRY=abc]. *)
Definition bad_retry_run : St :=
  configured kind_os [("SELECTED_PATHS", VList ["/data"]);
                      ("OUT_DIR", VStr "/out"); ("BASE", VStr "b");
                      ("UPLOAD_TARGET", VStr "remote:bk");
                      ("UPLOAD_RETRY", VStr "abc")].


(** ** Vocabulary of the further properties *)

(** The white space of ASCII: TAB..CR, FS..US and the space. *)
Definition ascii_space (c : ascii) : bool :=
  let n := N_of_ascii c in
  ((9 <=? n) && (n <=? 13) || (28 <=? n) && (n <=? 32))%N.

(** [l] without the characters satisfying [p] at its two ends: what
    [strip(c)] computes, and [strip()] on an ASCII text. *)
Definition strip_by (p : ascii -> bool) (l : list ascii) : list ascii :=
  rev (Py.drop_while p (rev (Py.drop_while p l))).

(** Neither end of [l] satisfies [p]. *)
Definition bare (p : ascii -> bool) (l : list ascii) : Prop :=
  Py.drop_while p l = l /\ Py.drop_while p (rev l) = rev l.

(** *** Reading a shell word back

    How a POSIX shell reads one word of a command line: outside quotes a
    backslash makes the next character literal (and removes a line
    break), a single quote opens a quoted stretch in which every
    character up to the next single quote is literal, and any other
    character is literal unless the shell gives it a meaning there
    ([sh_special]), in which case the text is not one plain word. *)
Inductive ShMode := ShPlain | ShQuoted | ShEscaped.

(** White space, the operators, the quotes and the backslash, the
    expansion characters and the pattern and comment characters. *)
Definition sh_special (c : ascii) : bool :=
  ascii_space c
  || existsb (Ascii.eqb c)
       (Py.dq_char :: Py.chars "|&;<>()$`\'*?[]#~!{}").

Fixpoint sh_word (m : ShMode) (l : list ascii) : option (list ascii) :=
  match l with
  | [] => match m with ShPlain => Some [] | _ => None end
  | c :: r =>
      match m with
      | ShPlain =>
          if Ascii.eqb c "'" then sh_word ShQuoted r
          else if Ascii.eqb c "\" then sh_word ShEscaped r
          else if sh_special c then None
          else cons c <$> sh_word ShPlain r
      | ShQuoted =>
          if Ascii.eqb c "'" then sh_word ShPlain r
          else cons c <$> sh_word ShQuoted r
      | ShEscaped =>
          if Ascii.eqb c Py.nl_char then sh_word ShPlain r
          else cons c <$> sh_word ShPlain r
      end
  end.

(** *** Lines of a config file *)

(** A text of white space only. *)
Definition blank (s : string) : Prop :=
  forallb ascii_space (Py.chars s) = true.

(** A key as a config line can carry it: not empty, no white space at
    its ends, no [=] in it, and no [#] in front. *)
Definition config_key_text (k : string) : Prop :=
  k <> "" /\ bare ascii_space (Py.chars k)
  /\ Py.startswith "#" k = false /\ Py.contains_char "=" k = false.

(** A value as a config line can carry it: neither white space nor a
    quote of either kind at its ends. *)
Definition config_value_text (v : string) : Prop :=
  bare ascii_space (Py.chars v) /\ bare (Ascii.eqb "'") (Py.chars v)
  /\ bare (Ascii.eqb Py.dq_char) (Py.chars v).

(** The names a config file can rebind. *)
Definition config_names : list string :=
  CFG_STR_KEYS ++ CFG_BOOL_KEYS ++ list_keys.

(** A key of one of the two tables of scalar keys. *)
Definition scalar_key (K : string) : Prop :=
  existsb (String.eqb K) CFG_STR_KEYS
  || existsb (String.eqb K) CFG_BOOL_KEYS = true.

(** What a scalar key is bound to by a line that gives it the text [v]. *)
Definition scalar_value (os : OS) (K v : string) : PyVal :=
  if existsb (String.eqb K) CFG_STR_KEYS then VStr v
  else VInt (_parse_bool os v).

(** The text the last line naming [K] gives it, if a line names it. *)
Definition last_assignment (K : string) (lines : list string)
  : option string :=
  last (omap (fun line =>
                match parse_config_line line with
                | Some (k, v) => if String.eqb k K then Some v else None
                | None => None
                end) lines).

(** *** The command line *)

(** [m] does not raise and leaves the trace alone; started with globals
    satisfying [P] it ends with globals satisfying [Q]. *)
Definition steps (P Q : Globals -> Prop) (m : M unit) : Prop :=
  forall st, P (globals st) ->
    exists st', m st = Ok tt st' /\ trace st' = trace st
                /\ Q (globals st').

(** Rebinding [k] does not break [Q]. *)
Definition stable (k : string) (Q : Globals -> Prop) : Prop :=
  forall g v, Q g -> Q (<[k := v]> g).

(** The text options of the command line, each with the global it sets. *)
Definition cli_texts (args : Args) : list (string * string) :=
  [("START_DIR", a_START_DIR args); ("DEST_DIR", a_DEST_DIR args);
   ("ARCHIVE_FORMAT",
    if String.eqb (a_ARCHIVE_FORMAT args) "tar.gz" then "tgz"
    else a_ARCHIVE_FORMAT args);
   ("SPLIT_SIZE", a_SPLIT_SIZE args); ("OUT_NAME", a_OUT_NAME args);
   ("ZIP_PASSWORD", a_ZIP_PASSWORD args);
   ("EXCLUDE_FILE", a_EXCLUDE_FILE args);
   ("UPLOAD_TARGET", a_UPLOAD_TARGET args);
   ("UPLOAD_TOOL", a_UPLOAD_TOOL args);
   ("UPLOAD_RETRY", a_UPLOAD_RETRY args);
   ("PLUGINS_DIR", a_PLUGINS_DIR args);
   ("NOTIFY_CONFIG", a_NOTIFY_CONFIG args);
   ("SUMMARY_DIR", a_SUMMARY_DIR args);
   ("CHECKSUM_DIR", a_CHECKSUM_DIR args)].

(** The switches of the command line that nothing resets, each with the
    global it sets. *)
Definition cli_flags (args : Args) : list (string * bool) :=
  [("ZIP_AES", a_ZIP_AES args); ("USE_GPG", a_USE_GPG args);
   ("ZIP_ENCRYPT", a_ZIP_ENCRYPT args);
   ("KEEP_AFTER_SPLIT", a_KEEP_AFTER_SPLIT args);
   ("NO_UI", a_NO_UI args); ("AFTER_UPLOAD_RM", a_AFTER_UPLOAD_RM args);
   ("DRY_RUN", a_DRY_RUN args)].

(** A world whose files are all the config file with the given lines. *)
Definition conf_os (lines : list string) : OS :=
  sample_os (fun _ => true) (fun _ _ => Returned 0) (fun _ _ => true)
            (fun _ => true) (fun _ => true) (fun _ => Some [])
            (fun _ => Some lines).

(** The command line
    [--config b.conf --upload-retry 5 --dry-run --rm-after-split
     --summary --checksum]. *)
Definition cli_sample : Args :=
  {| a_CONFIG_FILE := "b.conf"; a_START_DIR := ""; a_DEST_DIR := "";
     a_ARCHIVE_FORMAT := ""; a_ZIP_AES := false; a_USE_GPG := false;
     a_SPLIT_SIZE := ""; a_OUT_NAME := ""; a_ZIP_ENCRYPT := false;
     a_ZIP_PASSWORD := ""; a_KEEP_AFTER_SPLIT := false;
     a_RM_AFTER_SPLIT := true; a_EXCLUDE_FILE := ""; a_NO_UI := false;
     a_SOURCES := []; a_UPLOAD_TARGET := ""; a_UPLOAD_TOOL := "";
     a_AFTER_UPLOAD_RM := false; a_UPLOAD_RETRY := "5"; a_DRY_RUN := true;
     a_PLUGINS_DIR := ""; a_NOTIFY_CONFIG := ""; a_NOTIFY_TARGETS := [];
     a_EXCLUDES := []; a_SUMMARY_DIR := ""; a_CHECKSUM_DIR := "";
     a_MAKE_CHECKSUM := Some true; a_MAKE_SUMMARY := Some true |}.

(** The same command line without [--config b.conf]. *)
Definition cli_sample_no_config : Args :=
  {| a_CONFIG_FILE := ""; a_START_DIR := ""; a_DEST_DIR := "";
     a_ARCHIVE_FORMAT := ""; a_ZIP_AES := false; a_USE_GPG := false;
     a_SPLIT_SIZE := ""; a_OUT_NAME := ""; a_ZIP_ENCRYPT := false;
     a_ZIP_PASSWORD := ""; a_KEEP_AFTER_SPLIT := false;
     a_RM_AFTER_SPLIT := true; a_EXCLUDE_FILE := ""; a_NO_UI := false;
     a_SOURCES := []; a_UPLOAD_TARGET := ""; a_UPLOAD_TOOL := "";
     a_AFTER_UPLOAD_RM := false; a_UPLOAD_RETRY := "5"; a_DRY_RUN := true;
     a_PLUGINS_DIR := ""; a_NOTIFY_CONFIG := ""; a_NOTIFY_TARGETS := [];
     a_EXCLUDES := []; a_SUMMARY_DIR := ""; a_CHECKSUM_DIR := "";
     a_MAKE_CHECKSUM := Some true; a_MAKE_SUMMARY := Some true |}.

(** A config file that asks for one upload attempt and for a live run. *)
Definition retry_conf : list string :=
  ["UPLOAD_RETRY=1" +:+ Py.nl; "DRY_RUN=0" +:+ Py.nl].

(** *** Removing the local file after an upload *)

(** The command [do_upload_one] removes the local file with. *)
Definition rm_cmd (file : string) : string :=
  "rm -f -- " +:+ shlex_quote file.

(** The shell commands of a trace that remove a file that way. *)
Definition is_rm (e : Event) : bool :=
  match e with EvShell cmd _ => String.prefix "rm -f -- " cmd | _ => false end.
Definition removals (t : Trace) : Trace := List.filter is_rm t.

(** The events [evs] of an upload of [file] under the globals [g],
    according to whether the file is to be removed: when it is, the
    removal follows a transfer that returned 0, which is the last
    transfer, and only log lines follow the removal; otherwise nothing
    is removed. *)
Definition tidy (g : Globals) (file : string) (removes : bool)
  (evs : Trace) : Prop :=
  if removes then
    exists pre cmd r logs,
      evs = pre ++ EvShell (rm_cmd file) r :: logs
      /\ removals pre = []
      /\ last (transfers pre) = Some (EvShell cmd (Returned 0))
      /\ Forall is_log logs
  else removals evs = [].

(** The upload left through [return 0] after a transfer. *)
Definition is_uploaded (x : UploadExit) : bool :=
  match x with Uploaded _ => true | _ => false end.


(** * Properties *)

(** ** Strings *)

Lemma chars_str l : Py.chars (Py.str l) = l.
Proof. apply list_ascii_of_string_of_list_ascii. Qed.

Lemma str_chars s : Py.str (Py.chars s) = s.
Proof. apply string_of_list_ascii_of_string. Qed.

Lemma drop_while_keep p c l :
  p c = false -> Py.drop_while p (c :: l) = c :: l.
Proof. intros H. simpl. now rewrite H. Qed.

(** What [drop_while] leaves does not start with a dropped character. *)
Lemma drop_while_head p l :
  match Py.drop_while p l with [] => True | c :: _ => p c = false end.
Proof.
  induction l as [|c l IH]; simpl; [exact I|].
  destruct (p c) eqn:E; [exact IH | exact E].
Qed.

Lemma forallb_rev {A} (p : A -> bool) l : forallb p (rev l) = forallb p l.
Proof.
  induction l as [|x l IH]; simpl; [reflexivity|].
  rewrite forallb_app, IH. simpl. rewrite andb_true_r. apply andb_comm.
Qed.

(** ** [parse_split_size] *)

Lemma skip_keep {A} (p : A -> bool) c l :
  p c = false -> Py.skip p (c :: l) = c :: l.
Proof. intros H. simpl. now rewrite H. Qed.

(** What [skip] leaves does not start with a skipped element. *)
Lemma skip_head {A} (p : A -> bool) l :
  match Py.skip p l with [] => True | c :: _ => p c = false end.
Proof.
  induction l as [|c l IH]; simpl; [exact I|].
  destruct (p c) eqn:E; [exact IH | exact E].
Qed.

(** Trimming leaves a text alone when neither end is trimmed. *)
Lemma trim_id {A} (p : A -> bool) c l d :
  p c = false -> p d = false ->
  Py.trim p (c :: l ++ [d]) = c :: l ++ [d].
Proof.
  intros Hc Hd. unfold Py.trim.
  rewrite skip_keep by assumption.
  change (c :: l ++ [d]) with ((c :: l) ++ [d]).
  rewrite rev_app_distr.
  change (rev [d] ++ rev (c :: l)) with (d :: rev (c :: l)).
  rewrite skip_keep by assumption.
  change (d :: rev (c :: l)) with (rev [d] ++ rev (c :: l)).
  now rewrite <- rev_app_distr, rev_involutive.
Qed.

Lemma trim_last {A} (p : A -> bool) l r c :
  Py.trim p l = r ++ [c] -> p c = false.
Proof.
  unfold Py.trim. intros H.
  apply (f_equal (@rev _)) in H. rewrite rev_involutive, rev_app_distr in H.
  simpl in H.
  pose proof (skip_head p (rev (Py.skip p l))) as Hh.
  now rewrite H in Hh.
Qed.

Lemma is_unit_cases u :
  is_unit u = true ->
  u = 107%N \/ u = 75%N \/ u = 109%N \/ u = 77%N \/ u = 103%N \/ u = 71%N.
Proof.
  unfold is_unit.
  change (map Py.byte (Py.chars "kKmMgG"))
    with [107; 75; 109; 77; 103; 71]%N.
  cbn [existsb]. rewrite !orb_true_iff, !N.eqb_eq.
  intuition; discriminate.
Qed.

Lemma is_unit_facts u :
  is_unit u = true ->
  (u =? 10)%N = false /\ Py.is_uspace u = false.
Proof.
  intros Hu.
  destruct (is_unit_cases u Hu) as [->|[->|[->|[->|[->| ->]]]]];
    split; reflexivity.
Qed.

(** The regular expression matches the texts of the form N{k|m|g}. *)
Lemma size_re_match_form py ds u :
  ds <> [] -> forallb (is_decimal py) ds = true -> is_unit u = true ->
  size_re_match py (ds ++ [u]) = Some (ds, u).
Proof.
  intros Hne Hd Hu. unfold size_re_match.
  rewrite rev_app_distr. cbn [rev app].
  destruct (is_unit_facts u Hu) as [-> _].
  rewrite rev_app_distr. cbn [rev app]. rewrite Hu.
  rewrite forallb_rev, Hd, rev_involutive, length_rev.
  destruct ds; [contradiction | reflexivity].
Qed.

(** And only those, but for one final newline. *)
Lemma size_re_match_inv py t ds u :
  size_re_match py t = Some (ds, u) ->
  ds <> [] /\ forallb (is_decimal py) ds = true /\ is_unit u = true
  /\ (t = ds ++ [u] \/ t = ds ++ [u] ++ [10%N]).
Proof.
  unfold size_re_match. intros H.
  remember (match rev t with
            | c :: r => if (c =? 10)%N then rev r else t
            | [] => t
            end) as t' eqn:Et'.
  assert (t = t' \/ t = t' ++ [10%N]) as Ht.
  { rewrite Et'. clear. destruct (rev t) as [|c r] eqn:E; [now left|].
    destruct (c =? 10)%N eqn:Ec; [|now left].
    right. apply N.eqb_eq in Ec. subst c.
    apply (f_equal (@rev _)) in E. rewrite rev_involutive in E.
    exact E. }
  clear Et'.
  destruct (rev t') as [|u' rds] eqn:E; [discriminate|].
  destruct (is_unit u' && (0 <? length rds)%nat
            && forallb (is_decimal py) rds) eqn:Ec; [|discriminate].
  injection H as <- <-.
  apply andb_true_iff in Ec as [Ec Hd].
  apply andb_true_iff in Ec as [Hu Hlen].
  apply (f_equal (@rev _)) in E. rewrite rev_involutive in E.
  cbn [rev] in E.
  repeat split.
  - intros Hnil. apply (f_equal (@length _)) in Hnil.
    rewrite length_rev in Hnil. cbn in Hnil. rewrite Hnil in Hlen.
    discriminate.
  - now rewrite forallb_rev.
  - exact Hu.
  - destruct Ht as [->| ->]; [left | right]; rewrite E;
      now rewrite <- ?app_assoc.
Qed.

(** The ASCII digit [int()] reads a decimal digit as. *)
Lemma digit_to_ascii py c :
  decimal_digits_ok py -> is_decimal py c = true ->
  exists a,
    (if (c <? 127)%N then Some c
     else if Py.is_uspace c then Some 32%N
     else (fun d => Z.to_N (48 + d)) <$> Py.decimal py c) = Some a
    /\ Py.between 48 57 a = true
    /\ Z.of_N a - 48 = default 0 (Py.decimal py c)
    /\ ((c <? 128)%N = true -> a = c).
Proof.
  intros Hok Hc. unfold is_decimal in Hc.
  destruct (Py.decimal py c) as [d|] eqn:Ed; [clear Hc|discriminate].
  unfold Py.decimal in Ed.
  destruct (c <? 128)%N eqn:E128.
  - destruct (Py.between 48 57 c) eqn:Eb; [|discriminate].
    injection Ed as <-.
    assert ((c <? 127)%N = true) as ->.
    { unfold Py.between in Eb. apply andb_true_iff in Eb as [_ Hhi].
      apply N.leb_le in Hhi. apply N.ltb_lt. lia. }
    exists c. cbn [default]. auto.
  - assert ((c <? 127)%N = false) as ->.
    { apply N.ltb_ge in E128. apply N.ltb_ge. lia. }
    destruct (Hok c d Ed) as [Hd Hsp]. rewrite Hsp.
    exists (Z.to_N (48 + d)). cbn [fmap option_fmap option_map default].
    split; [reflexivity|]. split.
    + unfold Py.between. apply andb_true_iff.
      split; apply N.leb_le; lia.
    + split; [rewrite Z2N.id by lia; cbn; lia | discriminate].
Qed.

Lemma digits_val_snoc l c :
  Py.digits_val (l ++ [c]) = 10 * Py.digits_val l + (Z.of_N c - 48).
Proof. unfold Py.digits_val. now rewrite fold_left_app. Qed.

Lemma decimal_val_snoc py l c :
  decimal_val py (l ++ [c])
  = 10 * decimal_val py l + default 0 (Py.decimal py c).
Proof. unfold decimal_val. now rewrite fold_left_app. Qed.

(** A run of ASCII digits is a numeral. *)
Lemma int_digits_all b l :
  l <> [] \/ b = true ->
  forallb (Py.between 48 57) l = true -> Py.int_digits b l = Some l.
Proof.
  revert b. induction l as [|c l IH]; intros b Hne Hd.
  - destruct Hne as [Hne| ->]; [contradiction | reflexivity].
  - cbn [forallb] in Hd. apply andb_true_iff in Hd as [Hc Hl].
    cbn [Py.int_digits]. rewrite Hc, IH by auto. reflexivity.
Qed.

(** [int()] on a run of decimal digits, ASCII or not. *)
Lemma int_cps_digits py ds :
  decimal_digits_ok py -> ds <> [] ->
  forallb (is_decimal py) ds = true ->
  Py.int_cps py ds
  = if Py.too_long py (length ds) then None
    else Some (decimal_val py ds).
Proof.
  intros Hok Hne Hd. unfold Py.int_cps.
  assert (exists a,
             (if forallb (fun c => (c <? 128)%N) ds then Some ds
              else Py.to_ascii py ds) = Some a
             /\ length a = length ds
             /\ forallb (Py.between 48 57) a = true
             /\ Py.digits_val a = decimal_val py ds) as (a & -> & Hlen & Ha & Hv).
  { assert (exists a,
               Py.to_ascii py ds = Some a /\ length a = length ds
               /\ forallb (Py.between 48 57) a = true
               /\ Py.digits_val a = decimal_val py ds
               /\ (forallb (fun c => (c <? 128)%N) ds = true -> a = ds))
      as (a & Ha & Hlen & Hda & Hv & Hascii).
    { clear Hne. induction ds as [|c ds IH] using rev_ind.
      - exists []. repeat split; reflexivity.
      - rewrite forallb_app in Hd. apply andb_true_iff in Hd as [Hds Hc].
        cbn [forallb] in Hc. rewrite andb_true_r in Hc.
        destruct (IH Hds) as (a & Ha & Hlen & Hda & Hv & Hascii).
        destruct (digit_to_ascii py c Hok Hc) as (x & Hx & Hbx & Hvx & Hax).
        exists (a ++ [x]). repeat split.
        + clear - Ha Hx. revert a Ha.
          induction ds as [|y ds IHds]; intros a Ha.
          * injection Ha as <-. cbn [app Py.to_ascii]. now rewrite Hx.
          * cbn [app Py.to_ascii] in *.
            destruct (if (y <? 127)%N then Some y
                      else if Py.is_uspace y then Some 32%N
                      else (fun d => Z.to_N (48 + d)) <$> Py.decimal py y)
              as [y'|]; [|discriminate].
            destruct (Py.to_ascii py ds) as [a'|]; [|discriminate].
            injection Ha as <-. now rewrite (IHds a' eq_refl).
        + rewrite !length_app, Hlen. reflexivity.
        + rewrite forallb_app, Hda. cbn. now rewrite Hbx.
        + now rewrite digits_val_snoc, decimal_val_snoc, Hv, Hvx.
        + rewrite forallb_app. intros H.
          apply andb_true_iff in H as [H1 H2]. cbn [forallb] in H2.
          rewrite andb_true_r in H2. now rewrite (Hascii H1), (Hax H2). }
    destruct (forallb (fun c => (c <? 128)%N) ds) eqn:E.
    - specialize (Hascii eq_refl). subst a. exists ds. auto.
    - exists a. auto. }
  assert (a <> []) as Hane.
  { intros ->. destruct ds; [contradiction | discriminate]. }
  assert (forall c, Py.between 48 57 c = true ->
                    Py.is_cspace c = false /\ (c =? 45)%N = false
                    /\ (c =? 43)%N = false) as Hdigit.
  { intros c Hc. unfold Py.between in Hc.
    apply andb_true_iff in Hc as [H1 H2]. apply N.leb_le in H1, H2.
    unfold Py.is_cspace, Py.between. repeat split.
    - apply orb_false_iff. split.
      + apply andb_false_iff. right. apply N.leb_gt. lia.
      + apply N.eqb_neq. lia.
    - apply N.eqb_neq. lia.
    - apply N.eqb_neq. lia. }
  assert (Py.trim Py.is_cspace a = a) as ->.
  { destruct a as [|c a]; [contradiction|].
    destruct a as [|d a] using rev_ind.
    - cbn [forallb] in Ha. apply andb_true_iff in Ha as [Hc _].
      destruct (Hdigit c Hc) as (Hsp & _).
      unfold Py.trim. rewrite skip_keep by exact Hsp. cbn [rev app].
      now rewrite skip_keep by exact Hsp.
    - cbn [forallb] in Ha. apply andb_true_iff in Ha as [Hc Hrest].
      rewrite forallb_app in Hrest.
      apply andb_true_iff in Hrest as [_ Hd']. cbn [forallb] in Hd'.
      rewrite andb_true_r in Hd'.
      apply trim_id; [apply (Hdigit c Hc) | apply (Hdigit d Hd')]. }
  destruct a as [|c a]; [contradiction|].
  assert (Py.between 48 57 c = true) as Hc
    by (cbn [forallb] in Ha; now apply andb_true_iff in Ha as [Hc _]).
  destruct (Hdigit c Hc) as (_ & -> & ->).
  rewrite int_digits_all by (auto; left; discriminate).
  rewrite Hlen, Hv. rewrite Z.mul_1_l. reflexivity.
Qed.

Lemma codepoints_nonempty s : Py.codepoints s <> [] -> Py.nonempty s = true.
Proof. destruct s; [intros H; now contradiction H | reflexivity]. Qed.

Lemma trim_nonempty {A} (p : A -> bool) l : Py.trim p l <> [] -> l <> [].
Proof. intros H ->. now apply H. Qed.

Lemma unit_scale u n :
  is_unit u = true ->
  (let unit := lower_cp u in
   if (unit =? 107)%N then Val (Some (n * 1024))
   else if (unit =? 109)%N then Val (Some (n * 1024 * 1024))
   else if (unit =? 103)%N then Val (Some (n * 1024 * 1024 * 1024))
   else Val None)
  = Val (Some (n * 1024 ^ unit_exp u)).
Proof.
  intros Hu.
  destruct (is_unit_cases u Hu) as [->|[->|[->|[->|[->| ->]]]]];
    unfold unit_exp;
    match goal with
    | |- context [lower_cp ?c] =>
        let v := eval vm_compute in (lower_cp c) in
        change (lower_cp c) with v
    end; cbv zeta;
    repeat match goal with
           | |- context [(?a =? ?b)%N] =>
               let v := eval vm_compute in (a =? b)%N in
               change (a =? b)%N with v
           end; cbv iota;
    match goal with
    | |- context [1024 ^ ?e] =>
        let v := eval vm_compute in (1024 ^ e) in
        change (1024 ^ e) with v
    end; f_equal; f_equal; lia.
Qed.

(** A text that is, once stripped, a run of decimal digits and a unit
    letter: the value, or ValueError for a run [int()] refuses. *)
Lemma parse_split_size_form py s ds u :
  decimal_digits_ok py ->
  Py.trim Py.is_uspace (Py.codepoints s) = ds ++ [u] ->
  ds <> [] -> forallb (is_decimal py) ds = true -> is_unit u = true ->
  parse_split_size py s
  = if Py.too_long py (length ds) then Err "ValueError"
    else Val (Some (decimal_val py ds * 1024 ^ unit_exp u)).
Proof.
  intros Hok Hs Hne Hd Hu. unfold parse_split_size.
  rewrite codepoints_nonempty.
  2:{ apply (trim_nonempty Py.is_uspace). rewrite Hs.
      destruct ds; discriminate. }
  cbn [negb]. rewrite Hs, size_re_match_form by assumption.
  rewrite int_cps_digits by assumption.
  destruct (Py.too_long py (length ds)); [reflexivity|].
  now apply unit_scale.
Qed.

Lemma parse_split_size_none py s :
  ~ size_form py (Py.trim Py.is_uspace (Py.codepoints s)) ->
  parse_split_size py s = Val None.
Proof.
  intros Hnf. unfold parse_split_size.
  destruct (negb (Py.nonempty s)); [reflexivity|].
  destruct (size_re_match py _) as [[ds u]|] eqn:E; [|reflexivity].
  exfalso. apply size_re_match_inv in E as (H1 & H2 & H3 & [H4|H4]).
  - apply Hnf. now exists ds, u.
  - rewrite app_assoc in H4. now apply trim_last in H4.
Qed.

Lemma padded_not_form py : ~ size_form py (Py.codepoints " 1k").
Proof.
  intros (ds & u & Hne & Hd & Hu & Heq).
  destruct ds as [|c l]; [contradiction|].
  injection Heq as <- _. discriminate.
Qed.

(** ** [do_python_split] *)

Lemma split_chunks_step C prefix idx rest :
  split_chunks C prefix idx rest
  = match fst (read_chunk C rest) with
    | [] => []
    | _ :: _ => (prefix +:+ fmt03d idx, fst (read_chunk C rest))
                  :: split_chunks C prefix (S idx) (snd (read_chunk C rest))
    end.
Proof.
  simp split_chunks.
  destruct (inspect (read_chunk C rest)) as [[[|b chunk] rest'] e];
    simp split_chunks; rewrite e; reflexivity.
Qed.

Lemma split_chunks_nil C prefix idx : split_chunks C prefix idx [] = [].
Proof.
  rewrite split_chunks_step. unfold read_chunk.
  destruct (C <? 0); simpl; [reflexivity|]. now rewrite take_nil.
Qed.

Lemma split_chunks_cons C prefix idx b rest :
  0 < C ->
  split_chunks C prefix idx (b :: rest)
  = (prefix +:+ fmt03d idx, take (Z.to_nat C) (b :: rest))
      :: split_chunks C prefix (S idx) (drop (Z.to_nat C) (b :: rest)).
Proof.
  intros HC. rewrite split_chunks_step. unfold read_chunk.
  assert ((C <? 0) = false) as -> by lia.
  destruct (Z.to_nat C) as [|c] eqn:Ec; [lia|].
  simpl. reflexivity.
Qed.

Lemma split_chunks_spec C prefix :
  0 < C ->
  forall n idx (data : bytes), length data = n ->
    let chunks := split_chunks C prefix idx data in
    Z.of_nat (length chunks) = ceil_div (Z.of_nat n) C
    /\ map fst chunks
       = map (fun i => prefix +:+ fmt03d i) (seq idx (length chunks))
    /\ concat (map snd chunks) = data
    /\ (forall i name chunk,
          chunks !! i = Some (name, chunk) ->
          Z.of_nat (length chunk)
          = if (S i <? length chunks)%nat then C
            else last_chunk_size (Z.of_nat n) C).
Proof.
  intros HC n. induction n as [n IH] using lt_wf_ind.
  intros idx data Hlen. destruct data as [|b rest].
  - simpl in Hlen. subst n. rewrite split_chunks_nil. simpl.
    repeat split; try reflexivity.
    + unfold ceil_div. symmetry. apply Z.div_small. lia.
    + intros i name chunk H. rewrite lookup_nil in H. discriminate.
  - rewrite split_chunks_cons by assumption. cbv zeta.
    set (c := Z.to_nat C). assert (0 < c)%nat as Hc by lia.
    set (data := b :: rest) in *.
    set (rest' := drop c data).
    assert (length rest' = n - c)%nat as Hlen'
      by (unfold rest'; rewrite length_drop; lia).
    assert (n - c < n)%nat as Hlt by (simpl in Hlen; lia).
    specialize (IH (n - c)%nat Hlt (S idx) rest' Hlen').
    cbv zeta in IH. destruct IH as (IH1 & IH2 & IH3 & IH4).
    set (tl := split_chunks C prefix (S idx) rest') in *.
    assert (Z.of_nat (S (length tl)) = ceil_div (Z.of_nat n) C) as Hcount.
    { rewrite Nat2Z.inj_succ, IH1. unfold ceil_div.
      destruct (le_lt_dec n c) as [Hle|Hgt].
      - replace (n - c)%nat with 0%nat by lia. simpl Z.of_nat.
        rewrite (Z.div_small (0 + C - 1)) by lia.
        change (Z.succ 0) with 1.
        apply (Z.div_unique _ _ 1 (Z.of_nat n - 1)); simpl in Hlen; lia.
      - rewrite Nat2Z.inj_sub by lia.
        replace (Z.of_nat n + C - 1) with (Z.of_nat n - Z.of_nat c + C - 1 + 1 * C) by lia.
        rewrite Z.div_add by lia. lia. }
    simpl length. repeat split.
    + exact Hcount.
    + simpl. f_equal. exact IH2.
    + simpl. rewrite IH3. apply take_drop.
    + intros [|i] name chunk Hi.
      * simpl in Hi. injection Hi as <- <-.
        rewrite length_take, Hlen.
        destruct (S 0 <? S (length tl))%nat eqn:E.
        -- apply Nat.ltb_lt in E.
           destruct (le_lt_dec n c) as [Hle|Hgt]; [|lia].
           exfalso. replace (n - c)%nat with 0%nat in IH1 by lia.
           unfold ceil_div in IH1. simpl Z.of_nat in IH1.
           rewrite (Z.div_small (0 + C - 1)) in IH1 by lia. lia.
        -- apply Nat.ltb_ge in E. assert (length tl = 0)%nat as Htl by lia.
           rewrite Htl in IH1. unfold ceil_div in IH1. simpl Z.of_nat in IH1.
           assert (n <= c)%nat as Hle.
           { destruct (le_lt_dec n c) as [|Hgt]; [assumption|exfalso].
             symmetry in IH1. apply Z.div_small_iff in IH1; lia. }
           unfold last_chunk_size.
           destruct (Nat.eq_dec n c) as [->|Hne].
           ++ replace (Z.of_nat c) with C by lia.
              rewrite Z.mod_same by lia. simpl. lia.
           ++ rewrite Z.mod_small by lia.
              assert ((Z.of_nat n =? 0) = false) as -> by (simpl in Hlen; lia).
              lia.
      * simpl in Hi. specialize (IH4 i name chunk Hi). rewrite IH4.
        change (S (S i) <? S (length tl))%nat with (S i <? length tl)%nat.
        destruct (S i <? length tl)%nat eqn:E; [reflexivity|].
        unfold last_chunk_size.
        assert (c < n)%nat as Hgt.
        { destruct (le_lt_dec n c) as [Hle|]; [exfalso|assumption].
          replace (n - c)%nat with 0%nat in IH1 by lia.
          unfold ceil_div in IH1. simpl Z.of_nat in IH1.
          rewrite (Z.div_small (0 + C - 1)) in IH1 by lia.
          apply lookup_lt_Some in Hi. lia. }
        rewrite Nat2Z.inj_sub by lia.
        replace (Z.of_nat n - Z.of_nat c) with (Z.of_nat n + (-1) * C) by lia.
        now rewrite Z.mod_add by lia.
Qed.

(** ** Running programs *)

Lemma bind_ok {A B} (m : M A) (k : A -> M B) s a s' :
  m s = Ok a s' -> bind m k s = k a s'.
Proof. unfold bind. now intros ->. Qed.

Lemma bind_raise {A B} (m : M A) (k : A -> M B) s e s' :
  m s = Raise e s' -> bind m k s = Raise e s'.
Proof. unfold bind. now intros ->. Qed.

Lemma read_check_ok os n st :
  read_error os (trace st) n = None -> read_check os n st = Ok tt st.
Proof. intros H. unfold read_check, bind, get_trace. now rewrite H. Qed.

Lemma write_chunks_ok os C chunks :
  (forall t p, os_write_ok os t p = None) ->
  (forall t, read_error os t C = None) ->
  forall st,
    write_chunks os C chunks st
    = Ok (map fst chunks)
         (mkSt (globals st) (trace st ++ map ev_write chunks)).
Proof.
  intros Hw Hr. induction chunks as [|[out chunk] rest IH]; intros st.
  - simpl. rewrite (bind_ok _ _ _ _ _ (read_check_ok os C st (Hr _))).
    unfold ret. rewrite app_nil_r. now destruct st.
  - simpl. rewrite (bind_ok _ _ _ _ _ (read_check_ok os C st (Hr _))).
    unfold bind at 1, get_trace. unfold bind at 1, emit.
    rewrite Hw. unfold bind. rewrite IH. simpl. unfold ret.
    now rewrite <- app_assoc.
Qed.

Lemma read_error_none os t C :
  C < 2 ^ 63 - 1 -> os_read_fail os t C = None -> read_error os t C = None.
Proof.
  intros HC Hf. unfold read_error.
  destruct (C <? 0); [reflexivity|].
  destruct (2 ^ 63 - 1 <=? C) eqn:E; [|exact Hf].
  apply Z.leb_le in E. lia.
Qed.

Lemma fmt03d_three_digits i : (i < 1000)%nat -> fmt03d i = three_digits i.
Proof.
  intros Hi.
  assert (forallb (fun i => String.eqb (fmt03d i) (three_digits i))
                  (seq 0 1000) = true) as Hall by (vm_compute; reflexivity).
  rewrite forallb_forall in Hall.
  apply String.eqb_eq, Hall, in_seq. lia.
Qed.


(** From 2^63 - 1 on, the first [read] raises OverflowError: the split
    ends there, with nothing written. *)
Lemma do_python_split_overflow os path prefix C data st :
  2 ^ 63 - 1 <= C ->
  os_read_bytes os (trace st) path = Some data ->
  do_python_split os path prefix C st
  = Raise (Exception "OverflowError") st.
Proof.
  intros HC Hread.
  unfold do_python_split, bind at 1, get_trace. rewrite Hread.
  assert (read_check os C st = Raise (Exception "OverflowError") st) as Hr.
  { unfold read_check, bind, get_trace, read_error.
    destruct (C <? 0) eqn:E0; [apply Z.ltb_lt in E0; lia|].
    destruct (2 ^ 63 - 1 <=? C) eqn:E; [reflexivity|].
    apply Z.leb_gt in E. lia. }
  destruct (split_chunks C prefix 0 data) as [|[out chunk] rest];
    cbn [write_chunks]; now rewrite (bind_raise _ _ _ _ _ Hr).
Qed.


(** ** Events and invariants *)

Section Triple.
Context (I : Globals -> Prop) (P : Event -> Prop).

Lemma triple_ret {A} (a : A) : triple I P (ret a).
Proof. intros st HI. exists []. simpl. rewrite app_nil_r. auto. Qed.

Lemma triple_raise {A} e : triple I P (@raise A e).
Proof. intros st HI. exists []. simpl. rewrite app_nil_r. auto. Qed.

Lemma triple_bind {A B} (m : M A) (k : A -> M B) :
  triple I P m -> (forall a, triple I P (k a)) -> triple I P (bind m k).
Proof.
  intros Hm Hk st HI. destruct (Hm st HI) as (evs & Ht & HP & HI').
  unfold bind. destruct (m st) as [a s'|e s']; simpl in *.
  - destruct (Hk a s' HI') as (evs' & Ht' & HP' & HI'').
    exists (evs ++ evs'). rewrite Ht', Ht, app_assoc.
    auto using Forall_app_2.
  - exists evs. auto.
Qed.

Lemma triple_get_globals {A} (k : Globals -> M A) :
  (forall g, I g -> triple I P (k g)) -> triple I P (bind get_globals k).
Proof. intros Hk st HI. unfold bind, get_globals. now apply Hk. Qed.

Lemma triple_get_trace {A} (k : Trace -> M A) :
  (forall t, triple I P (k t)) -> triple I P (bind get_trace k).
Proof. intros Hk st HI. unfold bind, get_trace. now apply Hk. Qed.

Lemma triple_emit e : P e -> triple I P (emit e).
Proof. intros He st HI. exists [e]. simpl. auto. Qed.

Lemma triple_set_global k v :
  (forall g, I g -> I (<[k := v]> g)) -> triple I P (set_global k v).
Proof. intros H st HI. exists []. simpl. rewrite app_nil_r. auto. Qed.

Lemma triple_catch {A} (m : M A) h :
  triple I P m -> (forall e, triple I P (h e)) -> triple I P (catch m h).
Proof.
  intros Hm Hh st HI. destruct (Hm st HI) as (evs & Ht & HP & HI').
  unfold catch. destruct (m st) as [a s'|[msg|msg] s']; simpl in *;
    try (exists evs; now auto).
  destruct (Hh msg s' HI') as (evs' & Ht' & HP' & HI'').
  exists (evs ++ evs'). rewrite Ht', Ht, app_assoc.
  auto using Forall_app_2.
Qed.

Lemma triple_for_each body l :
  (forall x, triple I P (body x)) -> triple I P (for_each body l).
Proof.
  intros Hb. induction l as [|x l IH]; simpl.
  - apply triple_ret.
  - apply triple_bind; auto.
Qed.
End Triple.

Lemma triple_weaken {A} (I : Globals -> Prop) (P Q : Event -> Prop) (m : M A) :
  (forall e, P e -> Q e) -> triple I P m -> triple I Q m.
Proof.
  intros HPQ Hm st HI. destruct (Hm st HI) as (evs & Ht & HP & HI').
  exists evs. repeat split; auto. eapply Forall_impl; eauto.
Qed.

(** One step of a proof of [triple]: follow the shape of the program. *)
Ltac triple_step :=
  lazymatch goal with
  | |- triple _ _ (bind get_globals _) =>
      apply triple_get_globals; intros ? ?
  | |- triple _ _ (bind get_trace _) => apply triple_get_trace; intros ?
  | |- triple _ _ (bind _ _) => apply triple_bind; [|intros ?]
  | |- triple _ _ (ret _) => apply triple_ret
  | |- triple _ _ (raise _) => apply triple_raise
  | |- triple _ _ (sys_exit _) => apply triple_raise
  | |- triple _ _ (catch _ _) => apply triple_catch; [|intros ?]
  | |- triple _ _ (for_each _ _) => apply triple_for_each; intros ?
  | |- triple _ _ (if ?b then _ else _) => destruct b eqn:?
  | |- triple _ _ (match ?x with _ => _ end) => destruct x eqn:?
  end.

Section Basics.
Context (os : OS) (I : Globals -> Prop) (P : Event -> Prop).
Hypothesis P_log : forall e, is_log e -> P e.

Lemma triple_log msg : triple I P (log msg).
Proof.
  unfold log. repeat triple_step; apply triple_emit, P_log; exact Logic.I.
Qed.

Lemma triple_print text : triple I P (print text).
Proof. apply triple_emit, P_log. exact Logic.I. Qed.

Lemma triple_command_exists cmd : triple I P (command_exists os cmd).
Proof. unfold command_exists. repeat triple_step. Qed.
End Basics.

(** ** Upload *)

Lemma log_run msg st :
  log msg st
  = Ok tt (mkSt (globals st) (trace st ++ log_events (globals st) msg)).
Proof.
  unfold log, log_events, bind, get_globals, emit, ret.
  destruct (g_truthy (globals st) "LOG_FILE"); simpl;
    now rewrite <- ?app_assoc.
Qed.

Lemma log_events_is_log g msg : Forall is_log (log_events g msg).
Proof.
  unfold log_events. destruct (g_truthy g "LOG_FILE"); repeat constructor.
Qed.

Lemma is_log_aside e : is_log e -> is_aside e.
Proof. destruct e; simpl; try contradiction; intros _; split; auto. Qed.

Lemma sleeps_app a b : sleeps (a ++ b) = sleeps a ++ sleeps b.
Proof. apply omap_app. Qed.

Lemma transfers_app a b : transfers (a ++ b) = transfers a ++ transfers b.
Proof. apply List.filter_app. Qed.

Lemma aside_quiet evs :
  Forall is_aside evs -> sleeps evs = [] /\ transfers evs = [].
Proof.
  induction 1 as [|e evs [He1 He2] _ [IH1 IH2]]; [split; reflexivity|].
  unfold sleeps, transfers in *. simpl. rewrite He1, IH2. split; [|reflexivity].
  destruct e; simpl in *; try contradiction; exact IH1.
Qed.

Lemma logs_aside evs : Forall is_log evs -> Forall is_aside evs.
Proof. intros H. eapply Forall_impl; [exact H | apply is_log_aside]. Qed.

(** [run_or_echo]: in dry-run it only logs and returns 0; otherwise it
    runs the command once and may log the error. *)
Lemma run_or_echo_run os cmd st :
  exists rc evs,
    run_or_echo os cmd st = Ok rc (mkSt (globals st) (trace st ++ evs))
    /\ if g_truthy (globals st) "DRY_RUN"
       then rc = 0 /\ Forall is_log evs
       else exists r logs, evs = EvShell cmd r :: logs
                           /\ Forall is_log logs
                           /\ (r = Returned rc \/ exists e, r = Failed e /\ rc = 1).
Proof.
  unfold run_or_echo, bind at 1, get_globals.
  destruct (g_truthy (globals st) "DRY_RUN") eqn:E.
  - exists 0, (log_events (globals st) ("DRY-RUN: " +:+ cmd)).
    unfold bind. rewrite log_run. simpl.
    auto using log_events_is_log.
  - unfold bind at 1, shell, bind at 1, get_trace, bind at 1, emit. simpl.
    destruct (os_shell os (trace st) cmd) as [rc|e] eqn:Er.
    + exists rc, [EvShell cmd (Returned rc)]. split; [reflexivity|].
      exists (Returned rc), []. auto.
    + exists 1, (EvShell cmd (Failed e)
                 :: log_events (globals st) ("❌ Exec error: " +:+ e)).
      unfold bind. rewrite log_run. simpl. rewrite <- app_assoc. simpl.
      split; [reflexivity|].
      exists (Failed e), (log_events (globals st) ("❌ Exec error: " +:+ e)).
      split; [reflexivity|]. split; [apply log_events_is_log|].
      right. eauto.
Qed.

Lemma prefix_app p s : String.prefix p (p +:+ s) = true.
Proof.
  induction p as [|c p IH]; simpl; [now destruct s|].
  destruct (ascii_dec c c); [exact IH | contradiction].
Qed.

Lemma upload_cmd_is_transfer tool file target cmd :
  upload_cmd tool file target = Some cmd -> is_transfer_cmd cmd = true.
Proof.
  unfold upload_cmd, is_transfer_cmd. intros H.
  repeat match type of H with
         | (if ?b then _ else _) = _ => destruct b
         end; try discriminate; injection H as <-;
    rewrite ?prefix_app, ?orb_true_r; reflexivity.
Qed.

Lemma failed_transfers_app a b :
  failed_transfers (a ++ b) = failed_transfers a ++ failed_transfers b.
Proof. apply List.filter_app. Qed.

Lemma aside_not_failed evs :
  Forall is_aside evs -> failed_transfers evs = [].
Proof.
  induction 1 as [|e evs [He1 He2] _ IH]; [reflexivity|].
  unfold failed_transfers in *. simpl. rewrite IH.
  destruct e as [| |cmd [rc|err]| | | | | | | |]; simpl in *;
    try reflexivity; now rewrite He1.
Qed.

(** One transfer: nothing for an unknown tool; in dry-run only logging and
    status 0; otherwise the command is run once, and the transfer counts
    as failed exactly when the status is not 0. *)
Lemma transfer_run os tool file target st :
  exists r evs,
    transfer os tool file target st
    = Ok r (mkSt (globals st) (trace st ++ evs))
    /\ match upload_cmd tool file target with
       | None => r = None /\ evs = []
       | Some cmd =>
           exists rc, r = Some rc
             /\ if g_truthy (globals st) "DRY_RUN"
                then rc = 0 /\ Forall is_log evs
                else exists res rest,
                    evs = EvShell cmd res :: rest
                    /\ Forall is_aside rest
                    /\ is_transfer (EvShell cmd res) = true
                    /\ is_failed_transfer (EvShell cmd res) = negb (rc =? 0)
       end.
Proof.
  unfold transfer.
  destruct (upload_cmd tool file target) as [cmd|] eqn:Ecmd.
  2:{ exists None, []. unfold ret. rewrite app_nil_r. now destruct st. }
  pose proof (upload_cmd_is_transfer _ _ _ _ Ecmd) as Htr.
  destruct (run_or_echo_run os cmd st) as (rc & evs & Hrun & Hmode).
  rewrite (bind_ok _ _ _ _ _ Hrun).
  unfold bind at 1, get_globals. cbn [globals].
  destruct (g_truthy (globals st) "DRY_RUN") eqn:Edry.
  - destruct Hmode as [-> Hlogs].
    rewrite andb_false_r. unfold bind, ret. cbn.
    exists (Some 0), evs. split; [reflexivity|]. exists 0. auto.
  - destruct Hmode as (res & logs & -> & Hlogs & Hres).
    assert (is_failed_transfer (EvShell cmd res) = negb (rc =? 0)) as Hfail.
    { simpl. destruct Hres as [->|(e & -> & ->)]; simpl; now rewrite Htr. }
    rewrite andb_true_r.
    destruct (String.eqb tool "rclone" && (rc =? 0)) eqn:Echeck.
    + unfold bind at 1. unfold bind at 1, spawn, bind at 1, get_trace.
      unfold bind at 1, emit. cbn [globals trace ret].
      set (argv := ["rclone"; "check"; file; target; "--size-only"]).
      set (t1 := trace st ++ EvShell cmd res :: logs).
      destruct (os_spawn os t1 argv None) as [rc'|e] eqn:Esp.
      * rewrite log_run. cbn. unfold ret.
        exists (Some rc). eexists. split.
        { unfold t1. rewrite <- !app_assoc. reflexivity. }
        exists rc. split; [reflexivity|]. do 2 eexists.
        split; [reflexivity|]. split; [|auto].
        apply Forall_app_2; [now apply logs_aside|].
        constructor; [split; [reflexivity|exact Logic.I]|].
        apply logs_aside, log_events_is_log.
      * cbn. unfold ret. exists (Some rc). eexists. split.
        { unfold t1. rewrite <- !app_assoc. reflexivity. }
        exists rc. split; [reflexivity|]. do 2 eexists.
        split; [reflexivity|]. split; [|auto].
        apply Forall_app_2; [now apply logs_aside|].
        constructor; [split; [reflexivity|exact Logic.I]|constructor].
    + unfold bind, ret. cbn. exists (Some rc). eexists. split; [reflexivity|].
      exists rc. split; [reflexivity|]. do 2 eexists.
      split; [reflexivity|]. split; [now apply logs_aside|auto].
Qed.

Lemma upload_loop_body os file target tool tries attempt delay :
  upload_loop os file target tool tries attempt delay
  = if decide (attempt ≤ tries) then
      log ("   • Attempt " +:+ pretty attempt +:+ "/" +:+ pretty tries
           +:+ " ...");;
      r <- transfer os tool file target;;
      match r with
      | None =>
          log ("❌ UPLOAD_TOOL tidak didukung: " +:+ tool);;
          ret (Unsupported attempt)
      | Some rc =>
          if rc =? 0 then
            log ("✅ Upload sukses: " +:+ file +:+ " → " +:+ target);;
            g <- get_globals;;
            (if g_truthy g "AFTER_UPLOAD_RM" then
               run_or_echo os ("rm -f -- " +:+ shlex_quote file);;
               log ("🧹 Hapus lokal: " +:+ file)
             else ret tt);;
            ret (Uploaded attempt)
          else
            log ("❌ Upload gagal (" +:+ tool +:+ ").");;
            emit (EvSleep delay);;
            upload_loop os file target tool tries (attempt + 1) (delay * 2)
      end
    else
      log ("❌ Upload gagal setelah " +:+ pretty tries +:+ " percobaan.");;
      ret (GaveUp attempt).
Proof.
  etransitivity; [apply upload_loop_equation_1|].
  unfold upload_loop_unfold_clause_1.
  destruct (decide (attempt ≤ tries)); reflexivity.
Qed.

Lemma backoff_cons d k : backoff d (S k) = d :: backoff (d * 2) k.
Proof.
  unfold backoff. simpl. f_equal; [lia|].
  rewrite <- seq_shift, map_map. apply map_ext. intros i.
  rewrite Nat2Z.inj_succ, Z.pow_succ_r by lia. lia.
Qed.

(** The clean-up after a successful transfer is no transfer. *)
Lemma cleanup_aside {A} os file (a : A) st :
  exists evs,
    (g <- get_globals;;
     (if g_truthy g "AFTER_UPLOAD_RM" then
        run_or_echo os ("rm -f -- " +:+ shlex_quote file);;
        log ("🧹 Hapus lokal: " +:+ file)
      else ret tt);;
     ret a) st
    = Ok a (mkSt (globals st) (trace st ++ evs))
    /\ Forall is_aside evs
    /\ (g_truthy (globals st) "DRY_RUN" = true -> Forall is_log evs).
Proof.
  unfold bind at 1, get_globals.
  destruct (g_truthy (globals st) "AFTER_UPLOAD_RM").
  - destruct (run_or_echo_run os ("rm -f -- " +:+ shlex_quote file) st)
      as (rc & evs & Hrun & Hmode).
    unfold bind at 1. rewrite (bind_ok _ _ _ _ _ Hrun), log_run. cbn.
    eexists. split; [now rewrite <- app_assoc|].
    destruct (g_truthy (globals st) "DRY_RUN").
    + destruct Hmode as [_ Hl].
      assert (Forall is_log (evs ++ log_events (globals st)
                                      ("🧹 Hapus lokal: " +:+ file)))
        by (apply Forall_app_2; auto using log_events_is_log).
      split; [now apply logs_aside | auto].
    + destruct Hmode as (r & logs & -> & Hl & _). split; [|discriminate].
      apply Forall_app_2; [|apply logs_aside, log_events_is_log].
      constructor; [|now apply logs_aside].
      split; [reflexivity | exact Logic.I].
  - exists []. unfold bind, ret. rewrite app_nil_r.
    destruct st; repeat split; auto.
Qed.

Lemma shell_tally cmd res rest :
  Forall is_aside rest -> is_transfer (EvShell cmd res) = true ->
  sleeps (EvShell cmd res :: rest) = []
  /\ length (transfers (EvShell cmd res :: rest)) = 1%nat
  /\ length (failed_transfers (EvShell cmd res :: rest))
     = if is_failed_transfer (EvShell cmd res) then 1%nat else 0%nat.
Proof.
  intros Hrest Htr. destruct (aside_quiet _ Hrest) as [Hs Ht].
  pose proof (aside_not_failed _ Hrest) as Hf.
  unfold sleeps, transfers, failed_transfers in *.
  cbn [omap list_omap List.filter]. rewrite Htr, Ht, Hf.
  repeat split; try assumption.
  now destruct (is_failed_transfer (EvShell cmd res)).
Qed.

(** The retry loop, started at [attempt] with [n] turns left.  It always
    returns, leaving the globals alone.  With k the number of turns that
    failed: the sleeps are the k delays [delay, 2*delay, ...], one after
    each failed transfer; outside dry-run every turn ran one transfer; in
    dry-run the loop only logs. *)
Lemma upload_loop_spec os file target tool tries :
  forall n attempt delay st,
    Z.to_nat (tries + 1 - attempt) = n ->
    exists x evs,
      upload_loop os file target tool tries attempt delay st
      = Ok x (mkSt (globals st) (trace st ++ evs))
      /\ (g_truthy (globals st) "DRY_RUN" = true -> Forall is_log evs)
      /\ (let k := Z.to_nat (exit_attempt x - attempt) in
          sleeps evs = backoff delay k
          /\ (g_truthy (globals st) "DRY_RUN" = false ->
              length (failed_transfers evs) = k
              /\ length (transfers evs)
                 = match x with
                   | Uploaded _ => S k
                   | Unsupported _ => 0%nat
                   | _ => k
                   end))
      /\ match x with
         | NoTarget => False
         | Unsupported a =>
             a = attempt /\ attempt <= tries
             /\ upload_cmd tool file target = None
         | Uploaded a => attempt <= a <= tries
         | GaveUp a => a = Z.max attempt (tries + 1)
         end.
Proof.
  induction n as [|n IH]; intros attempt delay st Hn;
    rewrite upload_loop_body;
    destruct (decide (attempt ≤ tries)) as [Hle|Hgt]; try lia.
  - (* the loop condition fails at once *)
    rewrite (bind_ok _ _ _ _ _ (log_run _ _)). unfold ret.
    do 2 eexists. split; [reflexivity|]. cbn [exit_attempt].
    replace (attempt - attempt) with 0 by lia.
    destruct (aside_quiet _ (logs_aside _ (log_events_is_log (globals st)
      ("❌ Upload gagal setelah " +:+ pretty tries +:+ " percobaan."))))
      as [Hs Ht].
    pose proof (aside_not_failed _ (logs_aside _ (log_events_is_log
      (globals st)
      ("❌ Upload gagal setelah " +:+ pretty tries +:+ " percobaan."))))
      as Hf.
    rewrite Hs, Ht, Hf.
    repeat split; auto using log_events_is_log. lia.
  - (* one turn *)
    rewrite (bind_ok _ _ _ _ _ (log_run _ _)).
    set (l1 := log_events (globals st) _).
    set (st1 := mkSt (globals st) (trace st ++ l1)).
    destruct (transfer_run os tool file target st1)
      as (r & evs & Htrans & Hcase).
    rewrite (bind_ok _ _ _ _ _ Htrans). cbn [globals trace st1] in *.
    assert (Forall is_log l1) as Hl1 by apply log_events_is_log.
    destruct (upload_cmd tool file target) as [cmd|] eqn:Ecmd.
    2:{ (* unknown tool *)
      destruct Hcase as [-> ->].
      rewrite (bind_ok _ _ _ _ _ (log_run _ _)). unfold ret.
      cbn [globals trace]. set (l2 := log_events (globals st) _).
      assert (Forall is_log l2) as Hl2 by apply log_events_is_log.
      exists (Unsupported attempt), (l1 ++ l2).
      split; [now rewrite app_nil_r, <- app_assoc|].
      assert (Forall is_log (l1 ++ l2)) as Hl by now apply Forall_app_2.
      cbn [exit_attempt]. replace (attempt - attempt) with 0 by lia.
      destruct (aside_quiet _ (logs_aside _ Hl)) as [Hs Ht].
      rewrite Hs, Ht, (aside_not_failed _ (logs_aside _ Hl)).
      repeat split; auto. }
    destruct Hcase as (rc & -> & Hmode).
    destruct (rc =? 0) eqn:Erc.
    + (* the transfer succeeded *)
      rewrite (bind_ok _ _ _ _ _ (log_run _ _)). cbn [globals trace].
      set (l2 := log_events (globals st) _).
      assert (Forall is_log l2) as Hl2 by apply log_events_is_log.
      destruct (cleanup_aside os file (Uploaded attempt)
                  (mkSt (globals st) (((trace st ++ l1) ++ evs) ++ l2)))
        as (l3 & Hclean & Hl3 & Hl3dry).
      rewrite Hclean. cbn [globals trace] in *.
      exists (Uploaded attempt), (l1 ++ evs ++ l2 ++ l3).
      split; [now rewrite <- !app_assoc|].
      cbn [exit_attempt]. replace (attempt - attempt) with 0 by lia.
      destruct (aside_quiet _ (logs_aside _ Hl1)) as [Hs1 Ht1].
      destruct (aside_quiet _ (logs_aside _ Hl2)) as [Hs2 Ht2].
      destruct (aside_quiet _ Hl3) as [Hs3 Ht3].
      pose proof (aside_not_failed _ (logs_aside _ Hl1)) as Hf1.
      pose proof (aside_not_failed _ (logs_aside _ Hl2)) as Hf2.
      pose proof (aside_not_failed _ Hl3) as Hf3.
      rewrite !sleeps_app, !transfers_app, !failed_transfers_app,
        Hs1, Hs2, Hs3, Ht1, Ht2, Ht3, Hf1, Hf2, Hf3, !app_nil_r.
      destruct (g_truthy (globals st) "DRY_RUN") eqn:Edry.
      * destruct Hmode as [_ Hlogs].
        destruct (aside_quiet _ (logs_aside _ Hlogs)) as [Hs Ht].
        rewrite Hs. simpl.
        repeat split; try discriminate; try lia.
        intros _. apply Forall_app_2; [exact Hl1|].
        apply Forall_app_2; [exact Hlogs|].
        apply Forall_app_2; [exact Hl2 | auto].
      * destruct Hmode as (res & rest & -> & Hrest & Htr & Hfail).
        destruct (shell_tally cmd res rest Hrest Htr) as (Hs & Ht & Hf).
        cbn [app]. rewrite Hfail in Hf. cbn [negb] in Hf.
        rewrite Hs, Hf, Ht. simpl.
        repeat split; try discriminate; try lia; reflexivity.
    + (* the transfer failed: sleep and go round again *)
      destruct (g_truthy (globals st) "DRY_RUN") eqn:Edry.
      { destruct Hmode as [-> _]. discriminate. }
      destruct Hmode as (res & rest & -> & Hrest & Htr & Hfail).
      rewrite (bind_ok _ _ _ _ _ (log_run _ _)). cbn [globals trace].
      set (l2 := log_events (globals st) _).
      assert (Forall is_log l2) as Hl2 by apply log_events_is_log.
      unfold bind at 1, emit. cbn [globals trace].
      set (st2 := mkSt (globals st) _).
      destruct (IH (attempt + 1) (delay * 2) st2 ltac:(lia))
        as (x & evs' & Hloop & _ & Hk & Hx).
      rewrite Hloop. cbn [globals trace st2] in *.
      rewrite Edry in Hk. destruct Hk as [Hs' Hcount].
      destruct (Hcount eq_refl) as [Hf' Ht']. clear Hcount.
      exists x, (l1 ++ (EvShell cmd res :: rest) ++ l2
                 ++ [EvSleep delay] ++ evs').
      split; [now rewrite <- !app_assoc|].
      split; [discriminate|].
      assert (attempt + 1 <= exit_attempt x) as Hexit.
      { destruct x; cbn [exit_attempt]; try contradiction; lia. }
      replace (Z.to_nat (exit_attempt x - attempt))
        with (S (Z.to_nat (exit_attempt x - (attempt + 1)))) by lia.
      destruct (aside_quiet _ (logs_aside _ Hl1)) as [Hs1 Ht1].
      destruct (aside_quiet _ (logs_aside _ Hl2)) as [Hs2 Ht2].
      pose proof (aside_not_failed _ (logs_aside _ Hl1)) as Hf1.
      pose proof (aside_not_failed _ (logs_aside _ Hl2)) as Hf2.
      destruct (shell_tally cmd res rest Hrest Htr) as (Hs & Ht & Hf).
      rewrite Hfail in Hf. cbn [negb] in Hf.
      rewrite !sleeps_app, !transfers_app, !failed_transfers_app,
        Hs1, Hs2, Hs, Ht1, Ht2, Hf1, Hf2, Hs', backoff_cons.
      change (sleeps [EvSleep delay]) with [delay].
      change (transfers [EvSleep delay]) with (@nil Event).
      change (failed_transfers [EvSleep delay]) with (@nil Event).
      cbn [app]. rewrite !length_app, Ht, Hf, Ht', Hf'. simpl.
      split; [split; [reflexivity|]|].
      * intros _. split; [reflexivity|].
        destruct x; try contradiction; try reflexivity.
        destruct Hx as (_ & _ & Hnone). discriminate.
      * destruct x; try contradiction; try lia.
        destruct Hx as (_ & _ & Hnone). discriminate.
Qed.

Lemma auto_tool_run os target st :
  exists tool, auto_tool os target st = Ok tool st.
Proof.
  unfold auto_tool, command_exists, bind, get_trace, ret.
  repeat match goal with
         | |- context [if ?b then _ else _] => destruct b
         end; eauto.
Qed.

Lemma backoff_length d k : length (backoff d k) = k.
Proof. unfold backoff. now rewrite length_map, length_seq. Qed.

Lemma backoff_lookup d k i :
  (i < k)%nat -> backoff d k !! i = Some (d * 2 ^ Z.of_nat i).
Proof.
  intros Hi. unfold backoff. rewrite list_lookup_fmap, lookup_seq_lt by lia.
  reflexivity.
Qed.

(** Each delay of a backoff schedule is twice the one before it. *)
Lemma backoff_doubles d k i a b :
  backoff d k !! i = Some a -> backoff d k !! S i = Some b -> b = 2 * a.
Proof.
  intros Ha Hb.
  assert (S i < k)%nat as Hi
    by (apply lookup_lt_Some in Hb; now rewrite backoff_length in Hb).
  rewrite backoff_lookup in Ha, Hb by lia.
  injection Ha as <-. injection Hb as <-.
  rewrite Nat2Z.inj_succ, Z.pow_succ_r by lia. lia.
Qed.

Lemma upload_one_run os file st tries :
  upload_retry os (globals st) = Some tries ->
  exists x evs,
    upload_one os file st = Ok x (mkSt (globals st) (trace st ++ evs))
    /\ (g_truthy (globals st) "DRY_RUN" = true -> Forall is_log evs)
    /\ (let k := Z.to_nat (exit_attempt x - 1) in
        sleeps evs = backoff 2 k
        /\ (g_truthy (globals st) "DRY_RUN" = false ->
            length (failed_transfers evs) = k
            /\ length (transfers evs)
               = match x with Uploaded _ => S k
                         | Unsupported _ => 0%nat | _ => k end))
    /\ match x with
       | NoTarget =>
           Py.nonempty (g_str (globals st) "UPLOAD_TARGET") = false
           /\ evs = []
       | Unsupported a => a = 1 /\ 1 <= tries
       | Uploaded a => 1 <= a <= tries
       | GaveUp a => a = Z.max 1 (tries + 1)
       end.
Proof.
  intros Hretry. unfold upload_one, bind at 1, get_globals. rewrite Hretry.
  destruct (Py.nonempty (g_str (globals st) "UPLOAD_TARGET")) eqn:Etarget;
    cbn [negb].
  2:{ exists NoTarget, []. unfold ret. rewrite app_nil_r.
      destruct st; cbn. repeat split; auto; discriminate. }
  set (tool0 := if g_truthy (globals st) "UPLOAD_TOOL"
                then g_str (globals st) "UPLOAD_TOOL" else "auto").
  assert (exists tool,
             (if String.eqb tool0 "auto"
              then auto_tool os (g_str (globals st) "UPLOAD_TARGET")
              else ret tool0) st = Ok tool st) as [tool Htool].
  { destruct (String.eqb tool0 "auto"); [apply auto_tool_run|].
    now exists tool0. }
  rewrite (bind_ok _ _ _ _ _ Htool), (bind_ok _ _ _ _ _ (log_run _ _)).
  set (l0 := log_events (globals st) _).
  assert (Forall is_log l0) as Hl0 by apply log_events_is_log.
  destruct (upload_loop_spec os file (g_str (globals st) "UPLOAD_TARGET")
              tool tries _ 1 2 (mkSt (globals st) (trace st ++ l0)) eq_refl)
    as (x & evs & Hloop & Hdry & Hk & Hx).
  rewrite Hloop. cbn [globals trace] in *.
  exists x, (l0 ++ evs). split; [now rewrite <- app_assoc|].
  destruct (aside_quiet _ (logs_aside _ Hl0)) as [Hs0 Ht0].
  rewrite sleeps_app, transfers_app, failed_transfers_app, Hs0, Ht0,
    (aside_not_failed _ (logs_aside _ Hl0)).
  cbn [app]. split; [|split; [exact Hk|]].
  - intros Hd. apply Forall_app_2; auto.
  - destruct x; try contradiction; intuition.
Qed.

(** C4.  For every file and every retry count [tries] (the value of
    [int(UPLOAD_RETRY or 3)]), [do_upload_one] returns after running at
    most [tries] transfers.  It sleeps once after each failed transfer;
    the first delay is 2 and every later one is twice the one before it,
    so the delays never decrease. *)
Theorem do_upload_one_backoff os file st tries :
  upload_retry os (globals st) = Some tries ->
  exists rc evs,
    do_upload_one os file st = Ok rc (mkSt (globals st) (trace st ++ evs))
    /\ (length (transfers evs) <= Z.to_nat tries)%nat
    /\ length (sleeps evs) = length (failed_transfers evs)
    /\ sleeps evs = backoff 2 (length (sleeps evs))
    /\ (forall a, sleeps evs !! 0%nat = Some a -> a = 2)
    /\ (forall i a b,
          sleeps evs !! i = Some a -> sleeps evs !! S i = Some b ->
          b = 2 * a /\ a <= b).
Proof.
  intros Hretry.
  destruct (upload_one_run os file st tries Hretry)
    as (x & evs & Hrun & Hdry & [Hs Hlive] & Hx).
  exists (rc_of x), evs.
  split; [unfold do_upload_one; now rewrite (bind_ok _ _ _ _ _ Hrun)|].
  set (k := Z.to_nat (exit_attempt x - 1)) in *.
  assert (length (sleeps evs) = k) as Hlen by now rewrite Hs, backoff_length.
  assert ((length (transfers evs) <= Z.to_nat tries)%nat
          /\ length (failed_transfers evs) = k) as [Hcount Hfailed].
  { destruct (g_truthy (globals st) "DRY_RUN") eqn:Edry.
    - specialize (Hdry eq_refl).
      destruct (aside_quiet _ (logs_aside _ Hdry)) as [Hs0 Ht0].
      rewrite Ht0, (aside_not_failed _ (logs_aside _ Hdry)).
      rewrite Hs0 in Hlen. simpl in *. split; lia.
    - destruct (Hlive eq_refl) as [Hf Ht]. split; [|exact Hf].
      rewrite Ht. subst k.
      destruct x; cbn [exit_attempt] in *; lia. }
  rewrite Hlen. repeat split; auto.
  - intros a Ha. rewrite Hs in Ha.
    assert (0 < k)%nat as Hk
      by (apply lookup_lt_Some in Ha; now rewrite backoff_length in Ha).
    rewrite backoff_lookup in Ha by lia. injection Ha as <-. reflexivity.
  - rewrite Hs in *. eapply backoff_doubles; eauto.
  - rewrite Hs in *. pose proof (backoff_doubles _ _ _ _ _ H H0) as ->.
    assert (i < k)%nat as Hi
      by (apply lookup_lt_Some in H; now rewrite backoff_length in H).
    rewrite backoff_lookup in H by lia. injection H as <-.
    assert (0 < 2 ^ Z.of_nat i) by (apply Z.pow_pos_nonneg; lia). lia.
Qed.

(** The states of the examples: the defaults of the module with some
    names rebound. *)
Lemma do_upload_one_backoff_witness :
  let st := fresh (<["UPLOAD_TARGET" := VStr "remote:backups"]>
                     (defaults bare_os)) in
  upload_retry bare_os (globals st) = Some 3
  /\ exists rc evs,
      do_upload_one bare_os "/backups/a.zip" st
      = Ok rc (mkSt (globals st) (trace st ++ evs))
      /\ (length (transfers evs) <= 3)%nat
      /\ sleeps evs = backoff 2 (length (sleeps evs)).
Proof.
  intros st. split; [reflexivity|].
  destruct (do_upload_one_backoff bare_os "/backups/a.zip" st 3 eq_refl)
    as (rc & evs & H1 & H2 & _ & H4 & _).
  exists rc, evs. auto.
Defined.

Example upload_three_failures :
  let st := fresh (<["UPLOAD_TARGET" := VStr "remote:backups"]>
                     (defaults bare_os)) in
  exists st',
    do_upload_one bare_os "/backups/a.zip" st = Ok 1 st'
    /\ sleeps (trace st') = [2; 4; 8]
    /\ length (transfers (trace st')) = 3%nat.
Proof. eexists. split; [vm_compute; reflexivity|]. split; reflexivity. Qed.

(** ** The upload stage *)

Lemma same_but_refl keys g : same_but keys g g.
Proof. now intros k _. Qed.

Lemma same_but_trans keys g1 g2 g3 :
  same_but keys g1 g2 -> same_but keys g2 g3 -> same_but keys g1 g3.
Proof. intros H12 H23 k Hk. now rewrite H23, H12. Qed.

Lemma same_but_insert keys g k v :
  k ∈ keys -> same_but keys g (<[k := v]> g).
Proof.
  intros Hin k' Hk'. apply lookup_insert_ne. intros ->. contradiction.
Qed.

Lemma same_but_truthy keys g g' k :
  same_but keys g g' -> k ∉ keys -> g_truthy g' k = g_truthy g k.
Proof. intros H Hk. unfold g_truthy. now rewrite H. Qed.

Lemma same_but_str keys g g' k :
  same_but keys g g' -> k ∉ keys -> g_str g' k = g_str g k.
Proof. intros H Hk. unfold g_str. now rewrite H. Qed.

Lemma same_but_retry os keys g g' :
  same_but keys g g' -> "UPLOAD_RETRY" ∉ keys ->
  upload_retry os g' = upload_retry os g.
Proof. intros H Hk. unfold upload_retry. now rewrite H. Qed.

(** Deciding a closed statement on literal names. *)
Ltac decide_names := apply (bool_decide_unpack _); vm_compute; exact Logic.I.

(** The dispatcher has no command for a tool exactly when the tool is
    none of the four it names. *)
Lemma upload_cmd_none tool file target :
  upload_cmd tool file target = None
  <-> existsb (String.eqb tool) ["rclone"; "aws"; "lftp"; "scp"] = false.
Proof.
  unfold upload_cmd. cbn [existsb].
  destruct (String.eqb tool "rclone"), (String.eqb tool "aws"),
    (String.eqb tool "lftp"), (String.eqb tool "scp");
    cbn [orb]; split; congruence.
Qed.

(** The tool chosen for [auto] is one the dispatcher knows. *)
Lemma auto_tool_known os target st tool st' file target' :
  auto_tool os target st = Ok tool st' ->
  upload_cmd tool file target' <> None.
Proof.
  unfold auto_tool, command_exists, bind, get_trace, ret.
  repeat match goal with
         | |- context [if ?b then _ else _] => destruct b
         end; intros [= <- _] H; apply upload_cmd_none in H;
    vm_compute in H; discriminate.
Qed.

(** With an unknown tool a turn of the loop returns at once. *)
Lemma upload_loop_unknown os file target tool tries attempt delay st :
  upload_cmd tool file target = None -> attempt <= tries ->
  exists evs,
    upload_loop os file target tool tries attempt delay st
    = Ok (Unsupported attempt) (mkSt (globals st) (trace st ++ evs)).
Proof.
  intros Hnone Hle. rewrite upload_loop_body.
  destruct (decide (attempt ≤ tries)) as [_|Hgt]; [|lia].
  rewrite (bind_ok _ _ _ _ _ (log_run _ _)).
  set (st1 := mkSt _ _).
  destruct (transfer_run os tool file target st1)
    as (r & evs & Htrans & Hcase).
  rewrite (bind_ok _ _ _ _ _ Htrans). rewrite Hnone in Hcase.
  destruct Hcase as [-> ->].
  rewrite (bind_ok _ _ _ _ _ (log_run _ _)). unfold ret.
  cbn [globals trace st1]. eexists.
  rewrite app_nil_r, <- app_assoc. reflexivity.
Qed.

(** [do_upload_one] returns from the branch of the unknown tool exactly
    when [UPLOAD_TOOL] names none of the known tools and the loop is
    entered. *)
Lemma upload_one_unsupported os file st tries x st' :
  upload_retry os (globals st) = Some tries ->
  Py.nonempty (g_str (globals st) "UPLOAD_TARGET") = true ->
  upload_one os file st = Ok x st' ->
  (unsupported x
   <-> known_tool (chosen_tool (globals st)) = false /\ 1 <= tries)
  /\ x <> NoTarget.
Proof.
  intros Hretry Htarget. unfold upload_one, bind at 1, get_globals.
  rewrite Hretry, Htarget. cbn [negb].
  change (if g_truthy (globals st) "UPLOAD_TOOL"
          then g_str (globals st) "UPLOAD_TOOL" else "auto")
    with (chosen_tool (globals st)).
  set (tool0 := chosen_tool (globals st)).
  set (target := g_str (globals st) "UPLOAD_TARGET").
  assert (exists tool,
             (if String.eqb tool0 "auto" then auto_tool os target
              else ret tool0) st = Ok tool st
             /\ (upload_cmd tool file target = None
                 <-> known_tool tool0 = false))
    as (tool & Htool & Hknown).
  { destruct (String.eqb tool0 "auto") eqn:Eauto.
    - destruct (auto_tool_run os target st) as [tool Htool].
      exists tool. split; [exact Htool|].
      apply String.eqb_eq in Eauto. rewrite Eauto. split.
      + intros H. now apply (auto_tool_known _ _ _ _ _ file target) in Htool.
      + discriminate.
    - exists tool0. split; [reflexivity|]. rewrite upload_cmd_none.
      unfold known_tool. cbn [existsb]. now rewrite Eauto. }
  rewrite (bind_ok _ _ _ _ _ Htool), (bind_ok _ _ _ _ _ (log_run _ _)).
  set (s1 := mkSt _ _).
  destruct (upload_loop_spec os file target tool tries _ 1 2 s1 eq_refl)
    as (x' & evs & Hloop & _ & _ & Hx).
  destruct (decide (1 <= tries)) as [Hle|Hgt].
  - destruct (upload_cmd tool file target) eqn:Ecmd.
    + rewrite Hloop. intros [= <- _].
      split; [|destruct x'; [contradiction|discriminate..]].
      split.
      * intros Hu. destruct x'; try contradiction.
        destruct Hx as (_ & _ & Hnone). discriminate.
      * intros [Hk _]. apply Hknown in Hk. discriminate.
    + destruct (upload_loop_unknown os file target tool tries 1 2 s1
                  Ecmd Hle) as (evs' & Hloop').
      rewrite Hloop'. intros [= <- _]. split; [|discriminate].
      split; [intros _; split; [now apply Hknown | exact Hle]
             | intros _; exact Logic.I].
  - rewrite Hloop. intros [= <- _].
    split; [|destruct x'; [contradiction|discriminate..]].
    split.
    + intros Hu. destruct x'; try contradiction. lia.
    + intros [_ H]. lia.
Qed.

(** One call of [do_upload_one] with a target: it gave up exactly when
    its events spend the budget, and met an unknown tool exactly when
    the tool is unknown and the loop was entered, without a transfer. *)
Lemma upload_one_call os file st tries :
  upload_retry os (globals st) = Some tries ->
  Py.nonempty (g_str (globals st) "UPLOAD_TARGET") = true ->
  exists x evs,
    upload_one os file st = Ok x (mkSt (globals st) (trace st ++ evs))
    /\ (exhausted x <-> budget_spent tries evs)
    /\ (unsupported x <-> tool_refused (globals st) tries evs).
Proof.
  intros Hretry Htarget.
  destruct (upload_one_run os file st tries Hretry)
    as (x & evs & Hrun & Hdry & [Hs Hlive] & Hx).
  destruct (upload_one_unsupported _ _ _ _ _ _ Hretry Htarget Hrun)
    as [Hun Hno].
  exists x, evs. split; [exact Hrun|].
  assert (length (sleeps evs) = Z.to_nat (exit_attempt x - 1)) as Hlen
    by now rewrite Hs, backoff_length.
  assert (exists nt nf,
             length (transfers evs) = nt
             /\ length (failed_transfers evs) = nf
             /\ if g_truthy (globals st) "DRY_RUN"
                then nt = 0%nat /\ nf = 0%nat
                     /\ Z.to_nat (exit_attempt x - 1) = 0%nat
                else nf = Z.to_nat (exit_attempt x - 1)
                     /\ nt = match x with
                             | Uploaded _ => S nf
                             | Unsupported _ => 0%nat
                             | _ => nf
                             end)
    as (nt & nf & Hnt & Hnf & Hcount).
  { do 2 eexists. split; [reflexivity|]. split; [reflexivity|].
    destruct (g_truthy (globals st) "DRY_RUN") eqn:Edry.
    - specialize (Hdry eq_refl).
      destruct (aside_quiet _ (logs_aside _ Hdry)) as [Hs0 Ht0].
      rewrite Ht0, (aside_not_failed _ (logs_aside _ Hdry)).
      rewrite Hs0 in Hlen. cbn [length] in *. auto.
    - destruct (Hlive eq_refl) as [Hf Ht]. rewrite Hf, Ht. auto. }
  assert (unsupported x -> transfers evs = []) as Hnil.
  { intros Hu. destruct (transfers evs); [reflexivity|]. exfalso.
    cbn [length] in Hnt.
    destruct x; try contradiction.
    destruct (g_truthy (globals st) "DRY_RUN"); lia. }
  split.
  - unfold budget_spent. rewrite Hnt, Hnf.
    destruct x; cbn [exhausted exit_attempt] in *;
      [now destruct Hno|..];
      destruct (g_truthy (globals st) "DRY_RUN");
      split; intros ?; try contradiction; lia.
  - unfold tool_refused. split.
    + intros Hu. destruct (proj1 Hun Hu). auto.
    + intros (Hk & Hle & _). apply Hun. auto.
Qed.

Lemma holds_text_truthy g k :
  holds_text g k -> g_truthy g k = Py.nonempty (g_str g k).
Proof. intros [s Hs]. unfold g_truthy, g_str. now rewrite Hs. Qed.

Lemma same_but_tool keys g g' :
  same_but keys g g' -> "UPLOAD_TOOL" ∉ keys ->
  chosen_tool g' = chosen_tool g.
Proof.
  intros H Hk. unfold chosen_tool.
  now rewrite (same_but_truthy _ _ _ _ H Hk), (same_but_str _ _ _ _ H Hk).
Qed.

(** A call stays well described when it is seen from an earlier state of
    the same block and from a longer list of files. *)
Lemma call_ok_weaken os files files' g g' tries c :
  (forall f, f ∈ files -> f ∈ files') ->
  same_but ["FINAL_STATUS"] g' g ->
  call_ok os files g tries c -> call_ok os files' g' tries c.
Proof.
  intros Hsub Hsame (H1 & H2 & H3 & H4 & H5 & H6 & H7).
  unfold call_ok, tool_refused in *.
  rewrite (same_but_truthy _ _ _ "DRY_RUN" Hsame) in H2 by decide_names.
  rewrite (same_but_tool _ _ _ Hsame) in H7 by decide_names.
  repeat split; auto; try apply H5; try apply H6; try apply H7; auto.
  eapply same_but_trans; eauto.
Qed.

Lemma calls_from_app t c1 t1 c2 t2 :
  calls_from t c1 t1 -> calls_from t1 c2 t2 -> calls_from t (c1 ++ c2) t2.
Proof.
  revert t. induction c1 as [|c c1 IH]; intros t; cbn.
  - now intros ->.
  - intros [Ht H1] H2. split; [exact Ht|]. now apply IH.
Qed.

Lemma upload_turn_calls os tries f st :
  upload_retry os (globals st) = Some tries ->
  Py.nonempty (g_str (globals st) "UPLOAD_TARGET") = true ->
  exists calls st',
    upload_turn os f st = Ok (map call_out calls) st'
    /\ calls_from (trace st) calls (trace st')
    /\ same_but ["FINAL_STATUS"] (globals st) (globals st')
    /\ globals st' !! "FINAL_STATUS"
       = (if existsb failed (map call_out calls)
          then Some (VStr "failure")
          else globals st !! "FINAL_STATUS")
    /\ Forall (call_ok os [f] (globals st) tries) calls
    /\ ((os_exists os (trace st) f || g_truthy (globals st) "DRY_RUN")
        = true -> map call_file calls = [f]).
Proof.
  intros Hretry Htarget. unfold upload_turn, bind at 1, get_globals.
  unfold bind at 1, get_trace.
  destruct (os_exists os (trace st) f || g_truthy (globals st) "DRY_RUN")
    eqn:Ego.
  - destruct (upload_one_call os f st tries Hretry Htarget)
      as (x & evs & Hrun & Hex & Hun).
    rewrite (bind_ok _ _ _ _ _ Hrun).
    assert (call_ok os [f] (globals st) tries (mkCall f st x evs)) as Hc.
    { unfold call_ok. cbn [call_file call_state call_exit call_events].
      split; [apply list_elem_of_here|]. split; [exact Ego|].
      split; [apply same_but_refl|].
      split; [unfold do_upload_one; now rewrite (bind_ok _ _ _ _ _ Hrun)|].
      split; [|split; assumption].
      destruct x; cbn; intuition (try discriminate; try congruence). }
    destruct (negb (rc_of x =? 0)) eqn:Erc.
    + eexists [mkCall f st x evs], _. split; [reflexivity|].
      cbn [map call_out call_file call_exit existsb failed snd orb
           calls_from call_state call_events globals trace].
      unfold bind, set_global, ret. cbn [globals trace].
      unfold failed, call_out. cbn [snd call_file call_exit].
      rewrite Erc. cbn [orb].
      split; [split; reflexivity|].
      split; [apply same_but_insert; decide_names|].
      split; [apply lookup_insert_eq|].
      split; [constructor; [exact Hc | constructor] | reflexivity].
    + eexists [mkCall f st x evs], _. split; [reflexivity|].
      cbn [map call_out call_file call_exit existsb failed snd orb
           calls_from call_state call_events globals trace].
      unfold bind, ret. cbn [globals trace].
      unfold failed, call_out. cbn [snd call_file call_exit].
      rewrite Erc. cbn [orb].
      split; [split; reflexivity|].
      split; [apply same_but_refl|].
      split; [reflexivity|].
      split; [constructor; [exact Hc | constructor] | reflexivity].
  - exists [], st. cbn.
    repeat split; auto using same_but_refl. discriminate.
Qed.

Lemma upload_all_calls os tries files :
  forall st,
    upload_retry os (globals st) = Some tries ->
    Py.nonempty (g_str (globals st) "UPLOAD_TARGET") = true ->
    exists calls st',
      upload_all os files st = Ok (map call_out calls) st'
      /\ calls_from (trace st) calls (trace st')
      /\ same_but ["FINAL_STATUS"] (globals st) (globals st')
      /\ globals st' !! "FINAL_STATUS"
         = (if existsb failed (map call_out calls)
            then Some (VStr "failure")
            else globals st !! "FINAL_STATUS")
      /\ Forall (call_ok os files (globals st) tries) calls
      /\ (forall f, f ∈ files ->
            g_truthy (globals st) "DRY_RUN" = true
            \/ (forall t, os_exists os t f = true) ->
            f ∈ map call_file calls).
Proof.
  induction files as [|f rest IH]; intros st Hretry Htarget.
  - exists [], st. cbn.
    repeat split; auto using same_but_refl;
      try (intros f Hin; now apply elem_of_nil in Hin).
  - cbn [upload_all].
    destruct (upload_turn_calls os tries f st Hretry Htarget)
      as (c1 & st1 & Hturn & Ht1 & Hsame1 & Hstatus1 & Hc1 & Hgo1).
    rewrite (bind_ok _ _ _ _ _ Hturn).
    destruct (IH st1) as (c2 & st2 & Hall & Ht2 & Hsame2 & Hstatus2
                          & Hc2 & Hgo2).
    { erewrite same_but_retry; eauto. decide_names. }
    { erewrite same_but_str; eauto. decide_names. }
    rewrite (bind_ok _ _ _ _ _ Hall). unfold ret.
    exists (c1 ++ c2), st2. rewrite map_app.
    split; [reflexivity|].
    split; [eapply calls_from_app; eauto|].
    split; [eapply same_but_trans; eauto|].
    split.
    { rewrite existsb_app, Hstatus2, Hstatus1.
      destruct (existsb failed (map call_out c1)),
        (existsb failed (map call_out c2)); reflexivity. }
    split.
    + apply Forall_app_2.
      * eapply Forall_impl; [exact Hc1|]. intros c Hc.
        eapply call_ok_weaken; [|apply same_but_refl|exact Hc].
        intros f' Hf'. apply list_elem_of_singleton in Hf' as ->.
        apply list_elem_of_here.
      * eapply Forall_impl; [exact Hc2|]. intros c Hc.
        eapply call_ok_weaken; [|exact Hsame1|exact Hc].
        intros f' Hf'. now apply list_elem_of_further.
    + intros f' Hin Hthere. rewrite map_app. apply elem_of_app.
      apply elem_of_cons in Hin as [->|Hin].
      * left. rewrite Hgo1; [apply list_elem_of_here|].
        destruct Hthere as [->|Hex]; [apply orb_true_r|].
        now rewrite Hex.
      * right. apply Hgo2; [exact Hin|].
        destruct Hthere as [Hd|Hex]; [left|now right].
        erewrite same_but_truthy; eauto. decide_names.
Qed.

(** C1 (amended).  The upload block always finishes, with the status
    "success" or "failure".  Its calls of [do_upload_one] follow one
    another on the trace, one for each dispatched file (every file in a
    dry run, and every file that exists).  The status is "failure"
    exactly when the events of at least one of these calls spend the
    retry budget (as many transfers as the retry count allows were run
    and all failed) or show an upload tool that the dispatcher does not
    know, met in the first turn without any transfer.  With no upload
    target nothing is dispatched and the status is "success". *)
Theorem final_status_failure_iff os files st tries :
  holds_text (globals st) "UPLOAD_TARGET" ->
  (g_truthy (globals st) "UPLOAD_TARGET" = true ->
   upload_retry os (globals st) = Some tries) ->
  exists calls st',
    upload_stage os files st = Ok (map call_out calls) st'
    /\ calls_from (trace st) calls (trace st')
    /\ Forall (call_ok os files (globals st) tries) calls
    /\ (forall f, f ∈ files ->
          g_truthy (globals st) "UPLOAD_TARGET" = true ->
          g_truthy (globals st) "DRY_RUN" = true
          \/ (forall t, os_exists os t f = true) ->
          f ∈ map call_file calls)
    /\ (g_str (globals st') "FINAL_STATUS" = "failure"
        \/ g_str (globals st') "FINAL_STATUS" = "success")
    /\ (g_str (globals st') "FINAL_STATUS" = "failure"
        <-> exists c, c ∈ calls
                      /\ (budget_spent tries (call_events c)
                          \/ tool_refused (globals st) tries
                               (call_events c)))
    /\ (g_truthy (globals st) "UPLOAD_TARGET" = false ->
        calls = [] /\ g_str (globals st') "FINAL_STATUS" = "success").
Proof.
  intros Htext Hretry. unfold upload_stage, bind at 1, set_global.
  unfold bind at 1, get_globals. cbn [globals trace].
  set (g0 := <["FINAL_STATUS" := VStr "success"]> (globals st)).
  assert (same_but ["FINAL_STATUS"] (globals st) g0) as Hsame0
    by (apply same_but_insert; decide_names).
  rewrite (same_but_truthy _ _ _ "UPLOAD_TARGET" Hsame0) by decide_names.
  destruct (g_truthy (globals st) "UPLOAD_TARGET") eqn:Etarget.
  - destruct (upload_all_calls os tries files (mkSt g0 (trace st)))
      as (calls & st' & Hall & Hfrom & Hsame & Hstatus & Hcalls & Hgo).
    { cbn. erewrite same_but_retry; eauto. decide_names. }
    { cbn. erewrite same_but_str; eauto; [|decide_names].
      now rewrite <- holds_text_truthy. }
    exists calls, st'. split; [exact Hall|]. cbn [globals trace] in *.
    split; [exact Hfrom|].
    assert (Forall (call_ok os files (globals st) tries) calls) as Hok.
    { eapply Forall_impl; [exact Hcalls|]. intros c Hc.
      eapply call_ok_weaken; [|exact Hsame0|exact Hc]. auto. }
    split; [exact Hok|].
    split.
    { intros f Hin _ Hthere. apply Hgo; [exact Hin|].
      destruct Hthere as [Hd|Hex]; [left|now right].
      erewrite same_but_truthy; eauto. decide_names. }
    assert (g_str (globals st') "FINAL_STATUS"
            = if existsb failed (map call_out calls)
              then "failure" else "success") as Hs.
    { unfold g_str. rewrite Hstatus. unfold g0.
      rewrite lookup_insert_eq.
      now destruct (existsb failed (map call_out calls)). }
    rewrite Hs.
    split; [destruct (existsb failed (map call_out calls)); auto|].
    split; [|discriminate].
    assert (forall c, c ∈ calls ->
              failed (call_out c) = true
              <-> budget_spent tries (call_events c)
                  \/ tool_refused (globals st) tries (call_events c))
      as Hfailed.
    { intros c Hin. rewrite Forall_forall in Hok.
      destruct (Hok c Hin) as (_ & _ & _ & _ & Hrc & Hex & Hun).
      rewrite <- Hex, <- Hun, <- Hrc. unfold failed, call_out. cbn [snd].
      destruct (rc_of (call_exit c) =? 0) eqn:E; cbn [negb].
      - apply Z.eqb_eq in E. split; [discriminate|congruence].
      - apply Z.eqb_neq in E. split; auto. }
    destruct (existsb failed (map call_out calls)) eqn:E.
    + apply existsb_exists in E as (o & Hin & Hf).
      apply in_map_iff in Hin as (c & <- & Hin).
      apply list_elem_of_In in Hin.
      split; [intros _|reflexivity].
      exists c. split; [exact Hin|]. now apply Hfailed.
    + split; [discriminate|]. intros (c & Hin & Hc). exfalso.
      assert (existsb failed (map call_out calls) = true) as E'.
      { apply existsb_exists. exists (call_out c).
        split; [apply in_map; now apply list_elem_of_In|].
        now apply Hfailed. }
      congruence.
  - exists [], (mkSt g0 (trace st)). split; [reflexivity|]. cbn.
    assert (g_str g0 "FINAL_STATUS" = "success") as ->
      by (unfold g_str, g0; now rewrite lookup_insert_eq).
    repeat split; auto; try discriminate.
    intros (c & Hin & _). now apply elem_of_nil in Hin.
Qed.

Lemma final_status_failure_iff_witness :
  let st := configured failing_os
              [("UPLOAD_TARGET", VStr "remote:backups")] in
  holds_text (globals st) "UPLOAD_TARGET"
  /\ (g_truthy (globals st) "UPLOAD_TARGET" = true ->
      upload_retry failing_os (globals st) = Some 3)
  /\ exists calls st',
      upload_stage failing_os ["/backups/a.zip"] st
      = Ok (map call_out calls) st'
      /\ map call_file calls = ["/backups/a.zip"]
      /\ (g_str (globals st') "FINAL_STATUS" = "failure"
          <-> exists c, c ∈ calls
                /\ (budget_spent 3 (call_events c)
                    \/ tool_refused (globals st) 3 (call_events c))).
Proof.
  intros st.
  assert (holds_text (globals st) "UPLOAD_TARGET") as Htext
    by (eexists; vm_compute; reflexivity).
  split; [exact Htext|]. split; [reflexivity|].
  destruct (final_status_failure_iff failing_os ["/backups/a.zip"] st 3
              Htext)
    as (calls & st' & H1 & _ & H3 & H4 & _ & H6 & _); [reflexivity|].
  exists calls, st'. split; [exact H1|]. split; [|exact H6].
  assert ("/backups/a.zip" ∈ map call_file calls) as Hin.
  { apply H4; [apply list_elem_of_here | reflexivity|]. now right. }
  assert (Forall (fun f => f = "/backups/a.zip") (map call_file calls))
    as Hall.
  { apply Forall_map. eapply Forall_impl; [exact H3|].
    intros c (Hc & _). now apply list_elem_of_singleton in Hc. }
  assert (length calls = 1%nat) as Hlen.
  { assert (length (map call_out calls) = 1%nat) as Hl; [|
      now rewrite length_map in Hl].
    destruct (upload_stage failing_os ["/backups/a.zip"] st)
      as [outs s|e s] eqn:E; [|discriminate].
    injection H1 as <- _. vm_compute in E. now injection E as <- _. }
  destruct calls as [|c [|c' calls]]; try discriminate.
  cbn in *. apply Forall_cons in Hall as [-> _]. reflexivity.
Defined.

(** C1 as stated fails for an upload tool the dispatcher does not know
    (the config file may name any): the status is "failure" although no
    file used up its retries; no transfer was even tried. *)
Lemma unsupported_tool_fails_run :
  ~ failure_iff_exhausted kind_os ["/backups/a.zip"]
      (configured kind_os [("UPLOAD_TARGET", VStr "remote:backups");
                           ("UPLOAD_TOOL", VStr "ftp")]).
Proof.
  intros H.
  set (st := configured kind_os _) in H.
  destruct (upload_stage kind_os ["/backups/a.zip"] st)
    as [outs st'|e st'] eqn:E; vm_compute in E; [|discriminate].
  injection E as <- <-.
  destruct (H _ _ eq_refl) as [Hfail _].
  destruct (Hfail eq_refl) as ([f x] & Hin & Hex).
  apply list_elem_of_singleton in Hin. injection Hin as -> ->.
  exact Hex.
Qed.

Example unsupported_tool_no_transfer :
  exists st',
    upload_stage kind_os ["/backups/a.zip"]
      (configured kind_os [("UPLOAD_TARGET", VStr "remote:backups");
                           ("UPLOAD_TOOL", VStr "ftp")])
    = Ok [("/backups/a.zip", Unsupported 1)] st'
    /\ g_str (globals st') "FINAL_STATUS" = "failure"
    /\ transfers (trace st') = [].
Proof. eexists. split; [vm_compute; reflexivity|]. split; reflexivity. Qed.

Lemma upload_one_ok_inv os f st x st' :
  upload_one os f st = Ok x st' -> globals st' = globals st.
Proof.
  intros H. destruct (upload_retry os (globals st)) as [tries|] eqn:E.
  - destruct (upload_one_run os f st tries E) as (x' & evs & Hrun & _).
    rewrite Hrun in H. now injection H as _ <-.
  - unfold upload_one, bind, get_globals in H. rewrite E in H. discriminate.
Qed.

Lemma upload_turn_globals os f st outs st' :
  upload_turn os f st = Ok outs st' ->
  same_but ["FINAL_STATUS"] (globals st) (globals st').
Proof.
  unfold upload_turn, bind at 1, get_globals. unfold bind at 1, get_trace.
  destruct (os_exists os (trace st) f || g_truthy (globals st) "DRY_RUN").
  - unfold bind at 1.
    destruct (upload_one os f st) as [x s1|e s1] eqn:E1; [|discriminate].
    apply upload_one_ok_inv in E1.
    destruct (negb (rc_of x =? 0)); cbn; intros [= _ <-]; cbn; rewrite ?E1.
    + apply same_but_insert. decide_names.
    + apply same_but_refl.
  - intros [= _ <-]. apply same_but_refl.
Qed.

(** The upload loop only ever rebinds [FINAL_STATUS]. *)
Lemma upload_all_globals os files :
  forall st outs st',
    upload_all os files st = Ok outs st' ->
    same_but ["FINAL_STATUS"] (globals st) (globals st').
Proof.
  induction files as [|f rest IH]; intros st outs st' H.
  - injection H as _ <-. apply same_but_refl.
  - cbn [upload_all] in H. unfold bind at 1 in H.
    destruct (upload_turn os f st) as [o1 s1|e s1] eqn:E1; [|discriminate].
    unfold bind in H.
    destruct (upload_all os rest s1) as [o2 s2|e s2] eqn:E2; [|discriminate].
    injection H as _ <-.
    eapply same_but_trans; eauto using upload_turn_globals.
Qed.

Lemma upload_all_app os l1 l2 :
  forall st,
    upload_all os (l1 ++ l2) st
    = (o1 <- upload_all os l1;; o2 <- upload_all os l2;; ret (o1 ++ o2)) st.
Proof.
  induction l1 as [|f rest IH]; intros st.
  - cbn. unfold bind, ret. now destruct (upload_all os l2 st).
  - cbn [app upload_all]. unfold bind.
    destruct (upload_turn os f st) as [o s1|e s1]; [|reflexivity].
    rewrite IH. unfold bind, ret.
    destruct (upload_all os rest s1) as [o1 s2|e s2]; [|reflexivity].
    destruct (upload_all os l2 s2) as [o2 s3|e s3]; [|reflexivity].
    now rewrite app_assoc.
Qed.

(** C10.  Outside dry-run, a listed file that does not exist when its turn
    comes is skipped without a trace: the upload loop behaves exactly as if
    the file were not in the list, so the file is never handed to
    [do_upload_one] and never turns the status into "failure". *)
Theorem missing_file_skipped os l1 f l2 st outs1 st1 :
  g_truthy (globals st) "DRY_RUN" = false ->
  upload_all os l1 st = Ok outs1 st1 ->
  os_exists os (trace st1) f = false ->
  upload_all os (l1 ++ f :: l2) st = upload_all os (l1 ++ l2) st.
Proof.
  intros Hdry H1 Hmissing. rewrite !upload_all_app.
  rewrite !(bind_ok _ _ _ _ _ H1).
  assert (g_truthy (globals st1) "DRY_RUN" = false) as Hdry1.
  { rewrite (same_but_truthy ["FINAL_STATUS"] (globals st) (globals st1));
      [exact Hdry | eapply upload_all_globals; eauto | decide_names]. }
  cbn [upload_all].
  assert (upload_turn os f st1 = Ok [] st1) as Hturn.
  { unfold upload_turn, bind, get_globals, get_trace.
    now rewrite Hmissing, Hdry1. }
  unfold bind. rewrite Hturn. unfold ret.
  destruct (upload_all os l2 st1); reflexivity.
Qed.

Lemma missing_file_skipped_witness :
  let st := configured bare_os [("UPLOAD_TARGET", VStr "remote:backups")] in
  g_truthy (globals st) "DRY_RUN" = false
  /\ upload_all bare_os [] st = Ok [] st
  /\ os_exists bare_os (trace st) "/backups/a.zip.part.000" = false
  /\ upload_all bare_os ([] ++ "/backups/a.zip.part.000" :: ["/backups/a.zip"])
       st
     = upload_all bare_os ([] ++ ["/backups/a.zip"]) st.
Proof.
  intros st.
  split; [reflexivity|]. split; [reflexivity|]. split; [reflexivity|].
  apply (missing_file_skipped bare_os [] "/backups/a.zip.part.000"
           ["/backups/a.zip"] st [] st); reflexivity.
Defined.

(** ** Plugin resolution *)

Lemma append_empty_r s : s +:+ "" = s.
Proof.
  induction s as [|c s IH]; [reflexivity|].
  change (String c (s +:+ "") = String c s). now rewrite IH.
Qed.

Lemma startswith_contains c s :
  Py.startswith (String c "") s = true -> Py.contains_char c s = true.
Proof.
  unfold Py.startswith, Py.contains_char, Py.chars.
  destruct s as [|d s]; cbn; [discriminate|].
  destruct (ascii_dec c d) as [->|]; [|discriminate].
  intros _. now rewrite Ascii.eqb_refl.
Qed.

Lemma plugin_candidates_cases tgt plugins_dir :
  plugin_candidates tgt plugins_dir
  = if Py.contains_char "/" tgt
    then [tgt; tgt +:+ ".py"; tgt +:+ ".sh"]
    else [path_join2 plugins_dir tgt; path_join2 plugins_dir (tgt +:+ ".py");
          path_join2 plugins_dir (tgt +:+ ".sh")].
Proof.
  unfold plugin_candidates.
  destruct (Py.contains_char "/" tgt) eqn:E.
  - rewrite orb_true_r. cbn. now rewrite append_empty_r.
  - destruct (Py.startswith "/" tgt) eqn:E'.
    + apply startswith_contains in E'. congruence.
    + cbn. now rewrite append_empty_r.
Qed.

(** The scan stops at the first usable candidate. *)
Lemma scan_candidates_first os t cands :
  match scan_candidates os t cands with
  | Some (cmd, p) =>
      exists before after,
        cands = before ++ p :: after
        /\ Forall (fun c => usable os t c = false) before
        /\ usable os t p = true
        /\ cmd = if os_access_x os t p then [p] else [os_executable os; p]
  | None => Forall (fun c => usable os t c = false) cands
  end.
Proof.
  induction cands as [|c rest IH]; cbn; [constructor|].
  unfold usable at 1 3.
  destruct (os_is_file os t c) eqn:Ef; cbn.
  - destruct (os_access_x os t c) eqn:Ex; cbn.
    + exists [], rest. unfold usable. rewrite Ef, Ex. repeat split; auto.
    + destruct (Py.endswith ".py" c) eqn:Epy.
      * exists [], rest. unfold usable. rewrite Ef, Ex, Epy.
        repeat split; auto.
      * destruct (scan_candidates os t rest) as [[cmd p]|].
        -- destruct IH as (before & after & -> & Hb & Hp & Hcmd).
           exists (c :: before), after. repeat split; auto.
           constructor; [|assumption]. unfold usable.
           now rewrite Ef, Ex, Epy.
        -- constructor; [|assumption]. unfold usable. now rewrite Ef, Ex, Epy.
  - destruct (scan_candidates os t rest) as [[cmd p]|].
    + destruct IH as (before & after & -> & Hb & Hp & Hcmd).
      exists (c :: before), after. repeat split; auto.
      constructor; [|assumption]. unfold usable. now rewrite Ef.
    + constructor; [|assumption]. unfold usable. now rewrite Ef.
Qed.

(** C7 (amended).  For a notify target that is not a built-in name:
    the candidates are the target with no extension, then [.py], then
    [.sh], taken as literal paths when the target contains a slash and
    under the plugins directory otherwise (never both); the first
    candidate that is a file and is executable or ends in [.py] wins,
    run directly when executable and through the Python interpreter
    otherwise; a name with no such candidate is logged and not fatal. *)
Theorem resolve_plugin_scan os event status primary env tgt st :
  let g := globals st in
  let name := Py.strip tgt in
  let cands := plugin_candidates name (g_str g "PLUGINS_DIR") in
  String.eqb name "telegram" = false ->
  String.eqb name "email" = false ->
  cands = (if Py.contains_char "/" name
           then [name; name +:+ ".py"; name +:+ ".sh"]
           else map (path_join2 (g_str g "PLUGINS_DIR"))
                    [name; name +:+ ".py"; name +:+ ".sh"])
  /\ match _resolve_plugin os (trace st) name (g_str g "PLUGINS_DIR") with
     | Some (cmd, p) =>
         exists before after,
           cands = before ++ p :: after
           /\ Forall (fun c => usable os (trace st) c = false) before
           /\ usable os (trace st) p = true
           /\ cmd = if os_access_x os (trace st) p then [p]
                    else [os_executable os; p]
     | None =>
         Forall (fun c => usable os (trace st) c = false) cands
         /\ exists msg,
             notify_one os event status primary env tgt st
             = Ok tt (mkSt g (trace st ++ log_events g msg))
     end.
Proof.
  intros g name cands Ht Hm. split; [apply plugin_candidates_cases|].
  pose proof (scan_candidates_first os (trace st) cands) as Hscan.
  unfold _resolve_plugin. fold cands.
  destruct (scan_candidates os (trace st) cands) as [[cmd p]|] eqn:E;
    [exact Hscan|].
  split; [exact Hscan|]. eexists.
  unfold notify_one, bind at 1, get_globals. fold name. rewrite Ht, Hm.
  unfold bind at 1, get_trace. unfold _resolve_plugin. fold g cands.
  rewrite E. apply log_run.
Qed.

Lemma resolve_plugin_scan_witness :
  let st := configured bare_os [] in
  String.eqb (Py.strip "post-webhook") "telegram" = false
  /\ String.eqb (Py.strip "post-webhook") "email" = false
  /\ plugin_candidates (Py.strip "post-webhook")
       (g_str (globals st) "PLUGINS_DIR")
     = ["./plugins.d/post-webhook"; "./plugins.d/post-webhook.py";
        "./plugins.d/post-webhook.sh"].
Proof.
  intros st. split; [reflexivity|]. split; [reflexivity|].
  destruct (resolve_plugin_scan bare_os "on_success" "success" "/b/a.zip" ∅
              "post-webhook" st eq_refl eq_refl) as [H _].
  exact H.
Defined.

(** C7 as stated fails for a bare name: [notify-hook] is an executable
    file, but only the plugins directory is searched. *)
Lemma bare_name_skips_literal_path : ~ literal_path_first hook_os.
Proof.
  intros H.
  specialize (H [] "notify-hook" "./plugins.d" eq_refl eq_refl).
  vm_compute in H. discriminate.
Qed.

Example non_executable_sh_not_run :
  let os := sample_os (fun _ => false) (fun _ _ => Returned 0)
              (fun _ _ => true) (String.eqb "./plugins.d/hook.sh")
              (fun _ => false) (fun _ => None) (fun _ => None) in
  _resolve_plugin os [] "hook" "./plugins.d" = None.
Proof. reflexivity. Qed.

Example py_before_executable_sh :
  let os := sample_os (fun _ => false) (fun _ _ => Returned 0)
              (fun _ _ => true)
              (fun p => String.eqb p "./plugins.d/hook.py"
                        || String.eqb p "./plugins.d/hook.sh")
              (String.eqb "./plugins.d/hook.sh")
              (fun _ => None) (fun _ => None) in
  _resolve_plugin os [] "hook" "./plugins.d"
  = Some (["/usr/bin/python3"; "./plugins.d/hook.py"], "./plugins.d/hook.py").
Proof. reflexivity. Qed.

(** ** The events of the pipeline *)

Lemma triple_bind_ret {A B} I P (a : A) (k : A -> M B) :
  triple I P (k a) -> triple I P (bind (ret a) k).
Proof. intros H st HI. exact (H st HI). Qed.

Section Pipeline.
Context (os : OS) (I : Globals -> Prop) (P : Event -> Prop) (dry : bool).
Hypothesis I_dry : forall g, I g -> g_truthy g "DRY_RUN" = dry.
Hypothesis I_keep :
  forall g k v, k ∈ run_keys -> I g -> I (<[k := v]> g).
Hypothesis P_log : forall e, is_log e -> P e.
Hypothesis P_input : forall p, P (EvInput p).
Hypothesis P_du : forall p r, P (EvSpawn ["du"; "-sh"; p] None r).
Hypothesis P_mkdir_out : forall g, I g -> P (EvMkdir (g_str g "OUT_DIR")).
Hypothesis P_mkdir_sum :
  forall g, I g -> g_truthy g "MAKE_SUMMARY" = true ->
            P (EvMkdir (g_or g "SUMMARY_DIR" "OUT_DIR")).
Hypothesis P_write_sum :
  forall g text, I g -> g_truthy g "MAKE_SUMMARY" = true ->
                 P (EvWriteText (summary_path os g) text).
Hypothesis P_live : dry = false -> forall e, not_dispatch e -> P e.

(** The run is live: some globals satisfying [I] have [DRY_RUN] off. *)
Ltac live :=
  match goal with
  | Hg : I ?g, E : g_truthy ?g "DRY_RUN" = false |- dry = false =>
      exact (eq_trans (eq_sym (I_dry g Hg)) E)
  | H : dry = false |- dry = false => exact H
  end.

Ltac allowed :=
  first [ apply P_log; exact Logic.I
        | apply P_input
        | apply P_du
        | apply P_live; [live | exact Logic.I] ].

Ltac go :=
  repeat first
    [ lazymatch goal with
      | |- triple _ _ (bind (ret _) _) => apply triple_bind_ret
      | |- triple _ _ (if true then _ else _) => cbv iota
      | |- triple _ _ (if false then _ else _) => cbv iota
      | |- triple _ _ (log _) => apply triple_log; exact P_log
      | |- triple _ _ (print _) => apply triple_print; exact P_log
      | |- triple _ _ (command_exists _ _) => apply triple_command_exists
      | |- triple _ _ (emit _) => apply triple_emit
      | |- triple _ _ (bind (if ?b then _ else _) _) => destruct b eqn:?
      end
    | triple_step
    | allowed ].

Lemma triple_shell cmd : dry = false -> triple I P (shell os cmd).
Proof. intros Hlive. unfold shell. go. Qed.

Lemma triple_spawn argv env :
  dry = false -> triple I P (spawn os argv env).
Proof. intros Hlive. unfold spawn. go. Qed.

Lemma triple_run_or_echo cmd : triple I P (run_or_echo os cmd).
Proof. unfold run_or_echo. go; apply triple_shell; live. Qed.

Lemma triple_input prompt : triple I P (input os prompt).
Proof. unfold input. go. Qed.

Lemma triple_mkdir p : P (EvMkdir p) -> triple I P (mkdir os p).
Proof. intros Hp. unfold mkdir. go. exact Hp. Qed.

Lemma triple_write_text p text :
  P (EvWriteText p text) -> triple I P (write_text os p text).
Proof. intros Hp. unfold write_text. go. exact Hp. Qed.

Ltac call :=
  first [ apply triple_run_or_echo
        | apply triple_input
        | apply triple_shell; live
        | apply triple_spawn; live ].

Ltac go' := repeat first [ progress go | call ].

Lemma triple_dry_run_sizes paths : triple I P (dry_run_sizes os paths).
Proof.
  induction paths as [|p rest IH]; cbn [dry_run_sizes]; [apply triple_ret|].
  apply triple_get_trace. intros t. apply triple_bind.
  - unfold spawn. go.
  - intros r. apply triple_bind; [apply triple_log; exact P_log|].
    intros _. exact IH.
Qed.

Lemma triple_dry_run_banner paths patterns :
  triple I P (dry_run_banner os paths patterns).
Proof. unfold dry_run_banner. go'. apply triple_dry_run_sizes. Qed.

Lemma triple_seven_password_args prompt :
  triple I P (seven_password_args os prompt).
Proof. unfold seven_password_args. go'. Qed.

Lemma triple_archive_zip_aes paths patterns :
  triple I P (archive_zip_aes os paths patterns).
Proof.
  unfold archive_zip_aes. go'; try apply triple_seven_password_args; go'.
Qed.

Lemma triple_archive_zip paths patterns :
  triple I P (archive_zip os paths patterns).
Proof. unfold archive_zip. go'. Qed.

Lemma triple_archive_tgz paths patterns :
  triple I P (archive_tgz os paths patterns).
Proof. unfold archive_tgz. go'. Qed.

Lemma triple_archive_tar paths patterns :
  triple I P (archive_tar os paths patterns).
Proof. unfold archive_tar. go'. Qed.

Lemma triple_archive_7z paths patterns :
  triple I P (archive_7z os paths patterns).
Proof.
  unfold archive_7z. go'; try apply triple_seven_password_args; go'.
Qed.

Lemma triple_archive_stage paths patterns :
  triple I P (archive_stage os paths patterns).
Proof.
  unfold archive_stage. go';
    auto using triple_archive_zip_aes, triple_archive_zip,
      triple_archive_tgz, triple_archive_tar, triple_archive_7z.
Qed.

Lemma triple_gpg_stage tmpfile : triple I P (gpg_stage os tmpfile).
Proof. unfold gpg_stage. go'. Qed.

Lemma triple_read_check n : triple I P (read_check os n).
Proof. unfold read_check. go'. Qed.

Lemma triple_lift {A} (r : Try A) : triple I P (lift r).
Proof. destruct r; [apply triple_ret | apply triple_raise]. Qed.

Lemma triple_write_chunks n chunks :
  dry = false -> triple I P (write_chunks os n chunks).
Proof.
  intros Hlive. induction chunks as [|[out chunk] rest IH];
    cbn [write_chunks].
  - apply triple_bind; [apply triple_read_check|]. intros. apply triple_ret.
  - apply triple_bind; [apply triple_read_check|]. intros _. go'. exact IH.
Qed.

Lemma triple_do_python_split path prefix b :
  dry = false -> triple I P (do_python_split os path prefix b).
Proof.
  intros Hlive. unfold do_python_split. go'.
  now apply triple_write_chunks.
Qed.

Lemma triple_split_stage primary_out :
  triple I P (split_stage os primary_out).
Proof.
  unfold split_stage. apply triple_get_globals. intros g Hg.
  destruct (g_truthy g "SPLIT_SIZE"); [|go'].
  apply triple_bind; [apply triple_lift|]. intros b.
  go'; try (apply triple_do_python_split; live); go'.
Qed.

Lemma triple_sha256_file path : triple I P (sha256_file os path).
Proof. unfold sha256_file. go'. Qed.

Lemma triple_checksum_one f : dry = false -> triple I P (checksum_one os f).
Proof.
  intros Hlive. unfold checksum_one. go'.
  - apply triple_sha256_file.
  - apply triple_mkdir. allowed.
  - apply triple_write_text. allowed.
Qed.

Lemma triple_checksum_echo f : triple I P (checksum_echo os f).
Proof. unfold checksum_echo. go'. Qed.

Lemma triple_checksum_stage files : triple I P (checksum_stage os files).
Proof.
  unfold checksum_stage. apply triple_get_globals. intros g Hg.
  destruct (g_truthy g "MAKE_CHECKSUM"); [|apply triple_ret].
  destruct (g_truthy g "DRY_RUN") eqn:E; cbn [negb]; cbv iota;
    apply triple_for_each; intros f.
  - apply triple_checksum_echo.
  - apply triple_checksum_one. live.
Qed.

Lemma triple_human_total_size files :
  triple I P (human_total_size os files).
Proof. unfold human_total_size. go'. Qed.

Lemma triple_summary_stage primary_out files :
  triple I P (summary_stage os primary_out files).
Proof.
  unfold summary_stage. apply triple_bind.
  { apply triple_set_global. intros g Hg. apply I_keep; [|exact Hg].
    unfold run_keys. decide_names. }
  intros _. apply triple_get_globals. intros g Hg.
  destruct (g_truthy g "MAKE_SUMMARY") eqn:Esum; [|apply triple_ret].
  apply triple_bind; [apply triple_mkdir; auto|]. intros _.
  apply triple_bind.
  { apply triple_set_global. intros g' Hg'. apply I_keep; [|exact Hg'].
    unfold run_keys. decide_names. }
  intros _. apply triple_bind.
  { destruct (g_truthy g "DRY_RUN");
      [apply triple_ret | apply triple_human_total_size]. }
  intros size. apply triple_get_trace. intros t.
  apply triple_bind; [apply triple_write_text; auto|]. intros _.
  apply triple_log. exact P_log.
Qed.

Lemma triple_collect_exclude_patterns :
  triple I P (collect_exclude_patterns os).
Proof. unfold collect_exclude_patterns. go'. Qed.

Lemma triple_make_archive paths : triple I P (make_archive os paths).
Proof.
  unfold make_archive. destruct paths as [|p rest]; [apply triple_raise|].
  apply triple_get_globals. intros g Hg.
  apply triple_bind; [apply triple_mkdir; auto|]. intros _.
  apply triple_bind.
  { apply triple_set_global. intros g' Hg'. apply I_keep; [|exact Hg'].
    unfold run_keys. decide_names. }
  intros _. apply triple_bind; [apply triple_log; exact P_log|]. intros _.
  apply triple_bind; [apply triple_collect_exclude_patterns|].
  intros patterns. apply triple_bind.
  { destruct (g_truthy g "DRY_RUN");
      [apply triple_dry_run_banner | apply triple_ret]. }
  intros _. apply triple_bind; [apply triple_archive_stage|].
  intros tmpfile. apply triple_bind; [apply triple_gpg_stage|].
  intros enc. apply triple_bind; [apply triple_split_stage|].
  intros files. apply triple_bind; [apply triple_checksum_stage|].
  intros _. apply triple_bind; [apply triple_summary_stage|].
  intros _. apply triple_ret.
Qed.

Lemma triple_transfer tool file target :
  dry = false -> triple I P (transfer os tool file target).
Proof. intros Hlive. unfold transfer. go'. Qed.

Lemma triple_upload_loop file target tool tries :
  dry = false ->
  forall n attempt delay,
    Z.to_nat (tries + 1 - attempt) = n ->
    triple I P (upload_loop os file target tool tries attempt delay).
Proof.
  intros Hlive. induction n as [|n IH]; intros attempt delay Hn;
    rewrite upload_loop_body;
    (destruct (decide (attempt ≤ tries)) as [Hle|Hgt];
     [try (exfalso; clear - Hle Hn; lia)|try (exfalso; clear - Hgt Hn; lia)]).
  - go'.
  - apply triple_bind; [apply triple_log; exact P_log|]. intros _.
    apply triple_bind; [now apply triple_transfer|]. intros r.
    destruct r as [rc|]; [|go'].
    destruct (rc =? 0); [go'|].
    apply triple_bind; [apply triple_log; exact P_log|]. intros _.
    apply triple_bind; [apply triple_emit; allowed|]. intros _.
    apply IH. clear - Hle Hn. lia.
Qed.

Lemma triple_auto_tool target : triple I P (auto_tool os target).
Proof. unfold auto_tool. go'. Qed.

Lemma triple_upload_one file : triple I P (upload_one os file).
Proof.
  assert (dry = true \/ dry = false) as [Edry|Edry]
    by (destruct dry; auto).
  - intros st HI.
    destruct (upload_retry os (globals st)) as [tries|] eqn:Eretry.
    + destruct (upload_one_run os file st tries Eretry)
        as (x & evs & Hrun & Hlogs & _).
      rewrite Hrun. exists evs. cbn. split; [reflexivity|].
      split; [|exact HI].
      eapply Forall_impl; [|exact P_log].
      apply Hlogs. exact (eq_trans (I_dry _ HI) Edry).
    + exists []. unfold upload_one, bind, get_globals. rewrite Eretry.
      cbn. rewrite app_nil_r. auto.
  - unfold upload_one. apply triple_get_globals. intros g Hg.
    destruct (upload_retry os g) as [tries|]; [|apply triple_raise].
    destruct (negb (Py.nonempty (g_str g "UPLOAD_TARGET")));
      [apply triple_ret|].
    apply triple_bind.
    { destruct (String.eqb _ "auto");
        [apply triple_auto_tool | apply triple_ret]. }
    intros tool. apply triple_bind; [apply triple_log; exact P_log|].
    intros _. eapply triple_upload_loop; [exact Edry | reflexivity].
Qed.

Lemma triple_upload_turn f : triple I P (upload_turn os f).
Proof.
  unfold upload_turn. go'; try apply triple_upload_one.
  apply triple_set_global. intros g' Hg'. apply I_keep; [|exact Hg'].
  unfold run_keys. decide_names.
Qed.

Lemma triple_upload_all files : triple I P (upload_all os files).
Proof.
  induction files as [|f rest IH]; cbn [upload_all]; [apply triple_ret|].
  apply triple_bind; [apply triple_upload_turn|]. intros here.
  apply triple_bind; [exact IH|]. intros later. apply triple_ret.
Qed.

Lemma triple_upload_stage files : triple I P (upload_stage os files).
Proof.
  unfold upload_stage. apply triple_bind.
  { apply triple_set_global. intros g Hg. apply I_keep; [|exact Hg].
    unfold run_keys. decide_names. }
  intros _. go'. apply triple_upload_all.
Qed.

End Pipeline.

(** ** The events of a notification *)

Section Notify.
Context (os : OS) (I : Globals -> Prop) (P : Event -> Prop) (dry : bool).
Context (env : Environ).
Hypothesis I_dry : forall g, I g -> g_truthy g "DRY_RUN" = dry.
Hypothesis P_log : forall e, is_log e -> P e.
Hypothesis P_shell : dry = false -> forall cmd r, P (EvShell cmd r).
Hypothesis P_plugin :
  dry = false ->
  forall p r, P (EvSpawn [p] (Some env) r)
              /\ P (EvSpawn [os_executable os; p] (Some env) r).

Lemma triple_notify_run_or_echo cmd : triple I P (run_or_echo os cmd).
Proof.
  unfold run_or_echo. apply triple_get_globals. intros g Hg.
  destruct (g_truthy g "DRY_RUN") eqn:E.
  - apply triple_bind; [now apply triple_log | intros _; apply triple_ret].
  - assert (dry = false) as Hlive by exact (eq_trans (eq_sym (I_dry g Hg)) E).
    apply triple_bind.
    + unfold shell. apply triple_get_trace. intros t.
      apply triple_bind; [apply triple_emit; auto | intros _; apply triple_ret].
    + intros [rc|e]; [apply triple_ret|].
      apply triple_bind; [now apply triple_log | intros _; apply triple_ret].
Qed.

Lemma triple_notify_telegram status base archive_path :
  triple I P (notify_telegram os status base archive_path).
Proof.
  unfold notify_telegram.
  repeat first
    [ apply triple_log; exact P_log
    | apply triple_command_exists
    | apply triple_notify_run_or_echo
    | triple_step ].
Qed.

Lemma triple_notify_email status base archive_path target :
  triple I P (notify_email os status base archive_path target).
Proof.
  unfold notify_email.
  repeat first
    [ apply triple_log; exact P_log
    | apply triple_command_exists
    | apply triple_notify_run_or_echo
    | triple_step ].
Qed.

Lemma triple_notify_one event status primary tgt :
  triple I P (notify_one os event status primary env tgt).
Proof.
  unfold notify_one. apply triple_get_globals. intros g Hg.
  destruct (String.eqb (Py.strip tgt) "telegram");
    [apply triple_notify_telegram|].
  destruct (String.eqb (Py.strip tgt) "email"); [apply triple_notify_email|].
  apply triple_get_trace. intros t. unfold _resolve_plugin.
  pose proof (scan_candidates_first os t
                (plugin_candidates (Py.strip tgt) (g_str g "PLUGINS_DIR")))
    as Hscan.
  destruct (scan_candidates os t _) as [[cmd p]|];
    [|apply triple_log; exact P_log].
  destruct (g_truthy g "DRY_RUN") eqn:E; [apply triple_log; exact P_log|].
  assert (dry = false) as Hlive by exact (eq_trans (eq_sym (I_dry g Hg)) E).
  destruct Hscan as (_ & _ & _ & _ & _ & ->).
  apply triple_bind.
  - unfold spawn. apply triple_get_trace. intros t'.
    apply triple_bind; [|intros _; apply triple_ret].
    apply triple_emit. destruct (os_access_x os t p); now apply P_plugin.
  - intros [rc|e]; [apply triple_ret | apply triple_log; exact P_log].
Qed.

End Notify.

Lemma plugin_env_payload os g event status primary files size :
  carries_payload os g event status primary files size
    (plugin_env os g event status primary files size).
Proof.
  unfold carries_payload, plugin_env.
  repeat split;
    try (repeat (rewrite lookup_insert_ne by discriminate);
         apply lookup_insert_eq).
  intros k Hk. unfold payload_keys in Hk.
  repeat (rewrite lookup_insert_ne;
          [|intros <-; apply Hk; decide_names]).
  reflexivity.
Qed.

Lemma is_log_no_spawn e : is_log e -> no_spawn e.
Proof. destruct e; simpl; auto. Qed.

Lemma logs_no_spawn evs : Forall is_log evs -> Forall no_spawn evs.
Proof. intros H. eapply Forall_impl; [exact H | apply is_log_no_spawn]. Qed.

(** A shell command line is no process started from an argument list. *)
Lemma run_or_echo_no_spawn os cmd st :
  exists rc evs,
    run_or_echo os cmd st = Ok rc (mkSt (globals st) (trace st ++ evs))
    /\ Forall no_spawn evs.
Proof.
  destruct (run_or_echo_run os cmd st) as (rc & evs & Hrun & Hmode).
  exists rc, evs. split; [exact Hrun|].
  destruct (g_truthy (globals st) "DRY_RUN").
  - destruct Hmode as [_ Hlogs]. now apply logs_no_spawn.
  - destruct Hmode as (r & logs & -> & Hlogs & _).
    constructor; [exact Logic.I | now apply logs_no_spawn].
Qed.

Lemma log_no_spawn msg st :
  exists evs,
    log msg st = Ok tt (mkSt (globals st) (trace st ++ evs))
    /\ Forall no_spawn evs.
Proof.
  eexists. split; [apply log_run|].
  apply logs_no_spawn, log_events_is_log.
Qed.

Lemma notify_telegram_run os status base archive_path st :
  exists evs,
    notify_telegram os status base archive_path st
    = Ok tt (mkSt (globals st) (trace st ++ evs))
    /\ Forall no_spawn evs.
Proof.
  unfold notify_telegram.
  destruct (negb _ || negb _); [apply log_no_spawn|].
  unfold bind at 1, command_exists, bind at 1, get_trace, ret.
  destruct (negb (os_which os (trace st) "curl")); [apply log_no_spawn|].
  match goal with
  | |- context [run_or_echo os ?cmd] =>
      destruct (run_or_echo_no_spawn os cmd st) as (rc & evs & Hrun & Hevs)
  end.
  rewrite (bind_ok _ _ _ _ _ Hrun). now exists evs.
Qed.

Lemma notify_email_run os status base archive_path target st :
  exists evs,
    notify_email os status base archive_path target st
    = Ok tt (mkSt (globals st) (trace st ++ evs))
    /\ Forall no_spawn evs.
Proof.
  unfold notify_email.
  destruct (negb _); [apply log_no_spawn|].
  unfold bind at 1, command_exists, bind at 1, get_trace, ret.
  destruct (os_which os (trace st) "mail").
  { match goal with
    | |- context [run_or_echo os ?cmd] =>
        destruct (run_or_echo_no_spawn os cmd st)
          as (rc & evs & Hrun & Hevs)
    end.
    rewrite (bind_ok _ _ _ _ _ Hrun). now exists evs. }
  unfold bind at 1, command_exists, bind at 1, get_trace, ret.
  destruct (os_which os (trace st) "mailx"); [|apply log_no_spawn].
  match goal with
  | |- context [run_or_echo os ?cmd] =>
      destruct (run_or_echo_no_spawn os cmd st) as (rc & evs & Hrun & Hevs)
  end.
  rewrite (bind_ok _ _ _ _ _ Hrun). now exists evs.
Qed.

(** One turn of the loop over [NOTIFY_TARGETS] returns, leaves the
    globals alone and adds the events of a turn. *)
Lemma notify_one_run os event status primary env tgt st :
  exists evs,
    notify_one os event status primary env tgt st
    = Ok tt (mkSt (globals st) (trace st ++ evs))
    /\ plugin_turn os (globals st) env (trace st) tgt evs.
Proof.
  unfold notify_one, plugin_turn, bind at 1, get_globals. cbv zeta.
  destruct (String.eqb (Py.strip tgt) "telegram"); cbn [orb];
    [apply notify_telegram_run|].
  destruct (String.eqb (Py.strip tgt) "email"); [apply notify_email_run|].
  unfold bind at 1, get_trace.
  destruct (_resolve_plugin os (trace st) (Py.strip tgt)
              (g_str (globals st) "PLUGINS_DIR")) as [[cmd p]|].
  2:{ eexists. split; [apply log_run | apply log_events_is_log]. }
  destruct (g_truthy (globals st) "DRY_RUN").
  { eexists. split; [apply log_run | apply log_events_is_log]. }
  unfold bind at 1, spawn, bind at 1, get_trace, bind at 1, emit, ret.
  cbn [globals trace].
  destruct (os_spawn os (trace st) cmd (Some env)) as [rc|e].
  - eexists. split; [reflexivity|]. exists (Returned rc), [].
    split; [reflexivity | constructor].
  - rewrite log_run. cbn [globals trace]. rewrite <- app_assoc.
    eexists. split; [reflexivity|].
    exists (Failed e), (log_events (globals st) ("ℹ️  Plugin error: " +:+ e)).
    split; [reflexivity | apply log_events_is_log].
Qed.

Lemma for_each_notified os event status primary env targets :
  forall st,
    exists evs,
      for_each (notify_one os event status primary env) targets st
      = Ok tt (mkSt (globals st) (trace st ++ evs))
      /\ notified os (globals st) env (trace st) targets (trace st ++ evs).
Proof.
  induction targets as [|tgt rest IH]; intros st; cbn [for_each notified].
  - exists []. unfold ret. rewrite app_nil_r. now destruct st.
  - destruct (notify_one_run os event status primary env tgt st)
      as (e1 & Hone & Hturn).
    rewrite (bind_ok _ _ _ _ _ Hone).
    destruct (IH (mkSt (globals st) (trace st ++ e1)))
      as (e2 & Hrest & Hnot).
    cbn [globals trace] in *. rewrite Hrest.
    exists (e1 ++ e2). rewrite app_assoc. split; [reflexivity|].
    exists e1. auto.
Qed.

(** Among the events of the turns, a process is started from an argument
    list only for a plugin: with the environment [env], outside dry-run
    and with no argument but the plugin itself. *)
Lemma notified_spawns os g env targets :
  forall t t',
    notified os g env t targets t' ->
    exists evs,
      t' = t ++ evs
      /\ forall argv oenv r,
          EvSpawn argv oenv r ∈ evs ->
          oenv = Some env /\ g_truthy g "DRY_RUN" = false
          /\ exists p, argv = [p] \/ argv = [os_executable os; p].
Proof.
  induction targets as [|tgt rest IH]; intros t t'; cbn [notified].
  - intros ->. exists []. rewrite app_nil_r. split; [reflexivity|].
    intros argv oenv r Hin. now apply elem_of_nil in Hin.
  - intros (e1 & Hturn & Hrest).
    destruct (IH _ _ Hrest) as (e2 & -> & Hspawn2).
    exists (e1 ++ e2). rewrite app_assoc. split; [reflexivity|].
    intros argv oenv r Hin. apply elem_of_app in Hin as [Hin|Hin];
      [|now apply (Hspawn2 argv oenv r)].
    assert (Forall no_spawn e1 -> False) as Hnone.
    { intros H. rewrite Forall_forall in H. exact (H _ Hin). }
    unfold plugin_turn in Hturn. cbv zeta in Hturn.
    destruct (String.eqb (Py.strip tgt) "telegram"
              || String.eqb (Py.strip tgt) "email");
      [now destruct Hnone|].
    unfold _resolve_plugin in Hturn.
    pose proof (scan_candidates_first os t
                  (plugin_candidates (Py.strip tgt) (g_str g "PLUGINS_DIR")))
      as Hscan.
    destruct (scan_candidates os t _) as [[cmd p]|];
      [|destruct Hnone; now apply logs_no_spawn].
    destruct (g_truthy g "DRY_RUN");
      [destruct Hnone; now apply logs_no_spawn|].
    destruct Hturn as (r' & logs & -> & Hlogs).
    apply elem_of_cons in Hin as [Hin|Hin].
    + injection Hin as -> -> ->. split; [reflexivity|].
      split; [reflexivity|].
      destruct Hscan as (_ & _ & _ & _ & _ & ->).
      exists p. destruct (os_access_x os t p); auto.
    + exfalso. apply logs_no_spawn in Hlogs.
      rewrite Forall_forall in Hlogs. exact (Hlogs _ Hin).
Qed.

(** C5.  [run_plugins] returns, and the turns of its loop follow one
    another over [NOTIFY_TARGETS]: outside dry-run every target that
    resolves to a plugin is started, by the resolved command alone, with
    one environment that holds the whole payload under its twelve names
    (the event name, the status, the summary-file path, the primary
    archive path, the file list joined by newlines, the output directory,
    the base name, the log-file path, the notify-config string, the upload
    target, the dry-run flag, which is "0" whenever a process is started,
    and the human-readable total size) on top of the environment of the
    tool.  No process is started from an argument list with any other
    environment, with none, or with a further argument. *)
Theorem plugin_receives_env os event status primary files st :
  dry_run_is_int (globals st) ->
  let g := globals st in
  let st1 := mkSt g (trace st ++ [EvDispatch event status]) in
  exists size env evs,
    run_plugins os event status primary files st
    = Ok tt (mkSt g (trace st1 ++ evs))
    /\ (if g_truthy g "DRY_RUN" then size = "(estimasi)"
        else human_total_size os files st1 = Ok size st1)
    /\ carries_payload os g event status primary files size env
    /\ (g_truthy g "DRY_RUN" = false -> env !! "DRY_RUN" = Some "0")
    /\ notified os g env (trace st1) (g_list g "NOTIFY_TARGETS")
         (trace st1 ++ evs)
    /\ forall argv oenv r,
        EvSpawn argv oenv r ∈ evs ->
        oenv = Some env /\ g_truthy g "DRY_RUN" = false
        /\ exists p, argv = [p] \/ argv = [os_executable os; p].
Proof.
  intros [d Hd] g st1.
  unfold run_plugins, bind at 1, emit. fold g st1.
  unfold bind at 1, get_globals. cbn [globals st1]. fold st1.
  set (size := if g_truthy g "DRY_RUN" then "(estimasi)"
               else size_ladder ["B"; "KB"; "MB"; "GB"; "TB"]
                      (total_size os (trace st1) files) 1).
  set (env := plugin_env os g event status primary files size).
  assert ((if g_truthy g "DRY_RUN" then ret "(estimasi)"
           else human_total_size os files) st1 = Ok size st1) as Hsize.
  { unfold size. now destruct (g_truthy g "DRY_RUN"). }
  rewrite (bind_ok _ _ _ _ _ Hsize). fold env.
  destruct (for_each_notified os event status primary env
              (g_list g "NOTIFY_TARGETS") st1) as (evs & Hrun & Hnot).
  change (globals st1) with g in Hrun, Hnot.
  exists size, env, evs. split; [exact Hrun|].
  pose proof (plugin_env_payload os g event status primary files size)
    as Hpay.
  fold env in Hpay.
  split; [unfold size; now destruct (g_truthy g "DRY_RUN")|].
  split; [exact Hpay|].
  split.
  { intros Hlive.
    destruct Hpay as (_ & _ & _ & _ & _ & _ & _ & _ & _ & _ & H11 & _).
    rewrite H11. f_equal. change (g !! "DRY_RUN" = Some (VInt d)) in Hd.
    unfold g_fmt. unfold g_truthy in Hlive. rewrite Hd in Hlive |- *.
    cbn in Hlive. apply negb_false_iff, Z.eqb_eq in Hlive. now subst d. }
  split; [exact Hnot|].
  destruct (notified_spawns _ _ _ _ _ _ Hnot) as (evs' & Heq & Hspawn).
  apply app_inv_head in Heq. now subst evs'.
Qed.

Lemma plugin_receives_env_witness :
  let st := configured kind_os [("NOTIFY_TARGETS", VList ["post-webhook"]);
                                ("BASE", VStr "nightly")] in
  dry_run_is_int (globals st)
  /\ exists env r logs,
      trace (final (run_plugins kind_os "on_success" "success"
                      "/b/nightly.zip" ["/b/nightly.zip"] st))
      = trace st ++ EvDispatch "on_success" "success"
                 :: EvSpawn ["./plugins.d/post-webhook"] (Some env) r
                 :: logs
      /\ env !! "EVENT" = Some "on_success"
      /\ env !! "BASE_NAME" = Some "nightly"
      /\ env !! "DRY_RUN" = Some "0".
Proof.
  intros st.
  assert (dry_run_is_int (globals st)) as Hint by (exists 0; reflexivity).
  split; [exact Hint|].
  destruct (plugin_receives_env kind_os "on_success" "success"
              "/b/nightly.zip" ["/b/nightly.zip"] st Hint)
    as (size & env & evs & Hrun & _ & Hpay & Hzero & Hnot & _).
  destruct Hpay as (H1 & _ & _ & _ & _ & _ & H7 & _).
  assert (g_list (globals st) "NOTIFY_TARGETS" = ["post-webhook"]) as Ht
    by reflexivity.
  rewrite Ht in Hnot. cbn [notified] in Hnot.
  destruct Hnot as (e1 & Hturn & Hend).
  assert (exists r logs,
             e1 = EvSpawn ["./plugins.d/post-webhook"] (Some env) r :: logs)
    as (r & logs & ->).
  { vm_compute in Hturn. destruct Hturn as (r & logs & -> & _).
    now exists r, logs. }
  exists env, r, logs. rewrite Hrun. cbn [final trace].
  apply app_inv_head in Hend. rewrite Hend, <- app_assoc.
  split; [reflexivity|]. split; [exact H1|]. split; [exact H7|].
  apply Hzero. reflexivity.
Defined.

Example plugin_is_started :
  exists env,
    trace (final (run_plugins kind_os "on_success" "success"
                    "/b/nightly.zip" ["/b/nightly.zip"]
                    (configured kind_os
                       [("NOTIFY_TARGETS", VList ["post-webhook"]);
                        ("BASE", VStr "nightly")])))
    = [EvDispatch "on_success" "success";
       EvSpawn ["./plugins.d/post-webhook"] (Some env) (Returned 0)]
    /\ env !! "FILES" = Some "/b/nightly.zip"
    /\ env !! "TOTAL_SIZE" = Some "0.0 B".
Proof.
  eexists. split; [vm_compute; reflexivity|]. split; vm_compute; reflexivity.
Qed.

(** ** Configuration *)

Lemma g_list_insert_eq g k l : g_list (<[k := VList l]> g) k = l.
Proof. unfold g_list. now rewrite lookup_insert_eq. Qed.

Lemma g_list_insert_ne g k k' v :
  k <> k' -> g_list (<[k := v]> g) k' = g_list g k'.
Proof. intros H. unfold g_list. now rewrite lookup_insert_ne. Qed.

Lemma config_line_upd os line : is_upd (config_line os line) (cfg_upd os line).
Proof.
  intros st. unfold config_line, cfg_upd, add_excludes_from_arg,
    append_global, bind, get_globals, set_global, ret.
  destruct (parse_config_line line) as [[k v]|]; [|now destruct st].
  repeat match goal with
         | |- context [if ?b then _ else _] => destruct b
         end;
    try reflexivity; try (now destruct st).
Qed.

Lemma for_each_config_upd os lines :
  is_upd (for_each (config_line os) lines) (cfg_load os lines).
Proof.
  induction lines as [|line rest IH]; intros st; cbn.
  - now destruct st.
  - unfold bind. rewrite config_line_upd. apply (IH (mkSt _ _)).
Qed.

(** A key of the two tables of scalar keys is no list global. *)
Lemma scalar_key_not_list k L :
  existsb (String.eqb k) CFG_STR_KEYS
  || existsb (String.eqb k) CFG_BOOL_KEYS = true ->
  L ∈ list_keys -> k <> L.
Proof.
  intros Hk HL ->. unfold list_keys in HL.
  repeat (apply elem_of_cons in HL as [->|HL]; [discriminate Hk|]).
  now apply elem_of_nil in HL.
Qed.

(** One line leaves a name outside the list globals alone, or gives it a
    value that does not depend on the globals. *)
Lemma cfg_upd_scalar os line k :
  k ∉ list_keys ->
  (exists c, forall g, cfg_upd os line g !! k = c)
  \/ (forall g, cfg_upd os line g !! k = g !! k).
Proof.
  intros Hk. unfold cfg_upd.
  assert (k <> "EXCLUDES" /\ k <> "SOURCES" /\ k <> "NOTIFY_TARGETS")
    as (H1 & H2 & H3).
  { repeat split; intros ->; apply Hk; unfold list_keys; decide_names. }
  destruct (parse_config_line line) as [[k' v]|]; [|now right].
  destruct (existsb (String.eqb k') CFG_STR_KEYS).
  { destruct (decide (k' = k)) as [->|Hne].
    - left. eexists. intros g. apply lookup_insert_eq.
    - right. intros g. now apply lookup_insert_ne. }
  destruct (existsb (String.eqb k') CFG_BOOL_KEYS).
  { destruct (decide (k' = k)) as [->|Hne].
    - left. eexists. intros g. apply lookup_insert_eq.
    - right. intros g. now apply lookup_insert_ne. }
  right. intros g.
  repeat match goal with
         | |- context [if ?b then _ else _] => destruct b
         end; try reflexivity; now apply lookup_insert_ne.
Qed.

Lemma cfg_load_scalar os lines k :
  k ∉ list_keys ->
  (forall g1 g2, cfg_load os lines g1 !! k = cfg_load os lines g2 !! k)
  \/ (forall g, cfg_load os lines g !! k = g !! k).
Proof.
  intros Hk. induction lines as [|line rest IH]; [now right|].
  unfold cfg_load in *. cbn [fold_left].
  destruct IH as [IH|IH]; [left; intros; apply IH|].
  destruct (cfg_upd_scalar os line k Hk) as [[c Hc]|Hkeep].
  - left. intros g1 g2. now rewrite !IH, !Hc.
  - right. intros g. now rewrite IH, Hkeep.
Qed.

(** One line appends its entries to a list global. *)
Lemma cfg_upd_list os line L g :
  L ∈ list_keys ->
  g_list (cfg_upd os line g) L = g_list g L ++ line_items L line.
Proof.
  intros HL. unfold cfg_upd, line_items.
  destruct (parse_config_line line) as [[k v]|]; [|now rewrite app_nil_r].
  destruct (existsb (String.eqb k) CFG_STR_KEYS) eqn:Es.
  { cbn [orb]. rewrite app_nil_r. apply g_list_insert_ne.
    apply scalar_key_not_list; [now rewrite Es | assumption]. }
  destruct (existsb (String.eqb k) CFG_BOOL_KEYS) eqn:Eb.
  { cbn [orb]. rewrite app_nil_r. apply g_list_insert_ne.
    apply scalar_key_not_list; [now rewrite Es, Eb | assumption]. }
  cbn [orb]. unfold list_keys in HL.
  apply elem_of_cons in HL as [->|HL];
    [|apply elem_of_cons in HL as [->|HL];
      [|apply elem_of_cons in HL as [->|HL];
        [|now apply elem_of_nil in HL]]];
    cbn [config_key String.eqb Ascii.eqb Bool.eqb];
    change (config_key _) with "NOTIFY" || idtac.
  - destruct (String.eqb k "EXCLUDES") eqn:E1.
    + destruct (Py.nonempty v) eqn:Ev; cbn [negb].
      * apply g_list_insert_eq.
      * destruct v; [|discriminate]. now rewrite app_nil_r.
    + destruct (String.eqb k "SOURCES");
        [rewrite app_nil_r; now apply g_list_insert_ne|].
      destruct (String.eqb k "NOTIFY");
        [rewrite app_nil_r; now apply g_list_insert_ne|].
      now rewrite app_nil_r.
  - destruct (String.eqb k "EXCLUDES") eqn:E1.
    + apply String.eqb_eq in E1. subst k. cbn.
      destruct (Py.nonempty v); cbn [negb]; rewrite app_nil_r;
        [now apply g_list_insert_ne | reflexivity].
    + destruct (String.eqb k "SOURCES"); [apply g_list_insert_eq|].
      destruct (String.eqb k "NOTIFY");
        [rewrite app_nil_r; now apply g_list_insert_ne|].
      now rewrite app_nil_r.
  - destruct (String.eqb k "EXCLUDES") eqn:E1.
    + apply String.eqb_eq in E1. subst k. cbn.
      destruct (Py.nonempty v); cbn [negb]; rewrite app_nil_r;
        [now apply g_list_insert_ne | reflexivity].
    + destruct (String.eqb k "SOURCES") eqn:E2.
      * apply String.eqb_eq in E2. subst k. cbn. rewrite app_nil_r.
        now apply g_list_insert_ne.
      * destruct (String.eqb k "NOTIFY"); [apply g_list_insert_eq|].
        now rewrite app_nil_r.
Qed.

Lemma cfg_load_list os lines L :
  L ∈ list_keys ->
  forall g, g_list (cfg_load os lines g) L = g_list g L ++ file_items L lines.
Proof.
  intros HL. induction lines as [|line rest IH]; intros g.
  - cbn. now rewrite app_nil_r.
  - unfold cfg_load, file_items in *. cbn [fold_left flat_map].
    now rewrite IH, cfg_upd_list, <- app_assoc.
Qed.

Lemma not_list_key k : k ∉ list_keys -> forall L, L ∈ list_keys -> k <> L.
Proof. intros Hk L HL ->. contradiction. Qed.

Lemma lockstep_ret : lockstep (ret tt).
Proof. exists (fun g => g). split; [intros []; reflexivity | auto]. Qed.

Lemma lockstep_bind m k :
  lockstep m -> lockstep k -> lockstep (m;; k).
Proof.
  intros (f & Hf & Rf) (h & Hh & Rh). exists (fun g => h (f g)).
  split; [|auto]. intros st. unfold bind. rewrite Hf. apply (Hh (mkSt _ _)).
Qed.

Lemma lists_after_insert P1 P2 g1 g2 k v :
  k ∉ list_keys -> lists_after P1 P2 g1 g2 ->
  lists_after P1 P2 (<[k := v]> g1) (<[k := v]> g2).
Proof.
  intros Hk [Hs Hl]. split.
  - intros k' Hk'. destruct (decide (k = k')) as [->|Hne].
    + now rewrite !lookup_insert_eq.
    + rewrite !lookup_insert_ne by assumption. auto.
  - intros L HL. rewrite !g_list_insert_ne by now apply not_list_key. auto.
Qed.

Lemma lockstep_set k v : k ∉ list_keys -> lockstep (set_global k v).
Proof.
  intros Hk. exists (fun g => <[k := v]> g).
  split; [intros st; reflexivity|].
  intros P1 P2 g1 g2. now apply lists_after_insert.
Qed.

Lemma lockstep_append L items :
  L ∈ list_keys -> lockstep (append_global L items).
Proof.
  intros HL. exists (fun g => <[L := VList (g_list g L ++ items)]> g).
  split; [intros st; reflexivity|]. intros P1 P2 g1 g2 [Hs Hl]. split.
  - intros k Hk. rewrite !lookup_insert_ne; auto;
      intros ->; contradiction.
  - intros L' HL'. destruct (decide (L = L')) as [<-|Hne].
    + rewrite !g_list_insert_eq. destruct (Hl L HL) as (X & -> & ->).
      exists (X ++ items). now rewrite !app_assoc.
    + rewrite !g_list_insert_ne by assumption. auto.
Qed.

Lemma lockstep_if (b : bool) m1 m2 :
  lockstep m1 -> lockstep m2 -> lockstep (if b then m1 else m2).
Proof. now destruct b. Qed.

Lemma lockstep_set_if_str k value :
  k ∉ list_keys -> lockstep (set_if_str k value).
Proof. intros. apply lockstep_if; auto using lockstep_set, lockstep_ret. Qed.

Lemma lockstep_set_if_flag k flag :
  k ∉ list_keys -> lockstep (set_if_flag k flag).
Proof. intros. apply lockstep_if; auto using lockstep_set, lockstep_ret. Qed.

Lemma lockstep_add_excludes raw : lockstep (add_excludes_from_arg raw).
Proof.
  apply lockstep_if; [apply lockstep_ret|].
  apply lockstep_append. unfold list_keys. decide_names.
Qed.

Lemma lockstep_for_each body l :
  (forall x, lockstep (body x)) -> lockstep (for_each body l).
Proof.
  intros Hb. induction l as [|x l IH]; cbn;
    auto using lockstep_ret, lockstep_bind.
Qed.

(** The last step of [apply_args]: keeping the archive wins over removing
    it. *)
Lemma lockstep_keep_wins :
  lockstep (g <- get_globals;;
            if g_truthy g "KEEP_AFTER_SPLIT" && g_truthy g "RM_AFTER_SPLIT"
            then set_global "RM_AFTER_SPLIT" (VInt 0) else ret tt).
Proof.
  exists (fun g => if g_truthy g "KEEP_AFTER_SPLIT"
                      && g_truthy g "RM_AFTER_SPLIT"
                   then <["RM_AFTER_SPLIT" := VInt 0]> g else g).
  split.
  - intros st. unfold bind, get_globals.
    destruct (_ && _); [reflexivity | now destruct st].
  - intros P1 P2 g1 g2 H.
    assert (g_truthy g1 "KEEP_AFTER_SPLIT" = g_truthy g2 "KEEP_AFTER_SPLIT"
            /\ g_truthy g1 "RM_AFTER_SPLIT" = g_truthy g2 "RM_AFTER_SPLIT")
      as [-> ->].
    { destruct H as [Hs _]. unfold g_truthy.
      rewrite !Hs by (unfold list_keys; decide_names). auto. }
    destruct (_ && _); [|exact H].
    apply lists_after_insert; [unfold list_keys; decide_names | exact H].
Qed.

Lemma lockstep_apply_cli args : lockstep (apply_cli args).
Proof.
  unfold apply_cli.
  repeat (apply lockstep_bind;
          [first [ apply lockstep_set_if_str; unfold list_keys; decide_names
                 | apply lockstep_set_if_flag; unfold list_keys; decide_names
                 | apply lockstep_append; unfold list_keys; decide_names
                 | apply lockstep_for_each; intros; apply lockstep_add_excludes
                 | apply lockstep_if;
                   [apply lockstep_set; unfold list_keys; decide_names
                   |apply lockstep_ret] ]|]).
  apply lockstep_keep_wins.
Qed.

Lemma load_config_file_run os file lines st :
  Py.nonempty file = true ->
  os_is_file os (trace st) file = true ->
  os_read_lines os (trace st) file = Some lines ->
  load_config_file os file st
  = Ok tt (mkSt (cfg_load os lines (globals st)) (trace st)).
Proof.
  intros Hf Hi Hr. unfold load_config_file, bind, get_trace.
  rewrite Hf, Hi, Hr. cbn. apply for_each_config_upd.
Qed.

(** C9.  When the config file named on the command line exists, [main]
    loads it twice (itself, then through [apply_args]).  Compared with
    loading it once, as [apply_args] alone does: every entry the file
    gives for EXCLUDES, SOURCES and NOTIFY stands twice in the resulting
    list, the entries of the command line following once; every other
    global (the scalar and boolean keys among them) ends with the same
    value. *)
Theorem config_loaded_twice os args st lines :
  let file := a_CONFIG_FILE args in
  Py.nonempty file = true ->
  os_is_file os (trace st) file = true ->
  os_read_lines os (trace st) file = Some lines ->
  exists once twice,
    apply_args os args st = Ok tt once
    /\ resolve_config os args st = Ok tt twice
    /\ (forall k, k ∉ list_keys -> globals twice !! k = globals once !! k)
    /\ (forall L, L ∈ list_keys ->
          exists cli,
            g_list (globals once) L
            = g_list (globals st) L ++ file_items L lines ++ cli
            /\ g_list (globals twice) L
               = g_list (globals st) L ++ file_items L lines
                 ++ file_items L lines ++ cli).
Proof.
  intros file Hf Hi Hr.
  destruct (lockstep_apply_cli args) as (f & Hcli & Rcli).
  set (g0 := globals st).
  set (with_cf := fun g : Globals => <["CONFIG_FILE" := VStr file]> g).
  set (gA := cfg_load os lines (with_cf g0)).
  set (gB := cfg_load os lines (with_cf (cfg_load os lines g0))).
  assert (forall g, apply_args os args (mkSt g (trace st))
                    = Ok tt (mkSt (f (cfg_load os lines (with_cf g))) (trace st)))
    as Happly.
  { intros g. unfold apply_args. fold file. rewrite Hf.
    unfold bind at 1. unfold bind at 1, set_global. cbn [globals trace].
    rewrite (load_config_file_run os file lines) by assumption.
    apply (Hcli (mkSt _ _)). }
  exists (mkSt (f gA) (trace st)), (mkSt (f gB) (trace st)).
  split; [destruct st; apply Happly|].
  split.
  { unfold resolve_config. fold file. rewrite Hf.
    rewrite (bind_ok _ _ _ _ _
               (load_config_file_run os file lines st Hf Hi Hr)).
    apply Happly. }
  assert (forall L, L ∈ list_keys -> "CONFIG_FILE" <> L) as Hcf.
  { intros L HL <-. revert HL. unfold list_keys. decide_names. }
  assert (lists_after
            (fun L => g_list g0 L ++ file_items L lines)
            (fun L => g_list g0 L ++ file_items L lines
                      ++ file_items L lines) gA gB) as Hrel.
  { split.
    - intros k Hk. unfold gA, gB.
      destruct (cfg_load_scalar os lines k Hk) as [Hconst|Hkeep];
        [apply Hconst|].
      rewrite !Hkeep. unfold with_cf.
      destruct (decide ("CONFIG_FILE" = k)) as [<-|Hne].
      + now rewrite !lookup_insert_eq.
      + rewrite !lookup_insert_ne by assumption. now rewrite Hkeep.
    - intros L HL. exists []. unfold gA, gB, with_cf.
      rewrite !cfg_load_list, !g_list_insert_ne, cfg_load_list
        by auto.
      now rewrite !app_nil_r, <- !app_assoc. }
  apply Rcli in Hrel. destruct Hrel as [Hs Hl]. cbn [globals].
  split; [intros k Hk; symmetry; auto|].
  intros L HL. destruct (Hl L HL) as (X & H1 & H2). exists X.
  now rewrite H1, H2, <- !app_assoc.
Qed.

Lemma config_loaded_twice_witness :
  let st := fresh (defaults config_os) in
  let args := only_config "backup.conf" in
  Py.nonempty (a_CONFIG_FILE args) = true
  /\ os_is_file config_os (trace st) (a_CONFIG_FILE args) = true
  /\ exists once twice,
      apply_args config_os args st = Ok tt once
      /\ resolve_config config_os args st = Ok tt twice
      /\ (forall k, k ∉ list_keys ->
                    globals twice !! k = globals once !! k).
Proof.
  intros st args. split; [reflexivity|]. split; [reflexivity|].
  destruct (config_loaded_twice config_os args st
              ["EXCLUDES=*.log,.git/*" +:+ Py.nl; "DRY_RUN=yes" +:+ Py.nl;
               "NOTIFY=telegram" +:+ Py.nl])
    as (once & twice & H1 & H2 & H3 & _); try reflexivity.
  exists once, twice. auto.
Defined.

Example config_entries_doubled :
  exists st',
    resolve_config config_os (only_config "backup.conf")
      (fresh (defaults config_os)) = Ok tt st'
    /\ g_list (globals st') "EXCLUDES" = ["*.log"; ".git/*"; "*.log"; ".git/*"]
    /\ g_list (globals st') "NOTIFY_TARGETS" = ["telegram"; "telegram"]
    /\ globals st' !! "DRY_RUN" = Some (VInt 1).
Proof.
  eexists. split; [vm_compute; reflexivity|].
  split; [|split]; vm_compute; reflexivity.
Qed.

(** ** The split stage and the size string *)

Lemma triple_ok {A} I P (m : M A) s a s' :
  triple I P m -> I (globals s) -> m s = Ok a s' -> I (globals s').
Proof.
  intros Hm HI E. destruct (Hm s HI) as (evs & _ & _ & HI').
  now rewrite E in HI'.
Qed.

Lemma same_but_keep keys g0 g k v :
  k ∈ keys -> same_but keys g0 g -> same_but keys g0 (<[k := v]> g).
Proof.
  intros Hk H k' Hk'. rewrite lookup_insert_ne; [now apply H|].
  intros ->. contradiction.
Qed.

Lemma same_but_dry g0 g :
  same_but run_keys g0 g -> g_truthy g "DRY_RUN" = g_truthy g0 "DRY_RUN".
Proof.
  intros H. apply (same_but_truthy run_keys); [exact H|].
  unfold run_keys. decide_names.
Qed.

(** The side conditions of the pipeline lemmas when every event is
    allowed and the invariant is "the configuration is that of [g0]". *)
Ltac frame_conditions g0 :=
  first [ exact (same_but_dry g0)
        | (intros ? ? ? ?; now apply same_but_keep)
        | (intros; exact Logic.I) ].

(** With an unusable size the split stage logs one line and keeps the
    archive as the only file. *)
Lemma split_stage_unsplit os primary st :
  parse_split_size (os_py os) (g_str (globals st) "SPLIT_SIZE") = Val None
  \/ parse_split_size (os_py os) (g_str (globals st) "SPLIT_SIZE")
     = Val (Some 0) ->
  exists msg,
    split_stage os primary st
    = Ok [primary]
         (mkSt (globals st) (trace st ++ log_events (globals st) msg)).
Proof.
  intros Hparse. unfold split_stage, bind at 1, get_globals.
  destruct (g_truthy (globals st) "SPLIT_SIZE").
  - destruct Hparse as [-> | ->]; eexists; unfold lift, bind at 1, ret;
      now rewrite (bind_ok _ _ _ _ _ (log_run _ _)).
  - eexists. now rewrite (bind_ok _ _ _ _ _ (log_run _ _)).
Qed.

(** The files [make_archive] returns are those of its split stage, run
    under the configuration [make_archive] started with. *)
Lemma make_archive_files os paths st primary files st' :
  make_archive os paths st = Ok (primary, files) st' ->
  exists s1 s2,
    same_but run_keys (globals st) (globals s1)
    /\ split_stage os primary s1 = Ok files s2.
Proof.
  intros H. unfold make_archive in H.
  destruct paths as [|p rest]; [discriminate|].
  set (g0 := globals st) in *.
  set (I := same_but run_keys g0).
  set (P := fun _ : Event => True).
  set (dry := g_truthy g0 "DRY_RUN").
  assert (I (globals st)) as HI0 by apply same_but_refl.
  unfold bind at 1, get_globals in H. fold g0 in H.
  unfold bind at 1 in H.
  destruct (mkdir os (g_str g0 "OUT_DIR") st) as [[] s|] eqn:E;
    [|discriminate].
  eapply (triple_ok I P) in E; [|apply triple_mkdir; exact Logic.I|exact HI0].
  unfold bind at 1, set_global at 1 in H.
  set (sa := mkSt _ (trace s)) in H.
  assert (I (globals sa)) as HIa
    by (apply same_but_keep; [unfold run_keys; decide_names | exact E]).
  unfold bind at 1 in H. rewrite log_run in H.
  set (sb := mkSt (globals sa) _) in H.
  unfold bind at 1 in H.
  destruct (collect_exclude_patterns os sb) as [patterns sc|] eqn:Ec;
    [|discriminate].
  eapply (triple_ok I P) in Ec;
    [|apply triple_collect_exclude_patterns|exact HIa].
  unfold bind at 1 in H.
  destruct ((if g_truthy g0 "DRY_RUN"
             then dry_run_banner os (p :: rest) patterns else ret tt) sc)
    as [[] sd|] eqn:Ed; [|discriminate].
  eapply (triple_ok I P) in Ed; [| |exact Ec].
  2:{ destruct (g_truthy g0 "DRY_RUN"); [|apply triple_ret].
      apply (triple_dry_run_banner os I P); frame_conditions g0. }
  unfold bind at 1 in H.
  destruct (archive_stage os (p :: rest) patterns sd) as [tmpfile se|] eqn:Ee;
    [|discriminate].
  eapply (triple_ok I P) in Ee; [| |exact Ed].
  2:{ apply (triple_archive_stage os I P dry); frame_conditions g0. }
  unfold bind at 1 in H.
  destruct (gpg_stage os tmpfile se) as [enc sf|] eqn:Ef; [|discriminate].
  eapply (triple_ok I P) in Ef; [| |exact Ee].
  2:{ apply (triple_gpg_stage os I P dry); frame_conditions g0. }
  unfold bind at 1 in H.
  destruct (split_stage os _ sf) as [files' sg|] eqn:Eg; [|discriminate].
  unfold bind at 1 in H.
  destruct (checksum_stage os files' sg) as [[] sh|]; [|discriminate].
  unfold bind at 1 in H.
  destruct (summary_stage os _ files' sh) as [[] si|]; [|discriminate].
  injection H as <- <- <-. eauto.
Qed.

Lemma sample_py_ok : decimal_digits_ok sample_py.
Proof.
  intros c d. unfold sample_py. cbn [Py.py_decimal].
  destruct (Py.between 65296 65305 c) eqn:E; [|discriminate].
  intros [= <-]. unfold Py.between in E.
  apply andb_true_iff in E as [H1 H2]. apply N.leb_le in H1, H2.
  split; [lia|]. unfold Py.is_uspace, Py.between.
  repeat (apply orb_false_iff; split);
    first [ apply N.eqb_neq; lia
          | apply andb_false_iff; right; apply N.leb_gt; lia ].
Qed.

(** C3 (amended).  A size text which, once the white space around it is
    stripped, is made of one or more decimal digits and one unit letter
    k, m or g of either case, the digits being no more than [int]
    converts, parses to exactly N * 1024, N * 1024^2 or N * 1024^3.  A
    text that is not of that form once stripped parses to nothing.  When
    the configured size parses to nothing, the split stage writes one log
    line (the warning when a size was given) and returns the unsplit
    artifact alone, and that list is what [make_archive] hands to the
    upload whenever it returns. *)
Theorem parse_split_size_spec :
  (forall py s ds u,
     decimal_digits_ok py ->
     Py.trim Py.is_uspace (Py.codepoints s) = ds ++ [u] ->
     ds <> [] -> forallb (is_decimal py) ds = true -> is_unit u = true ->
     Py.too_long py (length ds) = false ->
     parse_split_size py s
     = Val (Some (decimal_val py ds * 1024 ^ unit_exp u)))
  /\ (forall py s,
        ~ size_form py (Py.trim Py.is_uspace (Py.codepoints s)) ->
        parse_split_size py s = Val None)
  /\ (forall os primary st,
        let g := globals st in
        parse_split_size (os_py os) (g_str g "SPLIT_SIZE") = Val None ->
        split_stage os primary st
        = Ok [primary]
             (mkSt g (trace st ++
                log_events g
                  (if g_truthy g "SPLIT_SIZE"
                   then "⚠️  Nilai --split tidak valid, melewati split"
                   else "✅ Arsip siap: 📦 " +:+ primary))))
  /\ (forall os paths st primary files st',
        parse_split_size (os_py os) (g_str (globals st) "SPLIT_SIZE")
        = Val None ->
        make_archive os paths st = Ok (primary, files) st' ->
        files = [primary]).
Proof.
  split.
  { intros py s ds u Hok Hs Hne Hd Hu Hlen.
    rewrite (parse_split_size_form py s ds u) by assumption.
    now rewrite Hlen. }
  split; [exact parse_split_size_none|].
  split.
  - intros os primary st g Hparse.
    unfold split_stage, bind at 1, get_globals. fold g.
    destruct (g_truthy g "SPLIT_SIZE").
    + rewrite Hparse. unfold lift, bind at 1, ret.
      now rewrite (bind_ok _ _ _ _ _ (log_run _ _)).
    + now rewrite (bind_ok _ _ _ _ _ (log_run _ _)).
  - intros os paths st primary files st' Hparse Hrun.
    apply make_archive_files in Hrun as (s1 & s2 & Hsame & Hsplit).
    assert (g_str (globals s1) "SPLIT_SIZE"
            = g_str (globals st) "SPLIT_SIZE") as Hsize.
    { apply (same_but_str run_keys); [exact Hsame|].
      unfold run_keys. decide_names. }
    destruct (split_stage_unsplit os primary s1) as (msg & Hmsg).
    { left. now rewrite Hsize. }
    rewrite Hmsg in Hsplit. now injection Hsplit as <- _.
Qed.

Lemma parse_split_size_spec_witness :
  parse_split_size sample_py "100M" = Val (Some (100 * 1024 ^ 2))
  /\ parse_split_size sample_py "ten" = Val None
  /\ (exists st',
        split_stage kind_os "a.tar"
          (configured kind_os [("SPLIT_SIZE", VStr "ten")])
        = Ok ["a.tar"] st')
  /\ (exists primary st',
        make_archive kind_os ["/data"]
          (configured kind_os [("SPLIT_SIZE", VStr "ten");
                               ("DRY_RUN", VInt 1)])
        = Ok (primary, [primary]) st').
Proof.
  destruct parse_split_size_spec as (Hform & Hnone & Hstage & Hrun).
  split; [|split; [|split]].
  - apply (Hform sample_py "100M" [49; 48; 48]%N 77%N);
      [exact sample_py_ok | reflexivity | discriminate | reflexivity
      | reflexivity | reflexivity].
  - apply Hnone. intros (ds & u & _ & Hd & _ & Heq).
    change (Py.trim Py.is_uspace (Py.codepoints "ten"))
      with [116; 101; 110]%N in Heq.
    destruct ds as [|a [|b [|c ds]]]; try discriminate.
    + injection Heq as <- _. discriminate.
    + destruct ds; discriminate.
  - eexists. apply Hstage. reflexivity.
  - destruct (make_archive kind_os ["/data"]
                (configured kind_os [("SPLIT_SIZE", VStr "ten");
                                     ("DRY_RUN", VInt 1)]))
      as [[primary files] st'|e st'] eqn:E.
    + exists primary, st'.
      assert (files = [primary]) as ->; [|reflexivity].
      eapply Hrun; [|exact E]. reflexivity.
    + vm_compute in E. discriminate.
Defined.

(** C3 as stated fails at the text [" 1k"]: with the leading blank it is
    not of the form N{k|m|g}, and it parses to 1024 bytes. *)
Lemma padded_size_is_parsed :
  ~ (forall s, ~ size_form sample_py (Py.codepoints s) ->
               parse_split_size sample_py s = Val None).
Proof.
  intros H. specialize (H " 1k" (padded_not_form sample_py)). discriminate.
Qed.

(** A size in full-width digits, a size followed by a no-break space,
    and a numeral of 4301 digits, which [int] refuses. *)
Example parse_split_size_unicode :
  parse_split_size sample_py "１２k" = Val (Some (12 * 1024))
  /\ parse_split_size sample_py "1k " = Val (Some 1024)
  /\ parse_split_size sample_py
       (Py.str (repeat "1"%char 4301 ++ ["k"%char]))
     = Err "ValueError".
Proof. repeat split; vm_compute; reflexivity. Qed.

(** ** Dry runs *)

Lemma same_but_or g0 g k1 k2 :
  same_but run_keys g0 g -> k1 ∉ run_keys -> k2 ∉ run_keys ->
  g_or g k1 k2 = g_or g0 k1 k2.
Proof.
  intros H H1 H2. unfold g_or.
  now rewrite (same_but_truthy _ _ _ _ H H1), (same_but_str _ _ _ _ H H1),
    (same_but_str _ _ _ _ H H2).
Qed.

Lemma same_but_summary_path os g0 g :
  same_but run_keys g0 g -> summary_path os g = summary_path os g0.
Proof.
  intros H. unfold summary_path.
  rewrite (same_but_or g0 g) by (try exact H; unfold run_keys; decide_names).
  rewrite (same_but_str run_keys g0 g "BASE")
    by (try exact H; unfold run_keys; decide_names).
  reflexivity.
Qed.

Lemma same_but_summary g0 g :
  same_but run_keys g0 g -> g_truthy g "MAKE_SUMMARY" = true ->
  g_truthy g0 "MAKE_SUMMARY" = true.
Proof.
  intros H Hsum. refine (eq_trans (eq_sym _) Hsum).
  apply (same_but_truthy run_keys); [exact H|].
  unfold run_keys. decide_names.
Qed.

Lemma is_log_dry_run_event os g e : is_log e -> dry_run_event os g e.
Proof. now destruct e. Qed.

(** C8 (amended).  With [DRY_RUN] on, [make_archive] (the archive,
    encrypt, split, checksum and summary stages) touches the outside
    world only by logging and by the events of [dry_run_event]: a
    password prompt, one [du -sh] for each selected path, the creation of
    the output directory and, with [MAKE_SUMMARY] on, the creation of
    the summary directory and the writing of the summary file.  It leaves
    the configuration as it was, and the upload stage that follows only
    logs.  This holds however [make_archive] ends. *)
Theorem dry_run_effects os paths st :
  g_truthy (globals st) "DRY_RUN" = true ->
  let archived := final (make_archive os paths st) in
  (exists evs,
     trace archived = trace st ++ evs
     /\ Forall (dry_run_event os (globals st)) evs)
  /\ same_but run_keys (globals st) (globals archived)
  /\ (forall files,
        exists evs,
          trace (final (upload_stage os files archived))
          = trace archived ++ evs
          /\ Forall is_log evs).
Proof.
  intros Hdry archived.
  set (g0 := globals st) in *.
  set (I := same_but run_keys g0).
  assert (forall g, I g -> g_truthy g "DRY_RUN" = true) as I_dry.
  { intros g Hg. now rewrite (same_but_dry g0 g Hg). }
  assert (forall g k v, k ∈ run_keys -> I g -> I (<[k := v]> g)) as I_keep.
  { intros g k v Hk Hg. now apply same_but_keep. }
  destruct (triple_make_archive os I (dry_run_event os g0) true)
    with (paths := paths) (st := st) as (evs & Htrace & Hevs & Hend).
  - exact I_dry.
  - exact I_keep.
  - apply is_log_dry_run_event.
  - intros p. exact Logic.I.
  - intros p r. exact Logic.I.
  - intros g Hg. left. apply (same_but_str run_keys); [exact Hg|].
    unfold run_keys. decide_names.
  - intros g Hg Hsum. right. split.
    + exact (same_but_summary g0 g Hg Hsum).
    + apply same_but_or; [exact Hg | |]; unfold run_keys; decide_names.
  - intros g text Hg Hsum. split.
    + exact (same_but_summary g0 g Hg Hsum).
    + now apply same_but_summary_path.
  - discriminate.
  - apply same_but_refl.
  - split; [now exists evs|]. split; [exact Hend|].
    intros files.
    destruct (triple_upload_stage os I is_log true I_dry I_keep)
      with (files := files) (st := archived) as (evs' & Htrace' & Hevs' & _).
    + auto.
    + discriminate.
    + exact Hend.
    + now exists evs'.
Qed.

Lemma dry_run_effects_witness :
  let archived := final (make_archive kind_os ["/data"] dry_summary_run) in
  (exists evs,
     trace archived = evs
     /\ Forall (dry_run_event kind_os (globals dry_summary_run)) evs)
  /\ (exists evs,
        trace (final (upload_stage kind_os ["/out/b.zip"] archived))
        = trace archived ++ evs
        /\ Forall is_log evs).
Proof.
  destruct (dry_run_effects kind_os ["/data"] dry_summary_run)
    as (Harchive & _ & Hupload); [reflexivity|].
  split; [exact Harchive | apply Hupload].
Defined.

(** C8 as stated fails for the dry run [dry_summary_run]: before any line
    is logged, [make_archive] creates the output directory; it then runs
    [du -sh /data] and in the end writes the summary file. *)
Lemma dry_run_writes_summary :
  ~ (forall os paths st,
       g_truthy (globals st) "DRY_RUN" = true ->
       exists evs,
         trace (final (make_archive os paths st)) = trace st ++ evs
         /\ Forall is_log evs).
Proof.
  intros H.
  destruct (H kind_os ["/data"] dry_summary_run eq_refl)
    as (evs & Htrace & Hlog).
  change (trace dry_summary_run ++ evs) with evs in Htrace.
  rewrite <- Htrace in Hlog. clear Htrace.
  vm_compute in Hlog. inversion Hlog as [|e l Hfirst _]. exact Hfirst.
Qed.

(** The events of that dry run that are not log lines. *)
Example dry_run_summary_events :
  exists text,
  List.filter
    (fun e => match e with EvStdout _ | EvAppend _ _ => false | _ => true end)
    (trace (final (make_archive kind_os ["/data"] dry_summary_run)))
  = [EvMkdir "/out";
     EvSpawn ["du"; "-sh"; "/data"] None (Returned 0);
     EvMkdir "/out";
     EvWriteText "/out/b.summary.json" text].
Proof. eexists. vm_compute. reflexivity. Qed.

(** ** The notification dispatch *)

Lemma dispatches_none evs : Forall not_dispatch evs -> dispatches evs = [].
Proof.
  induction 1 as [|e evs He _ IH]; [reflexivity|].
  destruct e; try exact IH. contradiction.
Qed.

Lemma dispatches_app t1 t2 :
  dispatches (t1 ++ t2) = dispatches t1 ++ dispatches t2.
Proof. apply omap_app. Qed.

(** A step that adds no dispatch leaves the dispatches of the trace as
    they were. *)
Lemma triple_dispatches {A} I (m : M A) st :
  triple I not_dispatch m -> I (globals st) ->
  dispatches (trace (final (m st))) = dispatches (trace st)
  /\ I (globals (final (m st))).
Proof.
  intros Hm HI. destruct (Hm st HI) as (evs & -> & Hevs & HI').
  split; [|exact HI'].
  now rewrite dispatches_app, (dispatches_none _ Hevs), app_nil_r.
Qed.

Lemma log_not_dispatch e : is_log e -> not_dispatch e.
Proof. now destruct e. Qed.

Ltac no_dispatch_conditions g0 :=
  first [ frame_conditions g0
        | exact log_not_dispatch
        | (intros _ ? ?; assumption) ].

(** [run_plugins] dispatches once, at its start. *)
Lemma run_plugins_dispatches os event status primary files st :
  dispatches (trace (final (run_plugins os event status primary files st)))
  = dispatches (trace st) ++ [(event, status)].
Proof.
  unfold run_plugins, bind at 1, emit.
  set (s1 := mkSt (globals st) (trace st ++ [EvDispatch event status])).
  pose (I := fun g : Globals =>
               g_truthy g "DRY_RUN" = g_truthy (globals st) "DRY_RUN").
  destruct (triple_dispatches I
              (g <- get_globals;;
               total_size_str <-
                 (if g_truthy g "DRY_RUN" then ret "(estimasi)"
                  else human_total_size os files);;
               for_each
                 (notify_one os event status primary
                    (plugin_env os g event status primary files
                       total_size_str))
                 (g_list g "NOTIFY_TARGETS")) s1) as (Hd & _).
  - apply triple_get_globals. intros g Hg. apply triple_bind.
    { destruct (g_truthy g "DRY_RUN"); [apply triple_ret|].
      unfold human_total_size. apply triple_get_trace. intros t.
      apply triple_ret. }
    intros total. apply triple_for_each. intros tgt.
    apply (triple_notify_one os I not_dispatch
             (g_truthy (globals st) "DRY_RUN")).
    + intros g' Hg'. exact Hg'.
    + apply log_not_dispatch.
    + intros _ cmd r. exact Logic.I.
    + intros _ p r. split; exact Logic.I.
  - reflexivity.
  - rewrite Hd. unfold s1. cbn [trace]. now rewrite dispatches_app.
Qed.

(** When the archive is made and the upload stage returns, the run
    dispatches exactly once more: [on_success] when the status is
    "success", [on_failure] otherwise. *)
Lemma dispatch_after_upload os st primary files archived exits uploaded :
  make_archive os (g_list (globals st) "SELECTED_PATHS") st
  = Ok (primary, files) archived ->
  upload_stage os files archived = Ok exits uploaded ->
  let status := g_str (globals uploaded) "FINAL_STATUS" in
  dispatches (trace (final (archive_and_dispatch os st)))
  = dispatches (trace st)
    ++ [(if g_is_str (globals uploaded) "FINAL_STATUS" "success"
         then "on_success" else "on_failure", status)].
Proof.
  intros Harchive Hupload status.
  set (g0 := globals st).
  set (I := same_but run_keys g0).
  assert (dispatches (trace archived) = dispatches (trace st)) as Ha.
  { destruct (triple_dispatches I
                (make_archive os (g_list g0 "SELECTED_PATHS")) st) as (H & _).
    - apply (triple_make_archive os I not_dispatch (g_truthy g0 "DRY_RUN"));
        no_dispatch_conditions g0.
    - apply same_but_refl.
    - fold g0 in Harchive. now rewrite Harchive in H. }
  assert (dispatches (trace uploaded) = dispatches (trace archived)) as Hu.
  { pose (J := same_but run_keys (globals archived)).
    destruct (triple_dispatches J (upload_stage os files) archived) as (H & _).
    - apply (triple_upload_stage os J not_dispatch
               (g_truthy (globals archived) "DRY_RUN"));
        no_dispatch_conditions (globals archived).
    - apply same_but_refl.
    - now rewrite Hupload in H. }
  unfold archive_and_dispatch, bind at 1, get_globals. fold g0.
  rewrite (bind_ok _ _ _ _ _ Harchive).
  rewrite (bind_ok _ _ _ _ _ Hupload).
  unfold notify_stage, bind at 1, get_globals.
  destruct (g_is_str (globals uploaded) "FINAL_STATUS" "success");
    now rewrite run_plugins_dispatches, Hu, Ha.
Qed.

(** C6 fails on the run [bad_retry_run]: [make_archive] returns the
    archive, then [int(UPLOAD_RETRY or 3)] raises in [do_upload_one];
    nothing catches it, and the run ends without a dispatch. *)
Theorem bad_retry_skips_dispatch :
  exists archived err crashed,
    make_archive kind_os ["/data"] bad_retry_run
    = Ok ("/out/b.zip", ["/out/b.zip"]) archived
    /\ archive_and_dispatch kind_os bad_retry_run
       = Raise (Exception err) crashed
    /\ dispatches (trace crashed) = [].
Proof.
  do 3 eexists. vm_compute. repeat split; reflexivity.
Qed.

(** The same run with [UPLOAD_RETRY=2] dispatches [on_success] once. *)
Example good_retry_dispatches :
  dispatches
    (trace (final (archive_and_dispatch kind_os
                     (mkSt (<["UPLOAD_RETRY" := VStr "2"]>
                              (globals bad_retry_run)) []))))
  = [("on_success", "success")].
Proof. vm_compute. reflexivity. Qed.


(** * Further properties of the code *)

(** ** More on strings *)

Lemma drop_while_idem p l :
  Py.drop_while p (Py.drop_while p l) = Py.drop_while p l.
Proof.
  induction l as [|c l IH]; simpl; [reflexivity|].
  destruct (p c) eqn:E; [exact IH|]. simpl. now rewrite E.
Qed.

Lemma drop_while_map p (f : ascii -> ascii) l :
  (forall c, p (f c) = p c) ->
  Py.drop_while p (map f l) = map f (Py.drop_while p l).
Proof.
  intros Hf. induction l as [|c l IH]; simpl; [reflexivity|].
  rewrite Hf. destruct (p c); [exact IH | reflexivity].
Qed.

(** Dropping from a list stops at the latest at a character that is
    kept. *)
Lemma drop_while_app_keep p a c r :
  p c = false -> exists b, Py.drop_while p (a ++ c :: r) = b ++ c :: r.
Proof.
  intros Hc. induction a as [|x a IH]; simpl.
  - rewrite Hc. now exists [].
  - destruct (p x); [exact IH|]. now exists (x :: a).
Qed.

Lemma strip_char_by c s :
  Py.strip_char c s = Py.str (strip_by (Ascii.eqb c) (Py.chars s)).
Proof. reflexivity. Qed.

Lemma drop_while_all p w l :
  forallb p w = true -> Py.drop_while p (w ++ l) = Py.drop_while p l.
Proof.
  induction w as [|c w IH]; [reflexivity|]. cbn [forallb app Py.drop_while].
  intros H. apply andb_true_iff in H as [-> Hw]. now apply IH.
Qed.

(** The head of a non-empty bare list is kept, and so is its last
    element. *)
Lemma bare_head p c l : bare p (c :: l) -> p c = false.
Proof.
  intros [H _]. pose proof (drop_while_head p (c :: l)) as Hh.
  now rewrite H in Hh.
Qed.

Lemma bare_rev p l : bare p l -> bare p (rev l).
Proof. intros [H1 H2]. split; [exact H2 | now rewrite rev_involutive]. Qed.

Lemma drop_while_app_bare p x l :
  x <> [] -> bare p x -> Py.drop_while p (x ++ l) = x ++ l.
Proof.
  intros Hne Hb. destruct x as [|c x]; [contradiction|].
  cbn [app Py.drop_while]. now rewrite (bare_head p c x Hb).
Qed.

Lemma strip_by_padded p w1 x w2 :
  forallb p w1 = true -> forallb p w2 = true -> bare p x ->
  strip_by p (w1 ++ x ++ w2) = x.
Proof.
  intros H1 H2 Hb. unfold strip_by. rewrite drop_while_all by exact H1.
  destruct x as [|c x].
  - cbn [app]. rewrite <- (app_nil_r w2) at 1.
    rewrite drop_while_all by exact H2. reflexivity.
  - rewrite drop_while_app_bare by (try exact Hb; discriminate).
    rewrite rev_app_distr, drop_while_all by now rewrite forallb_rev.
    destruct Hb as [_ ->]. apply rev_involutive.
Qed.

Lemma bare_strip_by p l : bare p l -> strip_by p l = l.
Proof.
  intros Hb. rewrite <- (strip_by_padded p [] l [] eq_refl eq_refl Hb) at 2.
  cbn [app]. now rewrite app_nil_r.
Qed.

Lemma strip_by_bare p l : bare p (strip_by p l).
Proof.
  unfold strip_by. set (x := Py.drop_while p l).
  assert (Py.drop_while p x = x) as Hx by apply drop_while_idem.
  split; [|now rewrite rev_involutive, drop_while_idem].
  destruct x as [|c x]; [reflexivity|].
  assert (p c = false) as Hc.
  { pose proof (drop_while_head p (c :: x)) as H. now rewrite Hx in H. }
  cbn [rev].
  destruct (drop_while_app_keep p (rev x) c [] Hc) as (b & ->).
  rewrite rev_app_distr. cbn [rev app]. now rewrite drop_while_keep.
Qed.

Lemma bare_wrap p c l : p c = false -> bare p (c :: l ++ [c]).
Proof.
  intros Hc. split; [now rewrite drop_while_keep|].
  change (c :: l ++ [c]) with ((c :: l) ++ [c]).
  rewrite rev_app_distr. cbn [rev app]. now rewrite drop_while_keep.
Qed.

(** ** [shlex_quote] *)

Lemma chars_append a b : Py.chars (a +:+ b) = Py.chars a ++ Py.chars b.
Proof.
  unfold Py.chars. induction a as [|c a IH]; [reflexivity|].
  change (String c a +:+ b) with (String c (a +:+ b)).
  cbn [list_ascii_of_string]. now rewrite IH.
Qed.

Lemma shell_safe_plain c :
  is_shell_safe c = true ->
  Ascii.eqb c "'" = false /\ Ascii.eqb c "\" = false
  /\ sh_special c = false.
Proof.
  destruct c as [[] [] [] [] [] [] [] []]; vm_compute; intros H;
    repeat split; congruence.
Qed.

Lemma sh_word_safe l :
  forallb is_shell_safe l = true -> sh_word ShPlain l = Some l.
Proof.
  induction l as [|c l IH]; [reflexivity|]. cbn [forallb sh_word].
  intros H. apply andb_true_iff in H as [Hc Hl].
  destruct (shell_safe_plain c Hc) as (-> & -> & ->).
  now rewrite (IH Hl).
Qed.

Lemma sh_word_quoted l :
  sh_word ShQuoted
    (flat_map (fun c => if Ascii.eqb c "'" then Py.chars "'\''" else [c]) l
     ++ ["'"%char])
  = Some l.
Proof.
  induction l as [|c l IH]; [reflexivity|]. cbn [flat_map].
  destruct (Ascii.eqb c "'") eqn:E.
  - apply Ascii.eqb_eq in E. subst c.
    rewrite <- app_assoc.
    change (Py.chars "'\''" ++ ?r)
      with ("'"%char :: "\"%char :: "'"%char :: "'"%char :: r).
    cbn [sh_word]. change (Ascii.eqb "'" "'") with true. cbv iota.
    change (Ascii.eqb "\" "'") with false.
    change (Ascii.eqb "\" "\") with true. cbv iota.
    change (Ascii.eqb "'" Py.nl_char) with false. cbv iota.
    now rewrite IH.
  - cbn [app sh_word]. rewrite E. now rewrite IH.
Qed.

(** A shell reads [shlex_quote s] back as the one word [s], whatever
    [s] holds; and [shlex_quote s] is never the empty text (which would
    be no word at all). *)
Theorem shlex_quote_read_back s :
  sh_word ShPlain (Py.chars (shlex_quote s)) = Some (Py.chars s)
  /\ shlex_quote s <> "".
Proof.
  unfold shlex_quote.
  destruct ((0 <? length (Py.chars s))%nat
            && forallb is_shell_safe (Py.chars s)) eqn:E.
  - apply andb_true_iff in E as [Hlen Hsafe]. split.
    + now apply sh_word_safe.
    + intros ->. discriminate.
  - split; [|discriminate].
    rewrite !chars_append, chars_str.
    change (Py.chars "'") with ["'"%char]. cbn [app sh_word].
    change (Ascii.eqb "'" "'") with true. cbv iota.
    apply sh_word_quoted.
Qed.

(** A text with a blank, a single quote and a dollar sign. *)
Example shlex_quote_sample :
  shlex_quote "it's $HOME" = "'it'\''s $HOME'"
  /\ shlex_quote "a-b_c/d.e" = "a-b_c/d.e"
  /\ shlex_quote "" = "''".
Proof. repeat split; reflexivity. Qed.

(** ** [load_config_file] *)

Lemma cfg_load_snoc os lines line g :
  cfg_load os (lines ++ [line]) g = cfg_upd os line (cfg_load os lines g).
Proof. unfold cfg_load. now rewrite fold_left_app. Qed.

Lemma existsb_eqb_elem k l :
  existsb (String.eqb k) l = true <-> k ∈ l.
Proof.
  rewrite existsb_exists. split.
  - intros (x & Hin & Heq). apply String.eqb_eq in Heq. subst x.
    now apply list_elem_of_In.
  - intros H. exists k. split; [now apply list_elem_of_In|].
    apply String.eqb_refl.
Qed.

(** One line rebinds at most one name, and that one is a config name. *)
Lemma cfg_upd_frame os line g k :
  k ∉ config_names -> cfg_upd os line g !! k = g !! k.
Proof.
  intros Hk. unfold cfg_upd.
  destruct (parse_config_line line) as [[k' v]|]; [|reflexivity].
  assert (forall L, L ∈ list_keys -> k <> L) as Hlist.
  { intros L HL ->. apply Hk. unfold config_names.
    rewrite !elem_of_app. now right; right. }
  destruct (existsb (String.eqb k') CFG_STR_KEYS) eqn:Es.
  { apply lookup_insert_ne. intros ->. apply Hk.
    apply existsb_eqb_elem in Es. unfold config_names.
    rewrite !elem_of_app. now left. }
  destruct (existsb (String.eqb k') CFG_BOOL_KEYS) eqn:Eb.
  { apply lookup_insert_ne. intros ->. apply Hk.
    apply existsb_eqb_elem in Eb. unfold config_names.
    rewrite !elem_of_app. now right; left. }
  repeat match goal with
         | |- context [if ?b then _ else _] => destruct b
         end; try reflexivity;
    apply lookup_insert_ne; apply not_eq_sym, Hlist;
    unfold list_keys; decide_names.
Qed.

Lemma cfg_load_frame os lines g k :
  k ∉ config_names -> cfg_load os lines g !! k = g !! k.
Proof.
  intros Hk. induction lines as [|line lines IH] using rev_ind;
    [reflexivity|].
  now rewrite cfg_load_snoc, cfg_upd_frame.
Qed.

(** [load_config_file] does nothing to the outside world but for the one
    line it logs when the file is missing, and it rebinds only names of
    its tables: a file cannot set, for instance, [SELECTED_PATHS],
    [CONFIG_FILE], [OUT_DIR], [BASE] or [LOG_FILE]. *)
Theorem load_config_file_frame os file st :
  let r := load_config_file os file st in
  (forall k, k ∉ config_names -> globals (final r) !! k = globals st !! k)
  /\ (if Py.nonempty file && os_is_file os (trace st) file
      then trace (final r) = trace st
      else r = Ok tt
                 (mkSt (globals st)
                    (trace st ++
                       log_events (globals st)
                         ("⚠️  Config tidak ditemukan: " +:+ file)))).
Proof.
  cbv zeta. unfold load_config_file, bind, get_trace.
  destruct (Py.nonempty file); cbn [negb orb andb].
  - destruct (os_is_file os (trace st) file); cbn [negb].
    + destruct (os_read_lines os (trace st) file) as [lines|].
      * cbv beta iota. rewrite !for_each_config_upd.
        cbn [final globals trace].
        split; [|reflexivity]. intros k Hk. now apply cfg_load_frame.
      * now split.
    + rewrite log_run. now split.
  - rewrite log_run. now split.
Qed.

Lemma omap_snoc {A B} (f : A -> option B) l x :
  omap f (l ++ [x])
  = omap f l ++ match f x with Some y => [y] | None => [] end.
Proof. rewrite omap_app. simpl. now destruct (f x). Qed.

Lemma scalar_key_cases K :
  scalar_key K ->
  forall L, L ∈ list_keys -> K <> L.
Proof. intros HK L HL. now apply scalar_key_not_list. Qed.

Lemma cfg_upd_last os line g K :
  scalar_key K ->
  cfg_upd os line g !! K
  = match parse_config_line line with
    | Some (k, v) =>
        if String.eqb k K then Some (scalar_value os K v) else g !! K
    | None => g !! K
    end.
Proof.
  intros HK. unfold cfg_upd.
  destruct (parse_config_line line) as [[k v]|]; [|reflexivity].
  destruct (String.eqb k K) eqn:E.
  - apply String.eqb_eq in E. subst k. unfold scalar_value.
    unfold scalar_key in HK.
    destruct (existsb (String.eqb K) CFG_STR_KEYS);
      [apply lookup_insert_eq|].
    cbn [orb] in HK. rewrite HK. apply lookup_insert_eq.
  - apply String.eqb_neq in E.
    pose proof (scalar_key_cases K HK) as Hlist.
    repeat match goal with
           | |- context [if ?b then _ else _] => destruct b
           end; try reflexivity;
      apply lookup_insert_ne; try exact E;
      apply not_eq_sym, Hlist; unfold list_keys; decide_names.
Qed.

(** Of the lines of a config file that name a scalar key, the last one
    wins: the key is bound to the text of that line (as it is for a key
    of [CFG_STR_KEYS], through [_parse_bool] for a key of
    [CFG_BOOL_KEYS]); a key no line names keeps its value. *)
Theorem load_config_file_last_wins os file lines st K :
  Py.nonempty file = true ->
  os_is_file os (trace st) file = true ->
  os_read_lines os (trace st) file = Some lines ->
  scalar_key K ->
  exists st',
    load_config_file os file st = Ok tt st'
    /\ globals st' !! K
       = match last_assignment K lines with
         | Some v => Some (scalar_value os K v)
         | None => globals st !! K
         end.
Proof.
  intros Hf Hi Hr HK. eexists. split.
  { exact (load_config_file_run os file lines st Hf Hi Hr). }
  cbn [globals]. generalize (globals st) as g. intros g.
  unfold last_assignment. clear Hr.
  induction lines as [|line lines IH] using rev_ind; [reflexivity|].
  rewrite cfg_load_snoc, cfg_upd_last by exact HK.
  rewrite omap_snoc.
  destruct (parse_config_line line) as [[k v]|].
  - destruct (String.eqb k K).
    + now rewrite last_snoc.
    + rewrite app_nil_r. exact IH.
  - rewrite app_nil_r. exact IH.
Qed.

Lemma load_config_file_last_wins_witness :
  exists st',
    load_config_file config_os "b.conf" (fresh (defaults config_os))
    = Ok tt st'
    /\ globals st' !! "DRY_RUN" = Some (VInt 1)
    /\ globals st' !! "UPLOAD_RETRY" = Some (VInt 3).
Proof.
  destruct (load_config_file_last_wins config_os "b.conf"
              ["EXCLUDES=*.log,.git/*" +:+ Py.nl; "DRY_RUN=yes" +:+ Py.nl;
               "NOTIFY=telegram" +:+ Py.nl]
              (fresh (defaults config_os)) "DRY_RUN")
    as (st1 & Hrun & Hdry); try reflexivity.
  destruct (load_config_file_last_wins config_os "b.conf"
              ["EXCLUDES=*.log,.git/*" +:+ Py.nl; "DRY_RUN=yes" +:+ Py.nl;
               "NOTIFY=telegram" +:+ Py.nl]
              (fresh (defaults config_os)) "UPLOAD_RETRY")
    as (st2 & Hrun2 & Hretry); try reflexivity.
  exists st1. split; [exact Hrun|]. split; [exact Hdry|].
  rewrite Hrun in Hrun2. injection Hrun2 as <-. exact Hretry.
Defined.

Lemma load_config_file_frame_witness :
  globals (final (load_config_file config_os "b.conf"
                    (fresh (defaults config_os)))) !! "LOG_FILE"
  = Some (VStr "")
  /\ trace (final (load_config_file config_os "b.conf"
                     (fresh (defaults config_os)))) = [].
Proof.
  destruct (load_config_file_frame config_os "b.conf"
              (fresh (defaults config_os))) as (Hkeep & Htrace).
  split; [|exact Htrace].
  rewrite Hkeep; [reflexivity|]. unfold config_names. decide_names.
Defined.

(** ** The command line: [apply_args] *)

Lemma steps_ret Q : steps Q Q (ret tt).
Proof. intros st H. now exists st. Qed.

Lemma steps_bind P R Q (m k : M unit) :
  steps P R m -> steps R Q k -> steps P Q (m;; k).
Proof.
  intros Hm Hk st HP. destruct (Hm st HP) as (s1 & E1 & T1 & HR).
  destruct (Hk s1 HR) as (s2 & E2 & T2 & HQ).
  exists s2. unfold bind. rewrite E1. repeat split; congruence.
Qed.

Lemma steps_weaken (P P' Q Q' : Globals -> Prop) m :
  steps P Q m -> (forall g, P' g -> P g) -> (forall g, Q g -> Q' g) ->
  steps P' Q' m.
Proof.
  intros Hm HP HQ st H. destruct (Hm st (HP _ H)) as (s & E & T & H').
  exists s. auto.
Qed.

Lemma steps_get_globals P Q (k : Globals -> M unit) :
  (forall g, P g -> steps (fun g' => g' = g) Q (k g)) ->
  steps P Q (g <- get_globals;; k g).
Proof. intros Hk st HP. exact (Hk (globals st) HP st eq_refl). Qed.

Lemma steps_set_global k v (Q : Globals -> Prop) :
  steps (fun g => Q (<[k := v]> g)) Q (set_global k v).
Proof. intros st H. eexists. repeat split. exact H. Qed.

Lemma steps_set Q k v : stable k Q -> steps Q Q (set_global k v).
Proof.
  intros Hs.
  apply (steps_weaken (fun g => Q (<[k := v]> g)) Q Q Q);
    [apply steps_set_global | intros g; apply Hs | auto].
Qed.

Lemma steps_set_if_str Q k v : stable k Q -> steps Q Q (set_if_str k v).
Proof.
  intros Hs. unfold set_if_str.
  destruct (Py.nonempty v); [now apply steps_set | apply steps_ret].
Qed.

Lemma steps_set_if_flag Q k b : stable k Q -> steps Q Q (set_if_flag k b).
Proof.
  intros Hs. unfold set_if_flag.
  destruct b; [now apply steps_set | apply steps_ret].
Qed.

Lemma steps_append_global Q k items :
  stable k Q -> steps Q Q (append_global k items).
Proof.
  intros Hs. unfold append_global. apply steps_get_globals. intros g Hg.
  apply (steps_weaken
           (fun g' => Q (<[k := VList (g_list g k ++ items)]> g'))
           (fun g' => g' = g) Q Q);
    [apply steps_set_global | intros g' ->; now apply Hs | auto].
Qed.

Lemma steps_add_excludes Q raw :
  stable "EXCLUDES" Q -> steps Q Q (add_excludes_from_arg raw).
Proof.
  intros Hs. unfold add_excludes_from_arg.
  destruct (negb (Py.nonempty raw));
    [apply steps_ret | now apply steps_append_global].
Qed.

Lemma steps_for_each Q body l :
  (forall x, steps Q Q (body x)) -> steps Q Q (for_each body l).
Proof.
  intros Hb. induction l as [|x l IH]; [apply steps_ret|].
  cbn [for_each]. now apply steps_bind with (R := Q).
Qed.

Lemma steps_when Q (b : bool) m :
  steps Q Q m -> steps Q Q (if b then m else ret tt).
Proof. intros Hm. destruct b; [exact Hm | apply steps_ret]. Qed.

(** A step that gives [K] the value [V]. *)
Lemma steps_gives_str (P : Globals -> Prop) K v :
  Py.nonempty v = true ->
  steps P (fun g => g !! K = Some (VStr v)) (set_if_str K v).
Proof.
  intros Hv. unfold set_if_str. rewrite Hv.
  intros st _. eexists. repeat split. apply lookup_insert_eq.
Qed.

Lemma steps_gives_flag (P : Globals -> Prop) K :
  steps P (fun g => g !! K = Some (VInt 1)) (set_if_flag K true).
Proof.
  intros st _. eexists. repeat split. apply lookup_insert_eq.
Qed.

Lemma stable_any k : stable k (fun _ => True).
Proof. now intros g v _. Qed.

Lemma stable_lookup k K V :
  k <> K -> stable k (fun g => g !! K = Some V).
Proof. intros Hne g v H. now rewrite lookup_insert_ne. Qed.

(** One step of the walk through [apply_cli] under the invariant [Q],
    the side condition being left to [side]. *)
Ltac cli_step side :=
  first [ apply steps_set_if_str; side
        | apply steps_set_if_flag; side
        | apply steps_append_global; side
        | apply steps_for_each; intros ?; apply steps_add_excludes; side
        | apply steps_when; apply steps_set; side ].

Ltac stable_side :=
  first [ apply stable_any | apply stable_lookup; discriminate ].

(** The last step of [apply_cli]. *)
Lemma steps_keep_wins Q :
  stable "RM_AFTER_SPLIT" Q ->
  steps Q Q
    (g <- get_globals;;
     if g_truthy g "KEEP_AFTER_SPLIT" && g_truthy g "RM_AFTER_SPLIT"
     then set_global "RM_AFTER_SPLIT" (VInt 0) else ret tt).
Proof.
  intros Hs. apply steps_get_globals. intros g Hg.
  apply (steps_weaken Q (fun g' => g' = g) Q Q);
    [|now intros ? ->|auto].
  apply steps_when. now apply steps_set.
Qed.

(** Walks through the steps of [apply_cli]: a step either keeps the
    invariant [Q], or is the one that establishes it. *)
Ltac cli_walk gives :=
  lazymatch goal with
  | |- steps ?P ?Q _ =>
      repeat first
        [ apply steps_keep_wins; stable_side
        | apply (steps_bind Q Q); [cli_step stable_side|]
        | apply (steps_bind P Q); [gives|]
        | apply (steps_bind P P); [cli_step stable_side|] ]
  end.

Lemma apply_cli_text args K v (P := fun _ : Globals => True) :
  (K, v) ∈ cli_texts args -> Py.nonempty v = true ->
  steps P (fun g => g !! K = Some (VStr v)) (apply_cli args).
Proof.
  intros Hin Hv. unfold cli_texts in Hin.
  repeat (apply elem_of_cons in Hin as [Heq|Hin];
          [injection Heq as -> ->; unfold apply_cli;
           cli_walk ltac:(now apply steps_gives_str) |]).
  now apply elem_of_nil in Hin.
Qed.

Lemma apply_cli_flag args K (P := fun _ : Globals => True) :
  (K, true) ∈ cli_flags args ->
  steps P (fun g => g !! K = Some (VInt 1)) (apply_cli args).
Proof.
  intros Hin. unfold cli_flags in Hin.
  repeat (apply elem_of_cons in Hin as [Heq|Hin];
          [injection Heq as -> Hflag; unfold apply_cli; rewrite <- Hflag;
           cli_walk ltac:(now apply steps_gives_flag) |]).
  now apply elem_of_nil in Hin.
Qed.

Lemma bind_ok_inv {A B} (m : M A) (k : A -> M B) st b st' :
  bind m k st = Ok b st' ->
  exists a s, m st = Ok a s /\ k a s = Ok b st'.
Proof.
  unfold bind. destruct (m st) as [a s|e s]; [eauto | discriminate].
Qed.

(** What [apply_args] does after the config file is [apply_cli]. *)
Lemma apply_args_ok_inv os args st st' :
  apply_args os args st = Ok tt st' ->
  exists s, apply_cli args s = Ok tt st'.
Proof.
  unfold apply_args. intros H.
  apply bind_ok_inv in H as (a & s & _ & H). eauto.
Qed.



(** ** [KEEP_AFTER_SPLIT] and [RM_AFTER_SPLIT] *)

Lemma steps_keep_wins_result (P := fun _ : Globals => True) :
  steps P
    (fun g => g_truthy g "KEEP_AFTER_SPLIT" && g_truthy g "RM_AFTER_SPLIT"
              = false)
    (g <- get_globals;;
     if g_truthy g "KEEP_AFTER_SPLIT" && g_truthy g "RM_AFTER_SPLIT"
     then set_global "RM_AFTER_SPLIT" (VInt 0) else ret tt).
Proof.
  intros st _. unfold bind, get_globals.
  destruct (g_truthy (globals st) "KEEP_AFTER_SPLIT"
            && g_truthy (globals st) "RM_AFTER_SPLIT") eqn:E.
  - eexists. repeat split. cbn [globals].
    unfold g_truthy at 2. rewrite lookup_insert_eq. apply andb_false_r.
  - exists st. repeat split. exact E.
Qed.

Lemma apply_cli_keep_wins args (P := fun _ : Globals => True) :
  steps P
    (fun g => g_truthy g "KEEP_AFTER_SPLIT" && g_truthy g "RM_AFTER_SPLIT"
              = false)
    (apply_cli args).
Proof.
  unfold apply_cli.
  repeat first
    [ apply steps_keep_wins_result
    | apply (steps_bind P P); [cli_step stable_side|] ].
Qed.

Lemma stable_truthy k K b :
  k <> K -> stable k (fun g => g_truthy g K = b).
Proof.
  intros Hne g v H. unfold g_truthy. now rewrite lookup_insert_ne.
Qed.

Lemma steps_flag_stays_on K b (J := fun g => g_truthy g K = true) :
  steps J J (set_if_flag K b).
Proof.
  unfold set_if_flag. destruct b; [|apply steps_ret].
  intros st _. eexists. repeat split. unfold J, g_truthy. cbn [globals].
  now rewrite lookup_insert_eq.
Qed.

Lemma steps_rm_off (J := fun g => g_truthy g "KEEP_AFTER_SPLIT" = true) :
  steps J (fun g => g_truthy g "RM_AFTER_SPLIT" = false)
    (g <- get_globals;;
     if g_truthy g "KEEP_AFTER_SPLIT" && g_truthy g "RM_AFTER_SPLIT"
     then set_global "RM_AFTER_SPLIT" (VInt 0) else ret tt).
Proof.
  intros st Hst. unfold bind, get_globals. unfold J in Hst.
  rewrite Hst. cbn [andb].
  destruct (g_truthy (globals st) "RM_AFTER_SPLIT") eqn:E.
  - eexists. repeat split. cbn [globals]. unfold g_truthy.
    now rewrite lookup_insert_eq.
  - exists st. repeat split. exact E.
Qed.

Lemma apply_cli_rm_off args
  (J := fun g => g_truthy g "KEEP_AFTER_SPLIT" = true) :
  steps J (fun g => g_truthy g "RM_AFTER_SPLIT" = false) (apply_cli args).
Proof.
  unfold apply_cli.
  repeat first
    [ apply steps_rm_off
    | apply (steps_bind J J);
      [first [ cli_step ltac:(apply stable_truthy; discriminate)
             | apply steps_flag_stays_on ] |] ].
Qed.

(** When [apply_args] returns, [KEEP_AFTER_SPLIT] and [RM_AFTER_SPLIT]
    are never both on: keeping wins.  As [KEEP_AFTER_SPLIT] is 1 by
    default and no option turns it off, [--rm-after-split] alone has no
    effect. *)
Theorem apply_args_keep_wins os args st st' :
  apply_args os args st = Ok tt st' ->
  (g_truthy (globals st') "KEEP_AFTER_SPLIT"
   && g_truthy (globals st') "RM_AFTER_SPLIT" = false)
  /\ (a_CONFIG_FILE args = "" ->
      g_truthy (globals st) "KEEP_AFTER_SPLIT" = true ->
      g_truthy (globals st') "RM_AFTER_SPLIT" = false).
Proof.
  intros H. split.
  - apply apply_args_ok_inv in H as (s & H).
    destruct (apply_cli_keep_wins args s Logic.I) as (s' & E & _ & HQ).
    rewrite H in E. now injection E as <-.
  - intros Hnone Hkeep. unfold apply_args in H. rewrite Hnone in H.
    change (Py.nonempty "") with false in H. cbv iota in H.
    change ((ret tt;; apply_cli args) st) with (apply_cli args st) in H.
    pose proof (apply_cli_rm_off args) as Hsteps.
    destruct (Hsteps st Hkeep) as (s' & E & _ & HQ).
    rewrite H in E. now injection E as <-.
Qed.

Lemma apply_args_keep_wins_witness :
  exists st',
    apply_args bare_os cli_sample_no_config (fresh (defaults bare_os))
    = Ok tt st'
    /\ g_truthy (globals st') "RM_AFTER_SPLIT" = false.
Proof.
  eexists. split; [vm_compute; reflexivity|].
  destruct (apply_args_keep_wins bare_os cli_sample_no_config
              (fresh (defaults bare_os)) _ eq_refl) as (_ & H).
  apply H; reflexivity.
Defined.

(** ** [--summary] and [--checksum] *)

(** The step that may turn a switch off keeps "if it is on, it was on". *)
Lemma steps_lowers K (B : Prop) (b : bool)
  (J := fun g => g_truthy g K = true -> B) :
  steps J J (if b then set_global K (VInt 0) else ret tt).
Proof.
  destruct b; [|apply steps_ret].
  intros st _. eexists. repeat split. unfold J, g_truthy. cbn [globals].
  rewrite lookup_insert_eq. discriminate.
Qed.

Lemma stable_if_on k K (B : Prop) :
  k <> K -> stable k (fun g => g_truthy g K = true -> B).
Proof.
  intros Hne g v H. unfold g_truthy. now rewrite lookup_insert_ne.
Qed.

Lemma apply_cli_never_enables args K (B : Prop)
  (J := fun g => g_truthy g K = true -> B) :
  K = "MAKE_SUMMARY" \/ K = "MAKE_CHECKSUM" ->
  steps J J (apply_cli args).
Proof.
  intros [-> | ->]; unfold apply_cli;
    repeat first
      [ apply steps_keep_wins; apply stable_if_on; discriminate
      | apply (steps_bind J J);
        [first [ cli_step ltac:(apply stable_if_on; discriminate)
               | apply steps_lowers ] |] ].
Qed.

(** No option of the command line turns the summary or the checksum on:
    without a config file, [MAKE_SUMMARY] and [MAKE_CHECKSUM] are on
    after [apply_args] only if they were on before, [--summary] and
    [--checksum] included; [apply_args] then neither raises nor touches
    the outside world. *)
Theorem cli_never_enables_summary os args st :
  a_CONFIG_FILE args = "" ->
  exists st',
    apply_args os args st = Ok tt st' /\ trace st' = trace st
    /\ (g_truthy (globals st') "MAKE_SUMMARY" = true ->
        g_truthy (globals st) "MAKE_SUMMARY" = true)
    /\ (g_truthy (globals st') "MAKE_CHECKSUM" = true ->
        g_truthy (globals st) "MAKE_CHECKSUM" = true).
Proof.
  intros Hnone. unfold apply_args. rewrite Hnone.
  change (Py.nonempty "") with false. cbv iota.
  change ((ret tt;; apply_cli args) st) with (apply_cli args st).
  destruct (apply_cli_never_enables args "MAKE_SUMMARY"
              (g_truthy (globals st) "MAKE_SUMMARY" = true)
              (or_introl eq_refl) st (fun H => H))
    as (s1 & E1 & T1 & H1).
  destruct (apply_cli_never_enables args "MAKE_CHECKSUM"
              (g_truthy (globals st) "MAKE_CHECKSUM" = true)
              (or_intror eq_refl) st (fun H => H))
    as (s2 & E2 & T2 & H2).
  exists s1. rewrite E1 in E2. injection E2 as <-. auto.
Qed.

Lemma cli_never_enables_summary_witness :
  exists st',
    apply_args bare_os cli_sample_no_config (fresh (defaults bare_os))
    = Ok tt st'
    /\ g_truthy (globals st') "MAKE_SUMMARY" = false
    /\ g_truthy (globals st') "MAKE_CHECKSUM" = false.
Proof.
  destruct (cli_never_enables_summary bare_os cli_sample_no_config
              (fresh (defaults bare_os)) eq_refl)
    as (st' & Hrun & _ & Hsum & Hchk).
  exists st'. split; [exact Hrun|]. split.
  - destruct (g_truthy (globals st') "MAKE_SUMMARY"); [|reflexivity].
    discriminate (Hsum eq_refl).
  - destruct (g_truthy (globals st') "MAKE_CHECKSUM"); [|reflexivity].
    discriminate (Hchk eq_refl).
Defined.

(** ** Uploads that are not tried *)

(** [do_upload_one] without a transfer.  With no upload target it
    returns 0 and does nothing (when [UPLOAD_RETRY] is readable as an
    integer: the conversion comes first).  With a target and a retry
    count of 0 or less, as the text [UPLOAD_RETRY=0] of a config file
    gives, it returns 1 without having tried a transfer or slept, in a
    dry run too. *)
Theorem do_upload_one_untried os file st tries :
  upload_retry os (globals st) = Some tries ->
  (Py.nonempty (g_str (globals st) "UPLOAD_TARGET") = false ->
   do_upload_one os file st = Ok 0 st)
  /\ (Py.nonempty (g_str (globals st) "UPLOAD_TARGET") = true ->
      tries <= 0 ->
      exists evs,
        do_upload_one os file st
        = Ok 1 (mkSt (globals st) (trace st ++ evs))
        /\ transfers evs = [] /\ sleeps evs = []).
Proof.
  intros Hretry. split.
  - intros Htarget. unfold do_upload_one, upload_one, bind, get_globals.
    rewrite Hretry, Htarget. now destruct st.
  - intros Htarget Htries.
    destruct (upload_one_run os file st tries Hretry)
      as (x & evs & Hrun & Hdry & [Hs Hlive] & Hx).
    assert (x = GaveUp 1) as ->.
    { destruct x as [|a|a|a]; cbn in Hx.
      - destruct Hx as [Hx _]. congruence.
      - lia.
      - lia.
      - f_equal. lia. }
    exists evs. unfold do_upload_one. rewrite (bind_ok _ _ _ _ _ Hrun).
    split; [reflexivity|]. cbn in Hs. split; [|exact Hs].
    destruct (g_truthy (globals st) "DRY_RUN") eqn:Edry.
    + now destruct (aside_quiet _ (logs_aside _ (Hdry eq_refl))).
    + destruct (Hlive eq_refl) as [_ Hlen]. cbn in Hlen.
      now apply length_zero_iff_nil.
Qed.

Lemma do_upload_one_untried_witness :
  let st := fresh (<["UPLOAD_TARGET" := VStr "remote:bk"]>
                     (<["UPLOAD_RETRY" := VStr "0"]> (defaults kind_os))) in
  do_upload_one kind_os "a.zip" (fresh (defaults kind_os))
  = Ok 0 (fresh (defaults kind_os))
  /\ exists evs,
       do_upload_one kind_os "a.zip" st
       = Ok 1 (mkSt (globals st) (trace st ++ evs))
       /\ transfers evs = [] /\ sleeps evs = [].
Proof.
  intros st. split.
  - assert (upload_retry kind_os (globals (fresh (defaults kind_os))) = Some 3)
      as H3 by (vm_compute; reflexivity).
    destruct (do_upload_one_untried kind_os "a.zip" _ 3 H3) as [H _].
    apply H. vm_compute. reflexivity.
  - assert (upload_retry kind_os (globals st) = Some 0)
      as H0 by (vm_compute; reflexivity).
    destruct (do_upload_one_untried kind_os "a.zip" st 0 H0) as [_ H].
    apply H; [vm_compute; reflexivity | lia].
Defined.

(** ** Removing the local file after an upload *)

Lemma removals_app a b : removals (a ++ b) = removals a ++ removals b.
Proof. apply List.filter_app. Qed.

Lemma removals_logs evs : Forall is_log evs -> removals evs = [].
Proof.
  induction 1 as [|e evs He _ IH]; [reflexivity|].
  unfold removals in *. cbn [List.filter]. rewrite IH.
  now destruct e.
Qed.

Lemma transfer_cmd_not_rm cmd :
  is_transfer_cmd cmd = true -> String.prefix "rm -f -- " cmd = false.
Proof.
  destruct cmd as [|a [|b cmd]]; try reflexivity.
  { intros _. cbn [String.prefix]. now destruct (ascii_dec "r" a). }
  intros H. cbn [String.prefix].
  destruct (ascii_dec "r" a) as [<-|]; [|reflexivity].
  destruct (ascii_dec "m" b) as [<-|]; [|reflexivity].
  exfalso. revert H. unfold is_transfer_cmd. cbn [String.prefix].
  repeat match goal with
         | |- context [ascii_dec ?x ?y] =>
             destruct (ascii_dec x y); try discriminate
         end.
Qed.

(** A transfer removes nothing. *)
Lemma transfer_no_rm os tool file target :
  triple (fun _ => True) (fun e => is_rm e = false)
    (transfer os tool file target).
Proof.
  unfold transfer.
  destruct (upload_cmd tool file target) as [cmd|] eqn:Ecmd;
    [|apply triple_ret].
  pose proof (transfer_cmd_not_rm _ (upload_cmd_is_transfer _ _ _ _ Ecmd))
    as Hcmd.
  assert (forall e, is_log e -> is_rm e = false) as Hlog
    by (now intros []).
  apply triple_bind.
  { unfold run_or_echo. apply triple_get_globals. intros g _.
    destruct (g_truthy g "DRY_RUN").
    - apply triple_bind; [now apply triple_log | intros; apply triple_ret].
    - apply triple_bind.
      + unfold shell. apply triple_get_trace. intros t.
        apply triple_bind; [now apply triple_emit|].
        intros. apply triple_ret.
      + intros [rc|e]; [apply triple_ret|].
        apply triple_bind; [now apply triple_log|]. intros. apply triple_ret. }
  intros rc. apply triple_get_globals. intros g _.
  apply triple_bind; [|intros; apply triple_ret].
  destruct (_ && _); [|apply triple_ret].
  apply triple_bind.
  - unfold spawn. apply triple_get_trace. intros t.
    apply triple_bind; [now apply triple_emit|]. intros. apply triple_ret.
  - intros [rc'|e]; [now apply triple_log | apply triple_ret].
Qed.

Lemma transfer_removals os tool file target st r g evs :
  transfer os tool file target st = Ok r (mkSt g (trace st ++ evs)) ->
  removals evs = [].
Proof.
  intros H.
  destruct (transfer_no_rm os tool file target st Logic.I)
    as (evs' & Ht & Hevs & _).
  rewrite H in Ht. cbn [final trace] in Ht.
  apply app_inv_head in Ht. subst evs'.
  clear H. unfold removals.
  induction Hevs as [|e l He _ IH]; [reflexivity|].
  cbn [List.filter]. cbv beta in He. rewrite He. exact IH.
Qed.

Lemma last_app_some {A} (l1 l2 : list A) x :
  last l2 = Some x -> last (l1 ++ l2) = Some x.
Proof.
  intros H. destruct l2 as [|y l2] using rev_ind; [discriminate|].
  rewrite last_snoc in H. now rewrite app_assoc, last_snoc.
Qed.

Lemma transfers_logs evs : Forall is_log evs -> transfers evs = [].
Proof. intros H. now destruct (aside_quiet _ (logs_aside _ H)). Qed.

(** A prefix that removes nothing can be put in front of a tidy run. *)
Lemma tidy_app g file removes pre evs :
  removals pre = [] -> tidy g file removes evs ->
  tidy g file removes (pre ++ evs).
Proof.
  intros Hpre. unfold tidy. destruct removes.
  - intros (p & cmd & r & logs & -> & Hp & Hlast & Hlogs).
    exists (pre ++ p), cmd, r, logs. rewrite <- app_assoc.
    repeat split; auto.
    + now rewrite removals_app, Hpre, Hp.
    + rewrite transfers_app. now apply last_app_some.
  - intros H. now rewrite removals_app, Hpre, H.
Qed.

(** The retry loop removes the file only after the transfer that
    succeeded. *)
Lemma upload_loop_tidy os file target tool tries :
  forall n attempt delay st,
    Z.to_nat (tries + 1 - attempt) = n ->
    exists x evs,
      upload_loop os file target tool tries attempt delay st
      = Ok x (mkSt (globals st) (trace st ++ evs))
      /\ tidy (globals st) file
           (is_uploaded x && g_truthy (globals st) "AFTER_UPLOAD_RM"
            && negb (g_truthy (globals st) "DRY_RUN")) evs.
Proof.
  induction n as [|n IH]; intros attempt delay st Hn;
    rewrite upload_loop_body;
    destruct (decide (attempt ≤ tries)) as [Hle|Hgt]; try lia.
  - rewrite (bind_ok _ _ _ _ _ (log_run _ _)). unfold ret.
    do 2 eexists. split; [reflexivity|].
    apply removals_logs, log_events_is_log.
  - rewrite (bind_ok _ _ _ _ _ (log_run _ _)).
    set (l1 := log_events (globals st) _).
    assert (removals l1 = []) as Hl1
      by apply removals_logs, log_events_is_log.
    set (st1 := mkSt (globals st) (trace st ++ l1)).
    destruct (transfer_run os tool file target st1)
      as (r & evs & Htrans & Hcase).
    pose proof (transfer_removals _ _ _ _ _ _ _ _ Htrans) as Hevs.
    rewrite (bind_ok _ _ _ _ _ Htrans). cbn [globals trace st1] in *.
    destruct (upload_cmd tool file target) as [cmd|] eqn:Ecmd.
    2:{ destruct Hcase as [-> ->].
        rewrite (bind_ok _ _ _ _ _ (log_run _ _)). unfold ret.
        cbn [globals trace]. do 2 eexists.
        split; [rewrite app_nil_r, <- app_assoc; reflexivity|].
        cbn [is_uploaded andb tidy]. rewrite removals_app, Hl1.
        apply removals_logs, log_events_is_log. }
    destruct Hcase as (rc & -> & Hmode).
    destruct (rc =? 0) eqn:Erc.
    + (* the transfer succeeded *)
      rewrite (bind_ok _ _ _ _ _ (log_run _ _)). cbn [globals trace].
      set (l2 := log_events (globals st) _).
      assert (Forall is_log l2) as Hl2 by apply log_events_is_log.
      unfold bind at 1, get_globals. cbn [globals trace].
      destruct (g_truthy (globals st) "AFTER_UPLOAD_RM") eqn:Erm.
      2:{ unfold bind, ret. do 2 eexists.
          split; [rewrite <- !app_assoc; reflexivity|].
          cbn [is_uploaded andb tidy]. rewrite !removals_app, Hl1, Hevs.
          now apply removals_logs. }
      destruct (run_or_echo_run os (rm_cmd file)
                  (mkSt (globals st) (((trace st ++ l1) ++ evs) ++ l2)))
        as (rc' & evs3 & Hrun & Hrm).
      unfold rm_cmd in Hrun. unfold bind at 1.
      rewrite (bind_ok _ _ _ _ _ Hrun), log_run. unfold bind, ret.
      cbn [globals trace] in *.
      set (l4 := log_events (globals st) _).
      assert (Forall is_log l4) as Hl4 by apply log_events_is_log.
      exists (Uploaded attempt), (l1 ++ evs ++ l2 ++ evs3 ++ l4).
      split; [now rewrite <- !app_assoc|].
      destruct (g_truthy (globals st) "DRY_RUN") eqn:Edry;
        cbn [is_uploaded andb negb tidy].
      * destruct Hrm as [_ Hlogs3].
        rewrite !removals_app, Hl1, Hevs.
        now rewrite !removals_logs.
      * destruct Hrm as (r & logs & -> & Hlogs & _).
        destruct Hmode as (res & rest & -> & Hrest & Htr & Hfail).
        exists (l1 ++ (EvShell cmd res :: rest) ++ l2), cmd, r, (logs ++ l4).
        split; [now rewrite <- !app_assoc|].
        split; [rewrite !removals_app, Hl1, Hevs; now rewrite removals_logs|].
        split; [|now apply Forall_app_2].
        rewrite !transfers_app, (transfers_logs l2 Hl2).
        rewrite (transfers_logs l1) by apply log_events_is_log.
        destruct (shell_tally cmd res rest Hrest Htr) as (_ & Ht & _).
        cbn [app]. rewrite app_nil_r.
        unfold transfers in *. cbn [List.filter] in *. rewrite Htr in *.
        destruct (List.filter is_transfer rest); [|discriminate].
        cbn [last]. f_equal. f_equal.
        cbn [negb] in Hfail. cbn in Hfail.
        cbn [is_transfer] in Htr. rewrite Htr in Hfail.
        destruct res as [rc0|e]; [|discriminate].
        cbn [andb] in Hfail. apply negb_false_iff, Z.eqb_eq in Hfail.
        now subst rc0.
    + (* the transfer failed *)
      rewrite (bind_ok _ _ _ _ _ (log_run _ _)). cbn [globals trace].
      set (l2 := log_events (globals st) _).
      assert (removals l2 = []) as Hl2
        by apply removals_logs, log_events_is_log.
      unfold bind at 1, emit. cbn [globals trace].
      set (st2 := mkSt (globals st) _).
      destruct (IH (attempt + 1) (delay * 2) st2 ltac:(lia))
        as (x & evs' & Hloop & Htidy).
      rewrite Hloop. cbn [globals trace st2] in *.
      exists x, (l1 ++ evs ++ l2 ++ [EvSleep delay] ++ evs').
      split; [now rewrite <- !app_assoc|].
      rewrite !app_assoc. apply tidy_app; [|exact Htidy].
      now rewrite !removals_app, Hl1, Hevs, Hl2.
Qed.

(** [do_upload_one] removes the local file only when it returns 0 for a
    real upload with [AFTER_UPLOAD_RM] on, outside a dry run; the removal
    then comes after the transfer that returned 0, no transfer follows it
    and nothing else is removed.  In every other case (a failed upload
    among them) no file is removed. *)
Theorem do_upload_one_removal os file st tries :
  upload_retry os (globals st) = Some tries ->
  let g := globals st in
  exists rc evs,
    do_upload_one os file st = Ok rc (mkSt g (trace st ++ evs))
    /\ tidy g file
         ((rc =? 0) && Py.nonempty (g_str g "UPLOAD_TARGET")
          && g_truthy g "AFTER_UPLOAD_RM" && negb (g_truthy g "DRY_RUN"))
         evs.
Proof.
  intros Hretry g. unfold do_upload_one, upload_one, bind at 1.
  unfold bind at 1, get_globals. rewrite Hretry. fold g.
  destruct (Py.nonempty (g_str g "UPLOAD_TARGET")) eqn:Etarget; cbn [negb].
  2:{ exists 0, []. unfold ret. rewrite app_nil_r, andb_false_r.
      split; [now destruct st | reflexivity]. }
  set (tool0 := if g_truthy g "UPLOAD_TOOL"
                then g_str g "UPLOAD_TOOL" else "auto").
  assert (exists tool,
             (if String.eqb tool0 "auto"
              then auto_tool os (g_str g "UPLOAD_TARGET")
              else ret tool0) st = Ok tool st) as [tool Htool].
  { destruct (String.eqb tool0 "auto"); [apply auto_tool_run|].
    now exists tool0. }
  rewrite (bind_ok _ _ _ _ _ Htool), (bind_ok _ _ _ _ _ (log_run _ _)).
  fold g. set (l0 := log_events g _).
  destruct (upload_loop_tidy os file (g_str g "UPLOAD_TARGET") tool tries
              _ 1 2 (mkSt g (trace st ++ l0)) eq_refl)
    as (x & evs & Hloop & Htidy).
  destruct (upload_loop_spec os file (g_str g "UPLOAD_TARGET") tool tries
              _ 1 2 (mkSt g (trace st ++ l0)) eq_refl)
    as (x' & evs' & Hloop' & _ & _ & Hx).
  rewrite Hloop in Hloop'. injection Hloop' as <- _.
  rewrite Hloop. cbn [globals trace] in *. unfold ret.
  exists (rc_of x), (l0 ++ evs). split; [now rewrite <- app_assoc|].
  rewrite andb_true_r.
  replace (rc_of x =? 0) with (is_uploaded x)
    by (destruct x; try reflexivity; contradiction).
  apply tidy_app; [|exact Htidy].
  apply removals_logs, log_events_is_log.
Qed.

Lemma ok_inj {A} (a a' : A) (s s' : St) :
  Ok a s = Ok a' s' -> a = a' /\ s = s'.
Proof. now intros [= -> ->]. Qed.

Lemma do_upload_one_removal_witness :
  let st := fresh (<["UPLOAD_TARGET" := VStr "remote:bk"]>
                     (<["AFTER_UPLOAD_RM" := VInt 1]> (defaults kind_os))) in
  exists rc evs pre cmd r logs,
    do_upload_one kind_os "a.zip" st = Ok rc (mkSt (globals st) evs)
    /\ evs = pre ++ EvShell "rm -f -- a.zip" r :: logs
    /\ removals pre = []
    /\ last (transfers pre) = Some (EvShell cmd (Returned 0)).
Proof.
  intros st.
  assert (upload_retry kind_os (globals st) = Some 3) as H3
    by (vm_compute; reflexivity).
  destruct (do_upload_one_removal kind_os "a.zip" st 3 H3)
    as (rc & evs & Hrun & Htidy).
  assert (exists s, do_upload_one kind_os "a.zip" st = Ok 0 s) as [s Hs]
    by (eexists; vm_compute; reflexivity).
  rewrite Hs in Hrun.
  destruct (ok_inj _ _ _ _ Hrun) as [<- _].
  assert (((0 =? 0) && Py.nonempty (g_str (globals st) "UPLOAD_TARGET")
          && g_truthy (globals st) "AFTER_UPLOAD_RM"
          && negb (g_truthy (globals st) "DRY_RUN")) = true) as Hb
    by (vm_compute; reflexivity).
  rewrite Hb in Htidy.
  destruct Htidy as (pre & cmd & r & logs & -> & Hpre & Hlast & _).
  exists 0, (pre ++ EvShell "rm -f -- a.zip" r :: logs), pre, cmd, r, logs.
  split; [|split; [reflexivity|split; assumption]].
  rewrite Hs.
  exact Hrun.
Defined.

(** ** Sizes that [int] or [read] refuse *)

Lemma g_str_truthy g k : g_str g k <> "" -> g_truthy g k = true.
Proof.
  unfold g_str, g_truthy. destruct (g !! k) as [[n|s|l]|]; try congruence.
  destruct s; [congruence | reflexivity].
Qed.

(** A size whose numeral has more digits than [int] converts stops the
    run in the split block: [parse_split_size] raises ValueError, which
    neither [make_archive] nor its caller catches, before anything is
    logged or written. *)
Theorem split_size_refused os primary st ds u :
  let g := globals st in
  decimal_digits_ok (os_py os) ->
  Py.trim Py.is_uspace (Py.codepoints (g_str g "SPLIT_SIZE")) = ds ++ [u] ->
  ds <> [] -> forallb (is_decimal (os_py os)) ds = true ->
  is_unit u = true ->
  Py.too_long (os_py os) (length ds) = true ->
  split_stage os primary st = Raise (Exception "ValueError") st.
Proof.
  intros g Hok Hs Hne Hd Hu Hlong.
  unfold split_stage, bind at 1, get_globals. fold g.
  rewrite g_str_truthy.
  2:{ intros E. rewrite E in Hs. cbn in Hs. now destruct ds. }
  rewrite (parse_split_size_form _ _ ds u) by assumption.
  rewrite Hlong. reflexivity.
Qed.

Lemma split_size_refused_witness :
  split_stage kind_os "a.tar"
    (configured kind_os
       [("SPLIT_SIZE", VStr (Py.str (repeat "1"%char 4301 ++ ["k"%char])))])
  = Raise (Exception "ValueError")
      (configured kind_os
         [("SPLIT_SIZE", VStr (Py.str (repeat "1"%char 4301 ++ ["k"%char])))]).
Proof.
  apply (split_size_refused kind_os "a.tar" _ (repeat 49%N 4301) 107%N).
  - exact sample_py_ok.
  - vm_compute. reflexivity.
  - discriminate.
  - vm_compute. reflexivity.
  - reflexivity.
  - vm_compute. reflexivity.
Defined.

(** A size of 2^63 - 1 bytes or more, such as [--split 8589934592g],
    is parsed, and outside a dry run the split block then stops at its
    first [read] with OverflowError, after the line that announces the
    split and before anything is written. *)
Theorem split_stage_overflow os primary st b data :
  let g := globals st in
  g_truthy g "SPLIT_SIZE" = true ->
  parse_split_size (os_py os) (g_str g "SPLIT_SIZE") = Val (Some b) ->
  2 ^ 63 - 1 <= b ->
  g_truthy g "DRY_RUN" = false ->
  (forall t, os_read_bytes os t primary = Some data) ->
  split_stage os primary st
  = Raise (Exception "OverflowError")
      (mkSt g (trace st ++
                 log_events g ("✂️  Split per " +:+ g_fmt g "SPLIT_SIZE"
                               +:+ "..."))).
Proof.
  intros g Hsize Hparse Hb Hlive Hread.
  unfold split_stage, bind at 1, get_globals. fold g.
  rewrite Hsize, Hparse. unfold lift, bind at 1, ret.
  destruct b as [|b|b]; try lia.
  rewrite (bind_ok _ _ _ _ _ (log_run _ _)). rewrite Hlive.
  cbn [globals trace]. fold g.
  now rewrite (bind_raise _ _ _ _ _
                 (do_python_split_overflow os primary _ _ data _ Hb
                    (Hread _))).
Qed.

Lemma split_stage_overflow_witness :
  exists st',
    split_stage kind_os "a.tar"
      (configured kind_os [("SPLIT_SIZE", VStr "8589934592g")])
    = Raise (Exception "OverflowError") st'.
Proof.
  eexists.
  apply (split_stage_overflow kind_os "a.tar" _ (2 ^ 63) []).
  - reflexivity.
  - vm_compute. reflexivity.
  - lia.
  - reflexivity.
  - reflexivity.
Defined.
